(** * CosmicStrikes: the game reducer and its difficulty tables

    A shallow embedding of [frontend/src/features/game.ts] (the Redux slice
    holding the whole simulation state) and of the pure helpers of
    [difficultyV2.ts] that the reducer imports.

    Conventions of the embedding.
    - JavaScript numbers that the program only ever uses as integers (score,
      lives, level, wave, combo, counters, hit points, millisecond time
      stamps) are [Z]; every value involved stays far below 2^53, where
      double arithmetic on integers is exact.
    - Coordinates and velocities are IEEE-754 binary64 values, Rocq's
      primitive [float], with the comparisons of the source.
    - [Date.now()] and [Math.random()] are the two reads of the outside world.
      A reducer that calls them takes the values read as extra arguments.
    - The module-level counter behind [generateId] lives next to the game
      state in [World]. *)

From Stdlib Require Import ZArith List String Ascii Bool Lia QArith Qround.
From Stdlib Require Import PrimFloat Uint63 DecimalString DecimalNat SpecFloat FloatOps.
Import ListNotations.

#[local] Open Scope string_scope.
#[local] Open Scope Z_scope.

#[local] Set Warnings "-inexact-float".

(* ================================================================== *)
(** * difficultyV2.ts                                                  *)
(* ================================================================== *)

Inductive DifficultyMode := Normal | Elite | Mastery.

Definition BASE_SCORE_PER_LEVEL : Z := 500.

(** ** Level progression *)

(** [Math.floor(500 * level * Math.pow(level, 0.85))] is the integer part of
    [500 * level ^ (37/20)].  For an integer [level > 1] that number is
    irrational, and it is the greatest [r] with
    [r ^ 20 <= 500 ^ 20 * level ^ 37].  [rootSearch] finds it by bisection
    between [lo] (whose 20th power is below the target) and [hi] (whose 20th
    power is above it). *)
Fixpoint rootSearch (fuel : nat) (X lo hi : Z) : Z :=
  match fuel with
  | O => lo
  | S fuel' =>
      let mid := (lo + hi) / 2 in
      if mid =? lo then lo
      else if mid ^ 20 <=? X then rootSearch fuel' X mid hi
           else rootSearch fuel' X lo mid
  end.

Definition floorScaledPow (level : Z) : Z :=
  let hi := BASE_SCORE_PER_LEVEL * level * level + 1 in
  rootSearch (S (Z.to_nat (Z.log2_up hi)))
             (BASE_SCORE_PER_LEVEL ^ 20 * level ^ 37) 0 hi.

Definition getRequiredScoreForLevel (level : Z) : Z :=
  if level <=? 1 then 0 else floorScaledPow level.

(** The [for (level = 1; level <= 100; level++)] scan; [n] counts the
    iterations that remain. *)
Fixpoint levelScan (n : nat) (level score : Z) : Z :=
  match n with
  | O => 100
  | S n' =>
      if score <? getRequiredScoreForLevel level
      then Z.max 1 (level - 1)
      else levelScan n' (level + 1) score
  end.

Definition calculateLevelFromScore (score : Z) : Z := levelScan 100 1 score.

(** ** Difficulty brackets *)

Inductive DifficultyBracket := training | cadet | pilot | veteran | ace | elite.

Definition getDifficultyBracket (level : Z) : DifficultyBracket :=
  if level <=? 10 then training
  else if level <=? 25 then cadet
  else if level <=? 40 then pilot
  else if level <=? 60 then veteran
  else if level <=? 80 then ace
  else elite.

(** ** Wave system ([enemiesRequired], which the reducer never reads, is
    left out of the record) *)

Definition floatOfZ (z : Z) : float :=
  if z <? 0 then PrimFloat.opp (PrimFloat.of_uint63 (Uint63.of_Z (- z)))
  else PrimFloat.of_uint63 (Uint63.of_Z z).

Inductive WaveSpecial :=
  ws_basic | ws_zigzag | ws_scouts | ws_shielded | ws_formations | ws_elite.

Record WaveConfig := {
  wc_wave : Z;
  enemiesPerSecond : float;
  alienSpeed : float;
  alienHP : Z;
  special : WaveSpecial;
  duration : Z
}.

Definition getLevelWithinBracket (level : Z) : Z :=
  if level <=? 10 then level - 1
  else if level <=? 25 then level - 11
  else if level <=? 40 then level - 26
  else if level <=? 60 then level - 41
  else if level <=? 80 then level - 61
  else level - 81.

Definition getWaveConfig (level wave : Z) : WaveConfig :=
  let w1 := floatOfZ (wave - 1) in
  let '(baseEPS, baseSpeed, baseHP, spec) :=
    if level <=? 10 then
      ((0.5 + w1 * 0.25)%float, (0.03 + w1 * 0.0075)%float, 1, ws_basic)
    else if level <=? 25 then
      ((1.2 + w1 * 0.2)%float, (0.06 + w1 * 0.0075)%float,
       (if 3 <=? wave then 2 else 1),
       (if 3 <=? wave then ws_zigzag else ws_basic))
    else if level <=? 40 then
      ((2.0 + w1 * 0.25)%float, (0.09 + w1 * 0.005)%float, 2,
       (if 4 <=? wave then ws_scouts else ws_zigzag))
    else if level <=? 60 then
      ((3.0 + w1 * 0.375)%float, (0.11 + w1 * 0.005)%float,
       (if 3 <=? wave then 3 else 2),
       (if 4 <=? wave then ws_shielded else ws_scouts))
    else if level <=? 80 then
      ((4.5 + w1 * 0.375)%float, (0.13 + w1 * 0.005)%float,
       (if 4 <=? wave then 4 else 3),
       (if 3 <=? wave then ws_formations else ws_shielded))
    else
      ((6.0 + w1 * 0.5)%float, (0.15 + w1 * 0.0075)%float,
       (if 2 <=? wave then 4 else 3),
       (if 4 <=? wave then ws_elite else ws_formations)) in
  let levelWithinBracket := getLevelWithinBracket level in
  let scaleFactor := (1 + floatOfZ levelWithinBracket * 0.02)%float in
  {| wc_wave := wave;
     enemiesPerSecond := (baseEPS * scaleFactor)%float;
     alienSpeed := (baseSpeed * scaleFactor)%float;
     alienHP := baseHP;
     special := spec;
     duration := 15000 + wave * 3000 |}.

Definition getAlienSpeed (level wave : Z) (hasSlowMotion : bool) : float :=
  let config := getWaveConfig level wave in
  if hasSlowMotion then (alienSpeed config * 0.5)%float else alienSpeed config.

(** ** Boss system *)

Definition isBossLevel (level : Z) : bool :=
  (0 <? level) && (level mod 10 =? 0) && (level <=? 100).

(** ** Combo and multiplier system *)

Record ComboInfo := {
  multiplier : Z;
  tier : string;
  isPerfect : bool
}.

Definition getComboMultiplier (combo : Z) : ComboInfo :=
  if 50 <=? combo then {| multiplier := 5; tier := "PERFECT"; isPerfect := true |}
  else if 31 <=? combo then {| multiplier := 4; tier := "INCREDIBLE"; isPerfect := false |}
  else if 16 <=? combo then {| multiplier := 3; tier := "AWESOME"; isPerfect := false |}
  else if 6 <=? combo then {| multiplier := 2; tier := "GREAT"; isPerfect := false |}
  else {| multiplier := 1; tier := ""; isPerfect := false |}.

(** [calculateKillScore]: the mode multiplier 1.5 is the rational 3/2, and
    the product is floored as in the source. *)
Definition modeMultiplierOf (difficultyMode : DifficultyMode) : Q :=
  match difficultyMode with
  | Mastery => 2 # 1
  | Elite => 3 # 2
  | Normal => 1 # 1
  end.

Definition calculateKillScore (alienHP wave combo : Z) (isBoss : bool)
           (difficultyMode : DifficultyMode) : Z :=
  let basePoints := 500 * alienHP * wave in
  let multiplier := multiplier (getComboMultiplier combo) in
  let modeMultiplier := modeMultiplierOf difficultyMode in
  let bossMultiplier := if isBoss then 5 else 1 in
  Qfloor (inject_Z basePoints * inject_Z multiplier * modeMultiplier
          * inject_Z bossMultiplier)%Q.

Definition getWaveClearBonus (wave level : Z) : Z := 5000 * wave + level * 100.

Definition PERFECT_COMBO_BONUS : Z := 10000.

(** ** Power-up scaling *)

Definition getPowerUpDuration (level : Z) : Z :=
  if level <=? 25 then 8000
  else if level <=? 50 then 6000
  else if level <=? 75 then 4000
  else 3000.

Definition getPowerUpDropChance (level : Z) : float :=
  if level <? 50 then 1.0%float
  else if level <? 70 then 0.85%float
  else if level <? 90 then 0.7%float
  else 0.6%float.

(** ** Victory table and score pressure *)

Inductive VictoryKind := Minor | Major | Ultimate.

Record VictoryCondition := {
  vc_level : Z;
  vc_title : string;
  vc_type : VictoryKind;
  vc_reward : string
}.

Definition VICTORY_CONDITIONS : list VictoryCondition :=
  [ {| vc_level := 10; vc_title := "Sector Cleared"; vc_type := Minor;
       vc_reward := "Cadet Badge" |};
    {| vc_level := 25; vc_title := "Pilot Status"; vc_type := Minor;
       vc_reward := "Pilot Wings" |};
    {| vc_level := 50; vc_title := "Elite Sector"; vc_type := Major;
       vc_reward := "Elite Title + 100K Bonus" |};
    {| vc_level := 75; vc_title := "Ace Status"; vc_type := Major;
       vc_reward := "Ace Medal + 500K Bonus" |};
    {| vc_level := 100; vc_title := "COSMIC SAVIOR"; vc_type := Ultimate;
       vc_reward := "Credits Roll + 1M Bonus" |} ].

Definition checkVictoryCondition (level : Z) : option VictoryCondition :=
  find (fun v => vc_level v =? level) VICTORY_CONDITIONS.

Record ScorePressure := {
  comboDecay : float;
  missedPenalty : Z;
  idlePenalty : bool
}.

Definition getScorePressure (level : Z) : ScorePressure :=
  if level <? 50 then
    {| comboDecay := 0; missedPenalty := 0; idlePenalty := false |}
  else if level <? 70 then
    {| comboDecay := 0.1; missedPenalty := 100; idlePenalty := false |}
  else if level <? 90 then
    {| comboDecay := 0.2; missedPenalty := 250; idlePenalty := true |}
  else
    {| comboDecay := 0.3; missedPenalty := 500; idlePenalty := true |}.

(* ================================================================== *)
(** * game.ts: the data model                                          *)
(* ================================================================== *)

Record Bullet := {
  b_id : string;
  b_x : float;
  b_y : float;
  b_vx : float;
  b_vy : float
}.

Inductive AlienType := Red | Green | Blue | Yellow | Purple | Cyan.

Inductive PowerUp :=
  FireRate | DoubleBullets | SpreadShot | ScoreMultiplier | Shield | SlowMotion.

Inductive GamePhase :=
  Idle | Playing | Paused | GameOver | Boss | WaveTransition | Victory.

(** [behavior] is never written or read by the reducer and is left out. *)
Record Alien := {
  a_id : string;
  a_x : float;
  a_y : float;
  a_type : AlienType;
  a_hp : Z;
  a_maxHp : Z;
  a_isBoss : bool;
  a_vx : float
}.

Record ActivePowerUp := {
  p_type : PowerUp;
  expiresAt : Z
}.

Record WaveNotification := {
  n_wave : Z;
  n_level : Z;
  n_bossName : option string
}.

(** [VictoryType] is ['minor' | 'major' | 'ultimate' | null]: an option. *)
Record GameState := {
  playerX : float;
  playerY : float;
  bullets : list Bullet;
  aliens : list Alien;
  running : bool;
  score : Z;
  lives : Z;
  level : Z;
  previousLevel : Z;
  wave : Z;
  waveKills : Z;
  waveEnemiesSpawned : Z;
  waveStartTime : Z;
  status : GamePhase;
  difficultyMode : DifficultyMode;
  activePowerUps : list ActivePowerUp;
  scoreMultiplier : Z;
  combo : Z;
  maxCombo : Z;
  comboTimer : Z;
  comboTier : string;
  difficultyBracket : DifficultyBracket;
  bossActive : bool;
  bossHP : Z;
  bossMaxHP : Z;
  totalKills : Z;
  missedAliens : Z;
  escapeStreak : Z;
  victoryType : option VictoryKind;
  victoryTitle : string;
  lastShotTime : Z;
  missesInWindow : Z;
  missWindowStart : Z;
  showWaveNotification : bool;
  waveNotificationData : option WaveNotification;
  shotsFired : Z;
  shotsHit : Z;
  gameStartTime : Z;
  powerUpsCollected : Z;
  wavesCompleted : Z
}.

(** Field updates ([state.f = v] on the draft). *)
Definition set_playerX (v : float) (s : GameState) : GameState :=
  Build_GameState v (playerY s) (bullets s) (aliens s) (running s) (score s)
    (lives s) (level s) (previousLevel s) (wave s) (waveKills s)
    (waveEnemiesSpawned s) (waveStartTime s) (status s) (difficultyMode s)
    (activePowerUps s) (scoreMultiplier s) (combo s) (maxCombo s) (comboTimer
    s) (comboTier s) (difficultyBracket s) (bossActive s) (bossHP s)
    (bossMaxHP s) (totalKills s) (missedAliens s) (escapeStreak s)
    (victoryType s) (victoryTitle s) (lastShotTime s) (missesInWindow s)
    (missWindowStart s) (showWaveNotification s) (waveNotificationData s)
    (shotsFired s) (shotsHit s) (gameStartTime s) (powerUpsCollected s)
    (wavesCompleted s).

Definition set_playerY (v : float) (s : GameState) : GameState :=
  Build_GameState (playerX s) v (bullets s) (aliens s) (running s) (score s)
    (lives s) (level s) (previousLevel s) (wave s) (waveKills s)
    (waveEnemiesSpawned s) (waveStartTime s) (status s) (difficultyMode s)
    (activePowerUps s) (scoreMultiplier s) (combo s) (maxCombo s) (comboTimer
    s) (comboTier s) (difficultyBracket s) (bossActive s) (bossHP s)
    (bossMaxHP s) (totalKills s) (missedAliens s) (escapeStreak s)
    (victoryType s) (victoryTitle s) (lastShotTime s) (missesInWindow s)
    (missWindowStart s) (showWaveNotification s) (waveNotificationData s)
    (shotsFired s) (shotsHit s) (gameStartTime s) (powerUpsCollected s)
    (wavesCompleted s).

Definition set_bullets (v : list Bullet) (s : GameState) : GameState :=
  Build_GameState (playerX s) (playerY s) v (aliens s) (running s) (score s)
    (lives s) (level s) (previousLevel s) (wave s) (waveKills s)
    (waveEnemiesSpawned s) (waveStartTime s) (status s) (difficultyMode s)
    (activePowerUps s) (scoreMultiplier s) (combo s) (maxCombo s) (comboTimer
    s) (comboTier s) (difficultyBracket s) (bossActive s) (bossHP s)
    (bossMaxHP s) (totalKills s) (missedAliens s) (escapeStreak s)
    (victoryType s) (victoryTitle s) (lastShotTime s) (missesInWindow s)
    (missWindowStart s) (showWaveNotification s) (waveNotificationData s)
    (shotsFired s) (shotsHit s) (gameStartTime s) (powerUpsCollected s)
    (wavesCompleted s).

Definition set_aliens (v : list Alien) (s : GameState) : GameState :=
  Build_GameState (playerX s) (playerY s) (bullets s) v (running s) (score s)
    (lives s) (level s) (previousLevel s) (wave s) (waveKills s)
    (waveEnemiesSpawned s) (waveStartTime s) (status s) (difficultyMode s)
    (activePowerUps s) (scoreMultiplier s) (combo s) (maxCombo s) (comboTimer
    s) (comboTier s) (difficultyBracket s) (bossActive s) (bossHP s)
    (bossMaxHP s) (totalKills s) (missedAliens s) (escapeStreak s)
    (victoryType s) (victoryTitle s) (lastShotTime s) (missesInWindow s)
    (missWindowStart s) (showWaveNotification s) (waveNotificationData s)
    (shotsFired s) (shotsHit s) (gameStartTime s) (powerUpsCollected s)
    (wavesCompleted s).

Definition set_running (v : bool) (s : GameState) : GameState :=
  Build_GameState (playerX s) (playerY s) (bullets s) (aliens s) v (score s)
    (lives s) (level s) (previousLevel s) (wave s) (waveKills s)
    (waveEnemiesSpawned s) (waveStartTime s) (status s) (difficultyMode s)
    (activePowerUps s) (scoreMultiplier s) (combo s) (maxCombo s) (comboTimer
    s) (comboTier s) (difficultyBracket s) (bossActive s) (bossHP s)
    (bossMaxHP s) (totalKills s) (missedAliens s) (escapeStreak s)
    (victoryType s) (victoryTitle s) (lastShotTime s) (missesInWindow s)
    (missWindowStart s) (showWaveNotification s) (waveNotificationData s)
    (shotsFired s) (shotsHit s) (gameStartTime s) (powerUpsCollected s)
    (wavesCompleted s).

Definition set_score (v : Z) (s : GameState) : GameState :=
  Build_GameState (playerX s) (playerY s) (bullets s) (aliens s) (running s) v
    (lives s) (level s) (previousLevel s) (wave s) (waveKills s)
    (waveEnemiesSpawned s) (waveStartTime s) (status s) (difficultyMode s)
    (activePowerUps s) (scoreMultiplier s) (combo s) (maxCombo s) (comboTimer
    s) (comboTier s) (difficultyBracket s) (bossActive s) (bossHP s)
    (bossMaxHP s) (totalKills s) (missedAliens s) (escapeStreak s)
    (victoryType s) (victoryTitle s) (lastShotTime s) (missesInWindow s)
    (missWindowStart s) (showWaveNotification s) (waveNotificationData s)
    (shotsFired s) (shotsHit s) (gameStartTime s) (powerUpsCollected s)
    (wavesCompleted s).

Definition set_lives (v : Z) (s : GameState) : GameState :=
  Build_GameState (playerX s) (playerY s) (bullets s) (aliens s) (running s)
    (score s) v (level s) (previousLevel s) (wave s) (waveKills s)
    (waveEnemiesSpawned s) (waveStartTime s) (status s) (difficultyMode s)
    (activePowerUps s) (scoreMultiplier s) (combo s) (maxCombo s) (comboTimer
    s) (comboTier s) (difficultyBracket s) (bossActive s) (bossHP s)
    (bossMaxHP s) (totalKills s) (missedAliens s) (escapeStreak s)
    (victoryType s) (victoryTitle s) (lastShotTime s) (missesInWindow s)
    (missWindowStart s) (showWaveNotification s) (waveNotificationData s)
    (shotsFired s) (shotsHit s) (gameStartTime s) (powerUpsCollected s)
    (wavesCompleted s).

Definition set_level (v : Z) (s : GameState) : GameState :=
  Build_GameState (playerX s) (playerY s) (bullets s) (aliens s) (running s)
    (score s) (lives s) v (previousLevel s) (wave s) (waveKills s)
    (waveEnemiesSpawned s) (waveStartTime s) (status s) (difficultyMode s)
    (activePowerUps s) (scoreMultiplier s) (combo s) (maxCombo s) (comboTimer
    s) (comboTier s) (difficultyBracket s) (bossActive s) (bossHP s)
    (bossMaxHP s) (totalKills s) (missedAliens s) (escapeStreak s)
    (victoryType s) (victoryTitle s) (lastShotTime s) (missesInWindow s)
    (missWindowStart s) (showWaveNotification s) (waveNotificationData s)
    (shotsFired s) (shotsHit s) (gameStartTime s) (powerUpsCollected s)
    (wavesCompleted s).

Definition set_previousLevel (v : Z) (s : GameState) : GameState :=
  Build_GameState (playerX s) (playerY s) (bullets s) (aliens s) (running s)
    (score s) (lives s) (level s) v (wave s) (waveKills s) (waveEnemiesSpawned
    s) (waveStartTime s) (status s) (difficultyMode s) (activePowerUps s)
    (scoreMultiplier s) (combo s) (maxCombo s) (comboTimer s) (comboTier s)
    (difficultyBracket s) (bossActive s) (bossHP s) (bossMaxHP s) (totalKills
    s) (missedAliens s) (escapeStreak s) (victoryType s) (victoryTitle s)
    (lastShotTime s) (missesInWindow s) (missWindowStart s)
    (showWaveNotification s) (waveNotificationData s) (shotsFired s) (shotsHit
    s) (gameStartTime s) (powerUpsCollected s) (wavesCompleted s).

Definition set_wave (v : Z) (s : GameState) : GameState :=
  Build_GameState (playerX s) (playerY s) (bullets s) (aliens s) (running s)
    (score s) (lives s) (level s) (previousLevel s) v (waveKills s)
    (waveEnemiesSpawned s) (waveStartTime s) (status s) (difficultyMode s)
    (activePowerUps s) (scoreMultiplier s) (combo s) (maxCombo s) (comboTimer
    s) (comboTier s) (difficultyBracket s) (bossActive s) (bossHP s)
    (bossMaxHP s) (totalKills s) (missedAliens s) (escapeStreak s)
    (victoryType s) (victoryTitle s) (lastShotTime s) (missesInWindow s)
    (missWindowStart s) (showWaveNotification s) (waveNotificationData s)
    (shotsFired s) (shotsHit s) (gameStartTime s) (powerUpsCollected s)
    (wavesCompleted s).

Definition set_waveKills (v : Z) (s : GameState) : GameState :=
  Build_GameState (playerX s) (playerY s) (bullets s) (aliens s) (running s)
    (score s) (lives s) (level s) (previousLevel s) (wave s) v
    (waveEnemiesSpawned s) (waveStartTime s) (status s) (difficultyMode s)
    (activePowerUps s) (scoreMultiplier s) (combo s) (maxCombo s) (comboTimer
    s) (comboTier s) (difficultyBracket s) (bossActive s) (bossHP s)
    (bossMaxHP s) (totalKills s) (missedAliens s) (escapeStreak s)
    (victoryType s) (victoryTitle s) (lastShotTime s) (missesInWindow s)
    (missWindowStart s) (showWaveNotification s) (waveNotificationData s)
    (shotsFired s) (shotsHit s) (gameStartTime s) (powerUpsCollected s)
    (wavesCompleted s).

Definition set_waveEnemiesSpawned (v : Z) (s : GameState) : GameState :=
  Build_GameState (playerX s) (playerY s) (bullets s) (aliens s) (running s)
    (score s) (lives s) (level s) (previousLevel s) (wave s) (waveKills s) v
    (waveStartTime s) (status s) (difficultyMode s) (activePowerUps s)
    (scoreMultiplier s) (combo s) (maxCombo s) (comboTimer s) (comboTier s)
    (difficultyBracket s) (bossActive s) (bossHP s) (bossMaxHP s) (totalKills
    s) (missedAliens s) (escapeStreak s) (victoryType s) (victoryTitle s)
    (lastShotTime s) (missesInWindow s) (missWindowStart s)
    (showWaveNotification s) (waveNotificationData s) (shotsFired s) (shotsHit
    s) (gameStartTime s) (powerUpsCollected s) (wavesCompleted s).

Definition set_waveStartTime (v : Z) (s : GameState) : GameState :=
  Build_GameState (playerX s) (playerY s) (bullets s) (aliens s) (running s)
    (score s) (lives s) (level s) (previousLevel s) (wave s) (waveKills s)
    (waveEnemiesSpawned s) v (status s) (difficultyMode s) (activePowerUps s)
    (scoreMultiplier s) (combo s) (maxCombo s) (comboTimer s) (comboTier s)
    (difficultyBracket s) (bossActive s) (bossHP s) (bossMaxHP s) (totalKills
    s) (missedAliens s) (escapeStreak s) (victoryType s) (victoryTitle s)
    (lastShotTime s) (missesInWindow s) (missWindowStart s)
    (showWaveNotification s) (waveNotificationData s) (shotsFired s) (shotsHit
    s) (gameStartTime s) (powerUpsCollected s) (wavesCompleted s).

Definition set_status (v : GamePhase) (s : GameState) : GameState :=
  Build_GameState (playerX s) (playerY s) (bullets s) (aliens s) (running s)
    (score s) (lives s) (level s) (previousLevel s) (wave s) (waveKills s)
    (waveEnemiesSpawned s) (waveStartTime s) v (difficultyMode s)
    (activePowerUps s) (scoreMultiplier s) (combo s) (maxCombo s) (comboTimer
    s) (comboTier s) (difficultyBracket s) (bossActive s) (bossHP s)
    (bossMaxHP s) (totalKills s) (missedAliens s) (escapeStreak s)
    (victoryType s) (victoryTitle s) (lastShotTime s) (missesInWindow s)
    (missWindowStart s) (showWaveNotification s) (waveNotificationData s)
    (shotsFired s) (shotsHit s) (gameStartTime s) (powerUpsCollected s)
    (wavesCompleted s).

Definition set_difficultyMode (v : DifficultyMode) (s : GameState) : GameState :=
  Build_GameState (playerX s) (playerY s) (bullets s) (aliens s) (running s)
    (score s) (lives s) (level s) (previousLevel s) (wave s) (waveKills s)
    (waveEnemiesSpawned s) (waveStartTime s) (status s) v (activePowerUps s)
    (scoreMultiplier s) (combo s) (maxCombo s) (comboTimer s) (comboTier s)
    (difficultyBracket s) (bossActive s) (bossHP s) (bossMaxHP s) (totalKills
    s) (missedAliens s) (escapeStreak s) (victoryType s) (victoryTitle s)
    (lastShotTime s) (missesInWindow s) (missWindowStart s)
    (showWaveNotification s) (waveNotificationData s) (shotsFired s) (shotsHit
    s) (gameStartTime s) (powerUpsCollected s) (wavesCompleted s).

Definition set_activePowerUps (v : list ActivePowerUp) (s : GameState) : GameState :=
  Build_GameState (playerX s) (playerY s) (bullets s) (aliens s) (running s)
    (score s) (lives s) (level s) (previousLevel s) (wave s) (waveKills s)
    (waveEnemiesSpawned s) (waveStartTime s) (status s) (difficultyMode s) v
    (scoreMultiplier s) (combo s) (maxCombo s) (comboTimer s) (comboTier s)
    (difficultyBracket s) (bossActive s) (bossHP s) (bossMaxHP s) (totalKills
    s) (missedAliens s) (escapeStreak s) (victoryType s) (victoryTitle s)
    (lastShotTime s) (missesInWindow s) (missWindowStart s)
    (showWaveNotification s) (waveNotificationData s) (shotsFired s) (shotsHit
    s) (gameStartTime s) (powerUpsCollected s) (wavesCompleted s).

Definition set_scoreMultiplier (v : Z) (s : GameState) : GameState :=
  Build_GameState (playerX s) (playerY s) (bullets s) (aliens s) (running s)
    (score s) (lives s) (level s) (previousLevel s) (wave s) (waveKills s)
    (waveEnemiesSpawned s) (waveStartTime s) (status s) (difficultyMode s)
    (activePowerUps s) v (combo s) (maxCombo s) (comboTimer s) (comboTier s)
    (difficultyBracket s) (bossActive s) (bossHP s) (bossMaxHP s) (totalKills
    s) (missedAliens s) (escapeStreak s) (victoryType s) (victoryTitle s)
    (lastShotTime s) (missesInWindow s) (missWindowStart s)
    (showWaveNotification s) (waveNotificationData s) (shotsFired s) (shotsHit
    s) (gameStartTime s) (powerUpsCollected s) (wavesCompleted s).

Definition set_combo (v : Z) (s : GameState) : GameState :=
  Build_GameState (playerX s) (playerY s) (bullets s) (aliens s) (running s)
    (score s) (lives s) (level s) (previousLevel s) (wave s) (waveKills s)
    (waveEnemiesSpawned s) (waveStartTime s) (status s) (difficultyMode s)
    (activePowerUps s) (scoreMultiplier s) v (maxCombo s) (comboTimer s)
    (comboTier s) (difficultyBracket s) (bossActive s) (bossHP s) (bossMaxHP
    s) (totalKills s) (missedAliens s) (escapeStreak s) (victoryType s)
    (victoryTitle s) (lastShotTime s) (missesInWindow s) (missWindowStart s)
    (showWaveNotification s) (waveNotificationData s) (shotsFired s) (shotsHit
    s) (gameStartTime s) (powerUpsCollected s) (wavesCompleted s).

Definition set_maxCombo (v : Z) (s : GameState) : GameState :=
  Build_GameState (playerX s) (playerY s) (bullets s) (aliens s) (running s)
    (score s) (lives s) (level s) (previousLevel s) (wave s) (waveKills s)
    (waveEnemiesSpawned s) (waveStartTime s) (status s) (difficultyMode s)
    (activePowerUps s) (scoreMultiplier s) (combo s) v (comboTimer s)
    (comboTier s) (difficultyBracket s) (bossActive s) (bossHP s) (bossMaxHP
    s) (totalKills s) (missedAliens s) (escapeStreak s) (victoryType s)
    (victoryTitle s) (lastShotTime s) (missesInWindow s) (missWindowStart s)
    (showWaveNotification s) (waveNotificationData s) (shotsFired s) (shotsHit
    s) (gameStartTime s) (powerUpsCollected s) (wavesCompleted s).

Definition set_comboTimer (v : Z) (s : GameState) : GameState :=
  Build_GameState (playerX s) (playerY s) (bullets s) (aliens s) (running s)
    (score s) (lives s) (level s) (previousLevel s) (wave s) (waveKills s)
    (waveEnemiesSpawned s) (waveStartTime s) (status s) (difficultyMode s)
    (activePowerUps s) (scoreMultiplier s) (combo s) (maxCombo s) v (comboTier
    s) (difficultyBracket s) (bossActive s) (bossHP s) (bossMaxHP s)
    (totalKills s) (missedAliens s) (escapeStreak s) (victoryType s)
    (victoryTitle s) (lastShotTime s) (missesInWindow s) (missWindowStart s)
    (showWaveNotification s) (waveNotificationData s) (shotsFired s) (shotsHit
    s) (gameStartTime s) (powerUpsCollected s) (wavesCompleted s).

Definition set_comboTier (v : string) (s : GameState) : GameState :=
  Build_GameState (playerX s) (playerY s) (bullets s) (aliens s) (running s)
    (score s) (lives s) (level s) (previousLevel s) (wave s) (waveKills s)
    (waveEnemiesSpawned s) (waveStartTime s) (status s) (difficultyMode s)
    (activePowerUps s) (scoreMultiplier s) (combo s) (maxCombo s) (comboTimer
    s) v (difficultyBracket s) (bossActive s) (bossHP s) (bossMaxHP s)
    (totalKills s) (missedAliens s) (escapeStreak s) (victoryType s)
    (victoryTitle s) (lastShotTime s) (missesInWindow s) (missWindowStart s)
    (showWaveNotification s) (waveNotificationData s) (shotsFired s) (shotsHit
    s) (gameStartTime s) (powerUpsCollected s) (wavesCompleted s).

Definition set_difficultyBracket (v : DifficultyBracket) (s : GameState) : GameState :=
  Build_GameState (playerX s) (playerY s) (bullets s) (aliens s) (running s)
    (score s) (lives s) (level s) (previousLevel s) (wave s) (waveKills s)
    (waveEnemiesSpawned s) (waveStartTime s) (status s) (difficultyMode s)
    (activePowerUps s) (scoreMultiplier s) (combo s) (maxCombo s) (comboTimer
    s) (comboTier s) v (bossActive s) (bossHP s) (bossMaxHP s) (totalKills s)
    (missedAliens s) (escapeStreak s) (victoryType s) (victoryTitle s)
    (lastShotTime s) (missesInWindow s) (missWindowStart s)
    (showWaveNotification s) (waveNotificationData s) (shotsFired s) (shotsHit
    s) (gameStartTime s) (powerUpsCollected s) (wavesCompleted s).

Definition set_bossActive (v : bool) (s : GameState) : GameState :=
  Build_GameState (playerX s) (playerY s) (bullets s) (aliens s) (running s)
    (score s) (lives s) (level s) (previousLevel s) (wave s) (waveKills s)
    (waveEnemiesSpawned s) (waveStartTime s) (status s) (difficultyMode s)
    (activePowerUps s) (scoreMultiplier s) (combo s) (maxCombo s) (comboTimer
    s) (comboTier s) (difficultyBracket s) v (bossHP s) (bossMaxHP s)
    (totalKills s) (missedAliens s) (escapeStreak s) (victoryType s)
    (victoryTitle s) (lastShotTime s) (missesInWindow s) (missWindowStart s)
    (showWaveNotification s) (waveNotificationData s) (shotsFired s) (shotsHit
    s) (gameStartTime s) (powerUpsCollected s) (wavesCompleted s).

Definition set_bossHP (v : Z) (s : GameState) : GameState :=
  Build_GameState (playerX s) (playerY s) (bullets s) (aliens s) (running s)
    (score s) (lives s) (level s) (previousLevel s) (wave s) (waveKills s)
    (waveEnemiesSpawned s) (waveStartTime s) (status s) (difficultyMode s)
    (activePowerUps s) (scoreMultiplier s) (combo s) (maxCombo s) (comboTimer
    s) (comboTier s) (difficultyBracket s) (bossActive s) v (bossMaxHP s)
    (totalKills s) (missedAliens s) (escapeStreak s) (victoryType s)
    (victoryTitle s) (lastShotTime s) (missesInWindow s) (missWindowStart s)
    (showWaveNotification s) (waveNotificationData s) (shotsFired s) (shotsHit
    s) (gameStartTime s) (powerUpsCollected s) (wavesCompleted s).

Definition set_bossMaxHP (v : Z) (s : GameState) : GameState :=
  Build_GameState (playerX s) (playerY s) (bullets s) (aliens s) (running s)
    (score s) (lives s) (level s) (previousLevel s) (wave s) (waveKills s)
    (waveEnemiesSpawned s) (waveStartTime s) (status s) (difficultyMode s)
    (activePowerUps s) (scoreMultiplier s) (combo s) (maxCombo s) (comboTimer
    s) (comboTier s) (difficultyBracket s) (bossActive s) (bossHP s) v
    (totalKills s) (missedAliens s) (escapeStreak s) (victoryType s)
    (victoryTitle s) (lastShotTime s) (missesInWindow s) (missWindowStart s)
    (showWaveNotification s) (waveNotificationData s) (shotsFired s) (shotsHit
    s) (gameStartTime s) (powerUpsCollected s) (wavesCompleted s).

Definition set_totalKills (v : Z) (s : GameState) : GameState :=
  Build_GameState (playerX s) (playerY s) (bullets s) (aliens s) (running s)
    (score s) (lives s) (level s) (previousLevel s) (wave s) (waveKills s)
    (waveEnemiesSpawned s) (waveStartTime s) (status s) (difficultyMode s)
    (activePowerUps s) (scoreMultiplier s) (combo s) (maxCombo s) (comboTimer
    s) (comboTier s) (difficultyBracket s) (bossActive s) (bossHP s)
    (bossMaxHP s) v (missedAliens s) (escapeStreak s) (victoryType s)
    (victoryTitle s) (lastShotTime s) (missesInWindow s) (missWindowStart s)
    (showWaveNotification s) (waveNotificationData s) (shotsFired s) (shotsHit
    s) (gameStartTime s) (powerUpsCollected s) (wavesCompleted s).

Definition set_missedAliens (v : Z) (s : GameState) : GameState :=
  Build_GameState (playerX s) (playerY s) (bullets s) (aliens s) (running s)
    (score s) (lives s) (level s) (previousLevel s) (wave s) (waveKills s)
    (waveEnemiesSpawned s) (waveStartTime s) (status s) (difficultyMode s)
    (activePowerUps s) (scoreMultiplier s) (combo s) (maxCombo s) (comboTimer
    s) (comboTier s) (difficultyBracket s) (bossActive s) (bossHP s)
    (bossMaxHP s) (totalKills s) v (escapeStreak s) (victoryType s)
    (victoryTitle s) (lastShotTime s) (missesInWindow s) (missWindowStart s)
    (showWaveNotification s) (waveNotificationData s) (shotsFired s) (shotsHit
    s) (gameStartTime s) (powerUpsCollected s) (wavesCompleted s).

Definition set_escapeStreak (v : Z) (s : GameState) : GameState :=
  Build_GameState (playerX s) (playerY s) (bullets s) (aliens s) (running s)
    (score s) (lives s) (level s) (previousLevel s) (wave s) (waveKills s)
    (waveEnemiesSpawned s) (waveStartTime s) (status s) (difficultyMode s)
    (activePowerUps s) (scoreMultiplier s) (combo s) (maxCombo s) (comboTimer
    s) (comboTier s) (difficultyBracket s) (bossActive s) (bossHP s)
    (bossMaxHP s) (totalKills s) (missedAliens s) v (victoryType s)
    (victoryTitle s) (lastShotTime s) (missesInWindow s) (missWindowStart s)
    (showWaveNotification s) (waveNotificationData s) (shotsFired s) (shotsHit
    s) (gameStartTime s) (powerUpsCollected s) (wavesCompleted s).

Definition set_victoryType (v : option VictoryKind) (s : GameState) : GameState :=
  Build_GameState (playerX s) (playerY s) (bullets s) (aliens s) (running s)
    (score s) (lives s) (level s) (previousLevel s) (wave s) (waveKills s)
    (waveEnemiesSpawned s) (waveStartTime s) (status s) (difficultyMode s)
    (activePowerUps s) (scoreMultiplier s) (combo s) (maxCombo s) (comboTimer
    s) (comboTier s) (difficultyBracket s) (bossActive s) (bossHP s)
    (bossMaxHP s) (totalKills s) (missedAliens s) (escapeStreak s) v
    (victoryTitle s) (lastShotTime s) (missesInWindow s) (missWindowStart s)
    (showWaveNotification s) (waveNotificationData s) (shotsFired s) (shotsHit
    s) (gameStartTime s) (powerUpsCollected s) (wavesCompleted s).

Definition set_victoryTitle (v : string) (s : GameState) : GameState :=
  Build_GameState (playerX s) (playerY s) (bullets s) (aliens s) (running s)
    (score s) (lives s) (level s) (previousLevel s) (wave s) (waveKills s)
    (waveEnemiesSpawned s) (waveStartTime s) (status s) (difficultyMode s)
    (activePowerUps s) (scoreMultiplier s) (combo s) (maxCombo s) (comboTimer
    s) (comboTier s) (difficultyBracket s) (bossActive s) (bossHP s)
    (bossMaxHP s) (totalKills s) (missedAliens s) (escapeStreak s)
    (victoryType s) v (lastShotTime s) (missesInWindow s) (missWindowStart s)
    (showWaveNotification s) (waveNotificationData s) (shotsFired s) (shotsHit
    s) (gameStartTime s) (powerUpsCollected s) (wavesCompleted s).

Definition set_lastShotTime (v : Z) (s : GameState) : GameState :=
  Build_GameState (playerX s) (playerY s) (bullets s) (aliens s) (running s)
    (score s) (lives s) (level s) (previousLevel s) (wave s) (waveKills s)
    (waveEnemiesSpawned s) (waveStartTime s) (status s) (difficultyMode s)
    (activePowerUps s) (scoreMultiplier s) (combo s) (maxCombo s) (comboTimer
    s) (comboTier s) (difficultyBracket s) (bossActive s) (bossHP s)
    (bossMaxHP s) (totalKills s) (missedAliens s) (escapeStreak s)
    (victoryType s) (victoryTitle s) v (missesInWindow s) (missWindowStart s)
    (showWaveNotification s) (waveNotificationData s) (shotsFired s) (shotsHit
    s) (gameStartTime s) (powerUpsCollected s) (wavesCompleted s).

Definition set_missesInWindow (v : Z) (s : GameState) : GameState :=
  Build_GameState (playerX s) (playerY s) (bullets s) (aliens s) (running s)
    (score s) (lives s) (level s) (previousLevel s) (wave s) (waveKills s)
    (waveEnemiesSpawned s) (waveStartTime s) (status s) (difficultyMode s)
    (activePowerUps s) (scoreMultiplier s) (combo s) (maxCombo s) (comboTimer
    s) (comboTier s) (difficultyBracket s) (bossActive s) (bossHP s)
    (bossMaxHP s) (totalKills s) (missedAliens s) (escapeStreak s)
    (victoryType s) (victoryTitle s) (lastShotTime s) v (missWindowStart s)
    (showWaveNotification s) (waveNotificationData s) (shotsFired s) (shotsHit
    s) (gameStartTime s) (powerUpsCollected s) (wavesCompleted s).

Definition set_missWindowStart (v : Z) (s : GameState) : GameState :=
  Build_GameState (playerX s) (playerY s) (bullets s) (aliens s) (running s)
    (score s) (lives s) (level s) (previousLevel s) (wave s) (waveKills s)
    (waveEnemiesSpawned s) (waveStartTime s) (status s) (difficultyMode s)
    (activePowerUps s) (scoreMultiplier s) (combo s) (maxCombo s) (comboTimer
    s) (comboTier s) (difficultyBracket s) (bossActive s) (bossHP s)
    (bossMaxHP s) (totalKills s) (missedAliens s) (escapeStreak s)
    (victoryType s) (victoryTitle s) (lastShotTime s) (missesInWindow s) v
    (showWaveNotification s) (waveNotificationData s) (shotsFired s) (shotsHit
    s) (gameStartTime s) (powerUpsCollected s) (wavesCompleted s).

Definition set_showWaveNotification (v : bool) (s : GameState) : GameState :=
  Build_GameState (playerX s) (playerY s) (bullets s) (aliens s) (running s)
    (score s) (lives s) (level s) (previousLevel s) (wave s) (waveKills s)
    (waveEnemiesSpawned s) (waveStartTime s) (status s) (difficultyMode s)
    (activePowerUps s) (scoreMultiplier s) (combo s) (maxCombo s) (comboTimer
    s) (comboTier s) (difficultyBracket s) (bossActive s) (bossHP s)
    (bossMaxHP s) (totalKills s) (missedAliens s) (escapeStreak s)
    (victoryType s) (victoryTitle s) (lastShotTime s) (missesInWindow s)
    (missWindowStart s) v (waveNotificationData s) (shotsFired s) (shotsHit s)
    (gameStartTime s) (powerUpsCollected s) (wavesCompleted s).

Definition set_waveNotificationData (v : option WaveNotification) (s : GameState) : GameState :=
  Build_GameState (playerX s) (playerY s) (bullets s) (aliens s) (running s)
    (score s) (lives s) (level s) (previousLevel s) (wave s) (waveKills s)
    (waveEnemiesSpawned s) (waveStartTime s) (status s) (difficultyMode s)
    (activePowerUps s) (scoreMultiplier s) (combo s) (maxCombo s) (comboTimer
    s) (comboTier s) (difficultyBracket s) (bossActive s) (bossHP s)
    (bossMaxHP s) (totalKills s) (missedAliens s) (escapeStreak s)
    (victoryType s) (victoryTitle s) (lastShotTime s) (missesInWindow s)
    (missWindowStart s) (showWaveNotification s) v (shotsFired s) (shotsHit s)
    (gameStartTime s) (powerUpsCollected s) (wavesCompleted s).

Definition set_shotsFired (v : Z) (s : GameState) : GameState :=
  Build_GameState (playerX s) (playerY s) (bullets s) (aliens s) (running s)
    (score s) (lives s) (level s) (previousLevel s) (wave s) (waveKills s)
    (waveEnemiesSpawned s) (waveStartTime s) (status s) (difficultyMode s)
    (activePowerUps s) (scoreMultiplier s) (combo s) (maxCombo s) (comboTimer
    s) (comboTier s) (difficultyBracket s) (bossActive s) (bossHP s)
    (bossMaxHP s) (totalKills s) (missedAliens s) (escapeStreak s)
    (victoryType s) (victoryTitle s) (lastShotTime s) (missesInWindow s)
    (missWindowStart s) (showWaveNotification s) (waveNotificationData s) v
    (shotsHit s) (gameStartTime s) (powerUpsCollected s) (wavesCompleted s).

Definition set_shotsHit (v : Z) (s : GameState) : GameState :=
  Build_GameState (playerX s) (playerY s) (bullets s) (aliens s) (running s)
    (score s) (lives s) (level s) (previousLevel s) (wave s) (waveKills s)
    (waveEnemiesSpawned s) (waveStartTime s) (status s) (difficultyMode s)
    (activePowerUps s) (scoreMultiplier s) (combo s) (maxCombo s) (comboTimer
    s) (comboTier s) (difficultyBracket s) (bossActive s) (bossHP s)
    (bossMaxHP s) (totalKills s) (missedAliens s) (escapeStreak s)
    (victoryType s) (victoryTitle s) (lastShotTime s) (missesInWindow s)
    (missWindowStart s) (showWaveNotification s) (waveNotificationData s)
    (shotsFired s) v (gameStartTime s) (powerUpsCollected s) (wavesCompleted
    s).

Definition set_gameStartTime (v : Z) (s : GameState) : GameState :=
  Build_GameState (playerX s) (playerY s) (bullets s) (aliens s) (running s)
    (score s) (lives s) (level s) (previousLevel s) (wave s) (waveKills s)
    (waveEnemiesSpawned s) (waveStartTime s) (status s) (difficultyMode s)
    (activePowerUps s) (scoreMultiplier s) (combo s) (maxCombo s) (comboTimer
    s) (comboTier s) (difficultyBracket s) (bossActive s) (bossHP s)
    (bossMaxHP s) (totalKills s) (missedAliens s) (escapeStreak s)
    (victoryType s) (victoryTitle s) (lastShotTime s) (missesInWindow s)
    (missWindowStart s) (showWaveNotification s) (waveNotificationData s)
    (shotsFired s) (shotsHit s) v (powerUpsCollected s) (wavesCompleted s).

Definition set_powerUpsCollected (v : Z) (s : GameState) : GameState :=
  Build_GameState (playerX s) (playerY s) (bullets s) (aliens s) (running s)
    (score s) (lives s) (level s) (previousLevel s) (wave s) (waveKills s)
    (waveEnemiesSpawned s) (waveStartTime s) (status s) (difficultyMode s)
    (activePowerUps s) (scoreMultiplier s) (combo s) (maxCombo s) (comboTimer
    s) (comboTier s) (difficultyBracket s) (bossActive s) (bossHP s)
    (bossMaxHP s) (totalKills s) (missedAliens s) (escapeStreak s)
    (victoryType s) (victoryTitle s) (lastShotTime s) (missesInWindow s)
    (missWindowStart s) (showWaveNotification s) (waveNotificationData s)
    (shotsFired s) (shotsHit s) (gameStartTime s) v (wavesCompleted s).

Definition set_wavesCompleted (v : Z) (s : GameState) : GameState :=
  Build_GameState (playerX s) (playerY s) (bullets s) (aliens s) (running s)
    (score s) (lives s) (level s) (previousLevel s) (wave s) (waveKills s)
    (waveEnemiesSpawned s) (waveStartTime s) (status s) (difficultyMode s)
    (activePowerUps s) (scoreMultiplier s) (combo s) (maxCombo s) (comboTimer
    s) (comboTier s) (difficultyBracket s) (bossActive s) (bossHP s)
    (bossMaxHP s) (totalKills s) (missedAliens s) (escapeStreak s)
    (victoryType s) (victoryTitle s) (lastShotTime s) (missesInWindow s)
    (missWindowStart s) (showWaveNotification s) (waveNotificationData s)
    (shotsFired s) (shotsHit s) (gameStartTime s) (powerUpsCollected s) v.

(** Module state: the counter of [generateId] next to the slice state. *)
Record World := {
  idCounter : nat;
  game : GameState
}.

(** What one reducer call reads from outside: the successive results of
    [Date.now()] and of [Math.random()], numbered from 0 in call order. *)
Record Env := {
  clock : nat -> Z;
  random : nat -> float
}.

Definition initialState (load : nat -> Z) : GameState :=
  {| playerX := 0; playerY := (-2.5)%float;
     bullets := []; aliens := [];
     running := true;
     score := 0; lives := 3; level := 1; previousLevel := 1;
     wave := 1; waveKills := 0; waveEnemiesSpawned := 0; waveStartTime := 0;
     status := Idle; difficultyMode := Normal;
     activePowerUps := []; scoreMultiplier := 1;
     combo := 0; maxCombo := 0; comboTimer := 0; comboTier := "";
     difficultyBracket := training;
     bossActive := false; bossHP := 0; bossMaxHP := 0;
     totalKills := 0; missedAliens := 0; escapeStreak := 0;
     victoryType := None; victoryTitle := "";
     lastShotTime := load 0%nat;
     missesInWindow := 0;
     missWindowStart := load 1%nat;
     showWaveNotification := false; waveNotificationData := None;
     shotsFired := 0; shotsHit := 0;
     gameStartTime := load 2%nat;
     powerUpsCollected := 0; wavesCompleted := 0 |}.

Definition rewardPoints (t : AlienType) : Z :=
  match t with
  | Red => 100 | Green => 150 | Blue => 200
  | Yellow => 250 | Purple => 300 | Cyan => 350
  end.

Definition rewardPowerUp (t : AlienType) : PowerUp :=
  match t with
  | Red => FireRate | Green => Shield | Blue => SlowMotion
  | Yellow => ScoreMultiplier | Purple => DoubleBullets | Cyan => SpreadShot
  end.

(** [alienRewards[type]] as the pair [(points, powerUp)]. *)
Definition alienRewards (t : AlienType) : Z * PowerUp :=
  (rewardPoints t, rewardPowerUp t).

Definition PowerUp_eqb (p q : PowerUp) : bool :=
  match p, q with
  | FireRate, FireRate | DoubleBullets, DoubleBullets
  | SpreadShot, SpreadShot | ScoreMultiplier, ScoreMultiplier
  | Shield, Shield | SlowMotion, SlowMotion => true
  | _, _ => false
  end.

Definition clamp (v min max : float) : float :=
  if (v <? min)%float then min else if (max <? v)%float then max else v.

Definition generateId (n : nat) : nat * string :=
  (S n, "e" ++ NilZero.string_of_uint (Nat.to_uint (S n))).

Definition HIT_RADIUS_NORMAL : float := 0.0625.
Definition HIT_RADIUS_BOSS : float := 0.16.
Definition BULLET_LIMIT : nat := 100.
Definition ALIEN_LIMIT : nat := 80.

(** JavaScript truthiness of a number: neither zero nor NaN. *)
Definition truthy (x : float) : bool :=
  negb (x =? 0)%float && (x =? x)%float.

Definition hasPowerUp (t : PowerUp) (l : list ActivePowerUp) : bool :=
  existsb (fun p => PowerUp_eqb (p_type p) t) l.

Definition idIn (id : string) (ids : list string) : bool :=
  existsb (String.eqb id) ids.

(* ================================================================== *)
(** * game.ts: the reducers                                            *)
(* ================================================================== *)

Definition move (dx dy sensitivity : option float) (s : GameState) : GameState :=
  let dx := match dx with Some v => v | None => 0%float end in
  let dy := match dy with Some v => v | None => 0%float end in
  let sensitivity := match sensitivity with Some v => v | None => 1%float end in
  let s := set_playerX (clamp (playerX s + dx * sensitivity) (-3) 3)%float s in
  set_playerY (clamp (playerY s + dy * sensitivity) (-3) 3)%float s.

(** [arr.slice(-k)]: the last [k] elements. *)
Definition sliceLast {A} (k : nat) (l : list A) : list A :=
  skipn (List.length l - k) l.

Definition mkBullet (id : string) (x y vx vy : float) : Bullet :=
  {| b_id := id; b_x := x; b_y := y; b_vx := vx; b_vy := vy |}.

Definition fire (e : Env) (w : World) : World :=
  let s := game w in
  let s := set_lastShotTime (clock e 0%nat) s in
  let s :=
    if (BULLET_LIMIT <=? List.length (bullets s))%nat
    then set_bullets (sliceLast (BULLET_LIMIT - 3) (bullets s)) s
    else s in
  let '(n, id) := generateId (idCounter w) in
  let hasSpreadShot := hasPowerUp SpreadShot (activePowerUps s) in
  let hasDoubleBullets := hasPowerUp DoubleBullets (activePowerUps s) in
  let px := playerX s in
  let py := playerY s in
  let y0 := (py + 0.5)%float in
  let vy0 := 0.15%float in
  let s :=
    if hasSpreadShot then
      let s := set_bullets
        (bullets s ++
           [ mkBullet (id ++ "-left") (px - 0.2)%float y0 (-0.05)%float vy0;
             mkBullet (id ++ "-center") px y0 0%float vy0;
             mkBullet (id ++ "-right") (px + 0.2)%float y0 0.05%float vy0 ])%list
        s in
      set_shotsFired (shotsFired s + 3) s
    else if hasDoubleBullets then
      let s := set_bullets
        (bullets s ++
           [ mkBullet (id ++ "-left") (px - 0.1)%float y0 0%float vy0;
             mkBullet (id ++ "-right") (px + 0.1)%float y0 0%float vy0 ])%list
        s in
      set_shotsFired (shotsFired s + 2) s
    else
      let s := set_bullets (bullets s ++ [ mkBullet id px y0 0%float vy0 ])%list s in
      set_shotsFired (shotsFired s + 1) s in
  {| idCounter := n; game := s |}.

Record SpawnAlienPayload := {
  sp_x : float;
  sp_y : float;
  sp_type : AlienType;
  sp_hp : Z;
  sp_isBoss : option bool;
  sp_vx : option float
}.

Definition spawnAlien (p : SpawnAlienPayload) (w : World) : World :=
  let s := game w in
  if (ALIEN_LIMIT <=? List.length (aliens s))%nat
     && negb (match sp_isBoss p with Some b => b | None => false end)
  then w
  else
    let isBoss := match sp_isBoss p with Some b => b | None => false end in
    let vx := match sp_vx p with Some v => v | None => 0%float end in
    let '(n, id) := generateId (idCounter w) in
    let s := set_aliens
      (aliens s ++
         [ {| a_id := id; a_x := sp_x p; a_y := sp_y p; a_type := sp_type p;
              a_hp := sp_hp p; a_maxHp := sp_hp p; a_isBoss := isBoss;
              a_vx := vx |} ])%list s in
    let s := if isBoss then set_bossActive true s else s in
    {| idCounter := n; game := s |}.

(** ** tick *)

Definition IDLE_TIMEOUT : Z := 15000.
Definition MISS_WINDOW : Z := 10000.
Definition MISS_THRESHOLD : Z := 3.
Definition CANNON_HIT_RADIUS : float := 0.5.
Definition CANNON_HIT_RADIUS_SQ : float := CANNON_HIT_RADIUS * CANNON_HIT_RADIUS.

(** Level, bracket and combo tier recomputed from the score. *)
Definition levelPhase (s : GameState) : GameState :=
  let s := set_previousLevel (level s) s in
  let s := set_level (calculateLevelFromScore (score s)) s in
  set_difficultyBracket (getDifficultyBracket (level s)) s.

(** Soft loss, idle detection.  [softIdle] switches the branch: the reducer
    runs with the switch on; the switched-off variant is the reference run
    "without the penalty" that frame statements compare against. *)
Definition idlePhase (softIdle : bool) (currentTime : Z) (s : GameState)
  : GameState :=
  if softIdle && (0 <? combo s) && (IDLE_TIMEOUT <=? currentTime - lastShotTime s)
  then set_comboTimer 0 (set_combo 0 s)
  else s.

Definition missWindowPhase (currentTime : Z) (s : GameState) : GameState :=
  if MISS_WINDOW <=? currentTime - missWindowStart s
  then set_missWindowStart currentTime (set_missesInWindow 0 s)
  else s.

(** Combo decay, level 50 and above. *)
Definition decayPhase (pressure : ScorePressure) (s : GameState) : GameState :=
  if (0 <? combo s) && (0 <? comboDecay pressure)%float then
    let s := set_comboTimer (comboTimer s - 16) s in
    if comboTimer s <=? 0
    then set_comboTimer 2000 (set_combo (Z.max 0 (combo s - 1)) s)
    else s
  else s.

(** The backwards [splice] loop removes every expired entry. *)
Definition expirePowerUps (currentTime : Z) (l : list ActivePowerUp)
  : list ActivePowerUp :=
  filter (fun p => negb (expiresAt p <=? currentTime)) l.

Definition moveBullet (b : Bullet) : Bullet :=
  {| b_id := b_id b; b_x := (b_x b + b_vx b)%float; b_y := (b_y b + b_vy b)%float;
     b_vx := b_vx b; b_vy := b_vy b |}.

(** Bullets advance and the ones at [y >= 4.5] are compacted away. *)
Definition updateBullets (l : list Bullet) : list Bullet :=
  filter (fun b => (b_y b <? 4.5)%float) (map moveBullet l).

Definition set_a_x (v : float) (a : Alien) : Alien :=
  {| a_id := a_id a; a_x := v; a_y := a_y a; a_type := a_type a;
     a_hp := a_hp a; a_maxHp := a_maxHp a; a_isBoss := a_isBoss a;
     a_vx := a_vx a |}.

Definition set_a_y (v : float) (a : Alien) : Alien :=
  {| a_id := a_id a; a_x := a_x a; a_y := v; a_type := a_type a;
     a_hp := a_hp a; a_maxHp := a_maxHp a; a_isBoss := a_isBoss a;
     a_vx := a_vx a |}.

Definition set_a_vx (v : float) (a : Alien) : Alien :=
  {| a_id := a_id a; a_x := a_x a; a_y := a_y a; a_type := a_type a;
     a_hp := a_hp a; a_maxHp := a_maxHp a; a_isBoss := a_isBoss a;
     a_vx := v |}.

Definition set_a_hp (v : Z) (a : Alien) : Alien :=
  {| a_id := a_id a; a_x := a_x a; a_y := a_y a; a_type := a_type a;
     a_hp := v; a_maxHp := a_maxHp a; a_isBoss := a_isBoss a;
     a_vx := a_vx a |}.

Definition moveAlien (alienSpeed : float) (a : Alien) : Alien :=
  let a :=
    if truthy (a_vx a) then
      let a := set_a_x (a_x a + a_vx a)%float a in
      if (3.5 <? PrimFloat.abs (a_x a))%float then
        let a := set_a_vx (- a_vx a)%float a in
        set_a_x (a_x a + a_vx a)%float a
      else a
    else a in
  set_a_y (a_y a - alienSpeed)%float a.

(** *** Bullet against alien *)

(** The test of the inner loop: [true] when the bullet hits the alien. *)
Definition bulletHits (b : Bullet) (a : Alien) : bool :=
  let dy := (a_y a - b_y b)%float in
  if (0.5 <? dy)%float || (dy <? -0.5)%float then false
  else
    let dx := (a_x a - b_x b)%float in
    let distSq := (dx * dx + dy * dy)%float in
    let hitRadiusSq := if a_isBoss a then HIT_RADIUS_BOSS else HIT_RADIUS_NORMAL in
    (distSq <? hitRadiusSq)%float.

(** [state.aliens[findIndex(id)].hp -= 1]: the first alien carrying the id
    loses one hit point; the second component is that alien after the
    decrement ([None] when [findIndex] returns -1). *)
Fixpoint damageAlien (id : string) (l : list Alien) : list Alien * option Alien :=
  match l with
  | [] => ([], None)
  | a :: rest =>
      if String.eqb (a_id a) id then
        let a' := set_a_hp (a_hp a - 1) a in
        (a' :: rest, Some a')
      else
        let '(rest', d) := damageAlien id rest in
        (a :: rest', d)
  end.

(** State of the collision loops.  [destroyedAliens] holds references to
    alien objects in the source; the kill loop reads only their [type] and
    [isBoss], which nothing writes, so the copies taken here carry the same
    information. *)
Record Collisions := {
  c_aliens : list Alien;
  destroyedAliens : list Alien;
  bulletsToRemove : list string;
  c_shotsHit : Z
}.

(** One iteration of the outer loop, for bullet [b]. *)
Definition collideBullet (c : Collisions) (b : Bullet) : Collisions :=
  if idIn (b_id b) (bulletsToRemove c) then c
  else if (b_y b <? -4)%float || (5 <? b_y b)%float then c
  else
    match find (bulletHits b) (c_aliens c) with
    | None => c
    | Some a =>
        let '(aliens', hit) := damageAlien (a_id a) (c_aliens c) in
        {| c_aliens := aliens';
           destroyedAliens :=
             match hit with
             | Some a' =>
                 if a_hp a' <=? 0 then destroyedAliens c ++ [a']
                 else destroyedAliens c
             | None => destroyedAliens c
             end;
           bulletsToRemove := bulletsToRemove c ++ [b_id b];
           c_shotsHit := c_shotsHit c + 1 |}
    end.

Definition collide (bs : list Bullet) (als : list Alien) (hits : Z) : Collisions :=
  fold_left collideBullet bs
    {| c_aliens := als; destroyedAliens := []; bulletsToRemove := [];
       c_shotsHit := hits |}.

(** *** Kills and rewards *)

(** [activePowerUps]: refresh the entry of that type, or append one. *)
Fixpoint refreshPowerUp (t : PowerUp) (expires : Z) (l : list ActivePowerUp)
  : list ActivePowerUp :=
  match l with
  | [] => [ {| p_type := t; expiresAt := expires |} ]
  | p :: rest =>
      if PowerUp_eqb (p_type p) t
      then {| p_type := p_type p; expiresAt := expires |} :: rest
      else p :: refreshPowerUp t expires rest
  end.

Definition comboUp (s : GameState) : GameState :=
  let s := set_combo (combo s + 1) s in
  let s := set_maxCombo (Z.max (maxCombo s) (combo s)) s in
  let s := set_comboTimer 2000 s in
  let s := set_totalKills (totalKills s + 1) s in
  let s := set_waveKills (waveKills s + 1) s in
  set_escapeStreak 0 s.

Definition perfectBonus (s : GameState) : GameState :=
  if combo s =? 50 then set_score (score s + PERFECT_COMBO_BONUS) s else s.

Definition killScore (s : GameState) (alien : Alien) : Z :=
  let bossMultiplier := if a_isBoss alien then 5 else 1 in
  rewardPoints (a_type alien) * scoreMultiplier s * bossMultiplier.

Definition dropPowerUp (currentTime : Z) (alien : Alien) (s : GameState)
  : GameState :=
  let powerUpDuration := getPowerUpDuration (level s) in
  let expires := currentTime + powerUpDuration in
  match rewardPowerUp (a_type alien) with
  | Shield =>
      let s := set_lives (Z.min 3 (lives s + 1)) s in
      set_powerUpsCollected (powerUpsCollected s + 1) s
  | pu =>
      let s := set_activePowerUps
                 (refreshPowerUp pu expires (activePowerUps s)) s in
      set_powerUpsCollected (powerUpsCollected s + 1) s
  end.

Definition bossDefeated (s : GameState) : GameState :=
  let s := set_bossActive false s in
  if 100 <=? level s then
    set_victoryTitle "COSMIC SAVIOR"
      (set_victoryType (Some Ultimate) (set_status Victory s))
  else if 50 <=? level s then
    set_victoryTitle "ELITE SECTOR"
      (set_victoryType (Some Major) (set_status Victory s))
  else if 10 <=? level s then
    set_victoryTitle "SECTOR CLEARED"
      (set_victoryType (Some Minor) (set_status Victory s))
  else s.

(** One iteration of [for (const alien of destroyedAliens)]: the combo and
    score part ([creditKill]), then the drop and the boss part.  The second
    component counts the [Math.random()] calls made so far in this tick: a
    boss kill short-circuits the call away. *)
Definition creditKill (s : GameState) (alien : Alien) : GameState :=
  let s := comboUp s in
  let s := perfectBonus s in
  set_score (score s + killScore s alien) s.

Definition processKill (e : Env) (currentTime : Z)
           (acc : GameState * nat) (alien : Alien) : GameState * nat :=
  let '(s, k) := acc in
  let s := creditKill s alien in
  let dropChance := getPowerUpDropChance (level s) in
  let '(shouldDrop, k) :=
    if a_isBoss alien then (true, k)
    else ((random e k <? dropChance)%float, S k) in
  let s := if shouldDrop then dropPowerUp currentTime alien s else s in
  let s := if a_isBoss alien then bossDefeated s else s in
  (s, k).

Definition processKills (e : Env) (currentTime : Z) (destroyed : list Alien)
           (s : GameState) : GameState :=
  fst (fold_left (processKill e currentTime) destroyed (s, 0%nat)).

(** *** Cannon against alien *)

Definition cannonHits (s : GameState) (a : Alien) : bool :=
  let dx := (a_x a - playerX s)%float in
  let dy := (a_y a - playerY s)%float in
  let distSq := (dx * dx + dy * dy)%float in
  (distSq <? CANNON_HIT_RADIUS_SQ)%float.

Definition removeById (id : string) (l : list Alien) : list Alien :=
  filter (fun alien => negb (String.eqb (a_id alien) id)) l.

(** The loop stops at the first alien inside the cannon's radius. *)
Definition cannonPhase (s : GameState) : GameState :=
  match find (cannonHits s) (aliens s) with
  | None => s
  | Some a =>
      let s := set_lives (lives s - 1) s in
      let s := set_combo 0 s in
      let s := set_aliens (removeById (a_id a) (aliens s)) s in
      if lives s <=? 0 then set_status GameOver (set_lives 0 s) else s
  end.

(** *** Aliens reaching the bottom *)

(** The third miss of the current window ([softMiss] switches the branch,
    as [softIdle] does for the idle penalty). *)
Definition missPenalty (softMiss : bool) (currentTime : Z) (s : GameState)
  : GameState :=
  if softMiss && (MISS_THRESHOLD <=? missesInWindow s) then
    let s := set_combo 0 s in
    let s := set_comboTimer 0 s in
    let s := set_missesInWindow 0 s in
    set_missWindowStart currentTime s
  else s.

(** One iteration of the last loop.  The loop walks the array that
    [state.aliens] held when it started, while the body replaces
    [state.aliens] by filtered copies. *)
Definition escapeStep (softMiss : bool) (currentTime : Z)
           (pressure : ScorePressure) (s : GameState) (a : Alien) : GameState :=
  if (a_y a <? -3)%float then
    let s := set_lives (Z.max 0 (lives s - 1)) s in
    let s := set_missedAliens (missedAliens s + 1) s in
    let s := set_escapeStreak (escapeStreak s + 1) s in
    let s := set_missesInWindow (missesInWindow s + 1) s in
    let s := missPenalty softMiss currentTime s in
    let s := if a_isBoss a then set_lives 0 (set_status GameOver s) else s in
    let s := if 5 <=? escapeStreak s
             then set_lives 0 (set_status GameOver s) else s in
    let s := if 0 <? missedPenalty pressure
             then set_score (Z.max 0 (score s - missedPenalty pressure)) s
             else s in
    let s := set_aliens (removeById (a_id a) (aliens s)) s in
    if lives s =? 0 then set_status GameOver s else s
  else s.

Definition escapePhase (softMiss : bool) (currentTime : Z)
           (pressure : ScorePressure) (s : GameState) : GameState :=
  fold_left (escapeStep softMiss currentTime pressure) (aliens s) s.

(** *** The whole frame *)

(** Expired power-ups go, and the score multiplier of the frame is fixed
    from the combo tier computed at the top of the tick. *)
Definition powerUpPhase (comboInfo : ComboInfo) (currentTime : Z)
           (s : GameState) : GameState :=
  let s := set_activePowerUps (expirePowerUps currentTime (activePowerUps s)) s in
  let hasScoreMultiplier := hasPowerUp ScoreMultiplier (activePowerUps s) in
  let powerUpMultiplier := if hasScoreMultiplier then 2 else 1 in
  set_scoreMultiplier (multiplier comboInfo * powerUpMultiplier) s.

(** Bullets and aliens move. *)
Definition movePhase (s : GameState) : GameState :=
  let hasSlowMotion := hasPowerUp SlowMotion (activePowerUps s) in
  let alienSpeed := getAlienSpeed (level s) (wave s) hasSlowMotion in
  let s := set_bullets (updateBullets (bullets s)) s in
  set_aliens (map (moveAlien alienSpeed) (aliens s)) s.

(** Everything up to and including the movement of bullets and aliens. *)
Definition advancePhase (softIdle : bool) (currentTime : Z) (s : GameState)
  : GameState :=
  let s := levelPhase s in
  let comboInfo := getComboMultiplier (combo s) in
  let s := set_comboTier (tier comboInfo) s in
  let s := idlePhase softIdle currentTime s in
  let s := missWindowPhase currentTime s in
  let pressure := getScorePressure (level s) in
  let s := decayPhase pressure s in
  let s := powerUpPhase comboInfo currentTime s in
  movePhase s.

(** The collision loops on the moved entities. *)
Definition collisionsOf (s : GameState) : Collisions :=
  collide (bullets s) (aliens s) (shotsHit s).

(** Collisions, kills and the removal of dead aliens and spent bullets. *)
Definition combatPhase (e : Env) (currentTime : Z) (s : GameState) : GameState :=
  let c := collisionsOf s in
  let s := set_shotsHit (c_shotsHit c) (set_aliens (c_aliens c) s) in
  let s := processKills e currentTime (destroyedAliens c) s in
  let s := set_aliens (filter (fun a => 0 <? a_hp a) (aliens s)) s in
  set_bullets
    (filter (fun b => negb (idIn (b_id b) (bulletsToRemove c))) (bullets s)) s.

Definition tickWith (softIdle softMiss : bool) (e : Env) (s : GameState)
  : GameState :=
  let currentTime := clock e 0%nat in
  let s := advancePhase softIdle currentTime s in
  let pressure := getScorePressure (level s) in
  let s := combatPhase e currentTime s in
  let s := cannonPhase s in
  escapePhase softMiss currentTime pressure s.

Definition tick (e : Env) (s : GameState) : GameState := tickWith true true e s.

(** ** The remaining reducers *)

Definition reset (load : nat -> Z) (e : Env) (s : GameState) : GameState :=
  let s := initialState load in
  let s := set_waveStartTime (clock e 0%nat) s in
  let s := set_lastShotTime (clock e 1%nat) s in
  let s := set_missWindowStart (clock e 2%nat) s in
  set_gameStartTime (clock e 3%nat) s.

Definition setGameStatus (p : GamePhase) (s : GameState) : GameState :=
  set_status p s.

Definition setDifficultyMode (m : DifficultyMode) (s : GameState) : GameState :=
  set_difficultyMode m s.

(** The reducer [showWaveNotification]; the state field keeps the name. *)
Definition showWaveNotificationAction (n : WaveNotification) (s : GameState)
  : GameState :=
  set_waveNotificationData (Some n) (set_showWaveNotification true s).

Definition hideWaveNotification (s : GameState) : GameState :=
  set_waveNotificationData None (set_showWaveNotification false s).

Definition continueAfterVictory (s : GameState) : GameState :=
  set_victoryTitle "" (set_victoryType None (set_status Playing s)).

Definition nextWave (e : Env) (s : GameState) : GameState :=
  let currentWave := wave s in
  let s := set_score (score s + getWaveClearBonus currentWave (level s)) s in
  let s := set_wavesCompleted (wavesCompleted s + 1) s in
  let s :=
    if 5 <=? currentWave then
      if isBossLevel (level s) then
        let s := set_status Boss s in
        let s := set_showWaveNotification true s in
        set_waveNotificationData
          (Some {| n_wave := 5; n_level := level s;
                   n_bossName := Some "BOSS INCOMING" |}) s
      else
        let s := set_wave 1 s in
        let s := set_showWaveNotification true s in
        set_waveNotificationData
          (Some {| n_wave := 1; n_level := level s + 1; n_bossName := None |}) s
    else
      let s := set_wave (currentWave + 1) s in
      let s := set_showWaveNotification true s in
      set_waveNotificationData
        (Some {| n_wave := wave s; n_level := level s; n_bossName := None |}) s in
  let s := set_waveKills 0 s in
  let s := set_waveEnemiesSpawned 0 s in
  set_waveStartTime (clock e 0%nat) s.

Definition startWave (e : Env) (s : GameState) : GameState :=
  set_waveStartTime (clock e 0%nat) (set_status Playing s).

Definition startBoss (s : GameState) : GameState :=
  set_aliens [] (set_status Boss s).

Definition incrementWaveSpawns (s : GameState) : GameState :=
  set_waveEnemiesSpawned (waveEnemiesSpawned s + 1) s.

Definition incrementScore (n : Z) (s : GameState) : GameState :=
  set_score (score s + n) s.

Definition spawnBoss (hp : Z) (type : AlienType) (w : World) : World :=
  let '(n, id0) := generateId (idCounter w) in
  let id := "boss-" ++ id0 in
  let s := game w in
  let s := set_aliens
    (aliens s ++
       [ {| a_id := id; a_x := 0; a_y := 4.5; a_type := type;
            a_hp := hp; a_maxHp := hp; a_isBoss := true;
            a_vx := 0.02 |} ])%list s in
  let s := set_bossActive true s in
  let s := set_bossHP hp s in
  let s := set_bossMaxHP hp s in
  let s := set_status Boss s in
  {| idCounter := n; game := s |}.

Definition updateBossHP (hp : Z) (s : GameState) : GameState :=
  let s := set_bossHP hp s in
  if bossHP s <=? 0 then set_bossActive false s else s.

Definition setVictory (s : GameState) : GameState := set_status Victory s.

(** ** Actions and runs *)

(** One constructor per exported action creator, with its payload. *)
Inductive Action :=
| Move (dx dy sensitivity : option float)
| Fire
| SpawnAlien (p : SpawnAlienPayload)
| Tick
| Reset
| SetGameStatus (p : GamePhase)
| SetDifficultyMode (m : DifficultyMode)
| ShowWaveNotification (n : WaveNotification)
| HideWaveNotification
| ContinueAfterVictory
| NextWave
| StartWave
| StartBoss
| IncrementWaveSpawns
| IncrementScore (n : Z)
| SpawnBoss (hp : Z) (type : AlienType)
| UpdateBossHP (hp : Z)
| SetVictory.

Definition onGame (f : GameState -> GameState) (w : World) : World :=
  {| idCounter := idCounter w; game := f (game w) |}.

Definition reducer (load : nat -> Z) (e : Env) (a : Action) (w : World) : World :=
  match a with
  | Move dx dy sens => onGame (move dx dy sens) w
  | Fire => fire e w
  | SpawnAlien p => spawnAlien p w
  | Tick => onGame (tick e) w
  | Reset => onGame (reset load e) w
  | SetGameStatus p => onGame (setGameStatus p) w
  | SetDifficultyMode m => onGame (setDifficultyMode m) w
  | ShowWaveNotification n => onGame (showWaveNotificationAction n) w
  | HideWaveNotification => onGame hideWaveNotification w
  | ContinueAfterVictory => onGame continueAfterVictory w
  | NextWave => onGame (nextWave e) w
  | StartWave => onGame (startWave e) w
  | StartBoss => onGame startBoss w
  | IncrementWaveSpawns => onGame incrementWaveSpawns w
  | IncrementScore n => onGame (incrementScore n) w
  | SpawnBoss hp type => spawnBoss hp type w
  | UpdateBossHP hp => onGame (updateBossHP hp) w
  | SetVictory => onGame setVictory w
  end.

Definition initialWorld (load : nat -> Z) : World :=
  {| idCounter := 0; game := initialState load |}.

(** A run: the actions dispatched in order, each with what it reads from the
    clock and the random generator. *)
Fixpoint run (load : nat -> Z) (trace : list (Env * Action)) (w : World) : World :=
  match trace with
  | [] => w
  | (e, a) :: rest => run load rest (reducer load e a w)
  end.

Definition reachable (load : nat -> Z) (w : World) : Prop :=
  exists trace, w = run load trace (initialWorld load).

(* ================================================================== *)
(** * Definitions used by the statements and proofs                    *)
(* ================================================================== *)

(** The scan against a precomputed list of thresholds. *)
Fixpoint thresholdsFrom (n : nat) (level : Z) : list Z :=
  match n with
  | O => []
  | S n' => getRequiredScoreForLevel level :: thresholdsFrom n' (level + 1)
  end.

Fixpoint scanList (ths : list Z) (level score : Z) : Z :=
  match ths with
  | [] => 100
  | t :: rest =>
      if score <? t then Z.max 1 (level - 1) else scanList rest (level + 1) score
  end.

Definition levelsUpTo100 : list Z := map Z.of_nat (seq 1 100).

Definition comboInv (s : GameState) : Prop :=
  combo s <= maxCombo s /\ 0 <= maxCombo s.


(** ** Concrete environments and payloads for the worked examples *)

Definition load0 : nat -> Z := fun _ => 0.

(** Every clock read returns [t], every random draw returns [r]. *)
Definition envAt (t : Z) (r : float) : Env :=
  {| clock := fun _ => t; random := fun _ => r |}.

Definition plainAlien (x y : float) (t : AlienType) (hp : Z) : SpawnAlienPayload :=
  {| sp_x := x; sp_y := y; sp_type := t; sp_hp := hp;
     sp_isBoss := None; sp_vx := None |}.

Definition bossAlien (x y : float) (t : AlienType) (hp : Z) : SpawnAlienPayload :=
  {| sp_x := x; sp_y := y; sp_type := t; sp_hp := hp;
     sp_isBoss := Some true; sp_vx := None |}.

Definition isBossSpawn (a : Action) : bool :=
  match a with
  | SpawnBoss _ _ => true
  | SpawnAlien p => match sp_isBoss p with Some b => b | None => false end
  | _ => false
  end.


(** A cyan kill grants the spread shot; 33 spread volleys put 99 bullets on
    screen, below the limit, and the 34th adds three more. *)
Definition spreadVolleyTrace : list (Env * Action) :=
  [ (envAt 0 0, SpawnAlien (plainAlien 0 (-1.8) Cyan 1));
    (envAt 0 0, Fire);
    (envAt 16 0, Tick) ]
  ++ repeat (envAt 16 0, Fire) 34.





(** ** Boss bookkeeping *)

Definition bossCount (s : GameState) : nat :=
  List.length (filter a_isBoss (aliens s)).

(** The equivalence under scrutiny: the flag is up exactly when one boss is
    on screen. *)
Definition bossFlagConsistent (s : GameState) : Prop :=
  bossActive s = true <-> bossCount s = 1%nat.

Definition bossFree (s : GameState) : Prop :=
  bossActive s = false /\ bossCount s = 0%nat.

Definition oneBoss (s : GameState) : Prop :=
  bossActive s = true /\ bossCount s = 1%nat.

Definition deadBoss (a : Alien) : bool := a_isBoss a && (a_hp a <=? 0).

(** An alien after some hits: same kind, no more hit points than before. *)
Definition worn (a a' : Alien) : Prop :=
  a_isBoss a' = a_isBoss a /\ a_hp a' <= a_hp a.

(** Actions that touch neither the boss flag nor the list of aliens. *)
Definition quietAction (a : Action) : bool :=
  match a with
  | SpawnBoss _ _ | StartBoss | UpdateBossHP _ | Tick | Reset => false
  | SpawnAlien p => negb (isBossSpawn (SpawnAlien p))
  | _ => true
  end.

Definition bossFlagTrace : list (Env * Action) :=
  [ (envAt 0 0, SpawnBoss 40 Red); (envAt 0 0, UpdateBossHP 0) ].

(** A one-hit boss in front of the cannon and a bullet on its way. *)
Definition bossDuelTrace : list (Env * Action) :=
  [ (envAt 0 0, SpawnAlien (bossAlien 0 (-1.8) Red 1)); (envAt 0 0, Fire) ].

(** A boss spawned on the cannon. *)
Definition bossOnCannonTrace : list (Env * Action) :=
  [ (envAt 0 0, SpawnAlien (bossAlien 0 (-2.5) Red 40)) ].

(** A boss far from the cannon and from the bullets. *)
Definition bossArrivesTrace : list (Env * Action) :=
  [ (envAt 0 0, SpawnBoss 40 Red) ].

(** What the collision loops keep true: aliens only wear down, and a boss in
    [destroyedAliens] is a boss of the list with no hit points left. *)
Definition collisionsSound (als : list Alien) (c : Collisions) : Prop :=
  Forall2 worn als (c_aliens c)
  /\ (existsb a_isBoss (destroyedAliens c) = true ->
      existsb deadBoss (c_aliens c) = true).

(** [bossesLe s s']: no boss appeared and the flag is as it was. *)
Definition bossesLe (s s' : GameState) : Prop :=
  (bossCount s' <= bossCount s)%nat /\ bossActive s' = bossActive s.

(** ** Score accounting of the kill loop *)

(** Points of a list of kills at a given score multiplier. *)
Fixpoint killPoints (mult : Z) (l : list Alien) : Z :=
  match l with
  | [] => 0
  | a :: rest =>
      rewardPoints (a_type a) * mult * (if a_isBoss a then 5 else 1)
      + killPoints mult rest
  end.

(** Number of kills, among [kills] successive ones starting at [combo], at
    which the counter becomes exactly 50. *)
Fixpoint perfectAwards (combo : Z) (kills : nat) : nat :=
  match kills with
  | O => 0
  | S k => (if combo + 1 =? 50 then 1 else 0) + perfectAwards (combo + 1) k
  end.

(** Perfect bonuses handed out by one tick, and along a run. *)
Definition tickAwards (e : Env) (s : GameState) : nat :=
  let s1 := advancePhase true (clock e 0%nat) s in
  perfectAwards (combo s1) (List.length (destroyedAliens (collisionsOf s1))).

Fixpoint awardsOfRun (load : nat -> Z) (trace : list (Env * Action)) (w : World)
  : nat :=
  match trace with
  | [] => 0
  | (e, a) :: rest =>
      (match a with Tick => tickAwards e (game w) | _ => 0%nat end
       + awardsOfRun load rest (reducer load e a w))%nat
  end.

(** One alien, one bullet in flight towards it. *)
Definition firstKillTrace : list (Env * Action) :=
  [ (envAt 0 0, SpawnAlien (plainAlien 0 (-1.8) Red 1)); (envAt 0 0, Fire) ].

(** Fifty bullets into one alien make fifty kills in one tick.  Twenty
    seconds later the idle timeout resets the combo and fifty more kills
    bring it back to 50. *)
Definition twoPerfectTrace : list (Env * Action) :=
  [ (envAt 0 0, SpawnAlien (plainAlien 0 (-1.8) Red 1)) ]
  ++ repeat (envAt 0 0, Fire) 50
  ++ [ (envAt 16 0, Tick);
       (envAt 1000 0, SpawnAlien (plainAlien 0 (-1.8) Red 1)) ]
  ++ repeat (envAt 1000 0, Fire) 50
  ++ [ (envAt 20000 0, Tick) ].

(** ** Victory *)

(** Victory fields after a boss kill at a given level, from the fields
    before it. *)
Definition victoryAfterBoss (lvl : Z) (old : GamePhase * option VictoryKind * string)
  : GamePhase * option VictoryKind * string :=
  if 100 <=? lvl then (Victory, Some Ultimate, "COSMIC SAVIOR")
  else if 50 <=? lvl then (Victory, Some Major, "ELITE SECTOR")
  else if 10 <=? lvl then (Victory, Some Minor, "SECTOR CLEARED")
  else old.

Definition victoryFields (s : GameState) : GamePhase * option VictoryKind * string :=
  (status s, victoryType s, victoryTitle s).

(** A later phase may only turn the status into [GameOver]. *)
Definition statusOrGameOver (before after : GamePhase) : Prop :=
  after = before \/ after = GameOver.

(** A one-hit boss and a bullet, at a score that puts the game at level 10,
    and the same at level 20. *)
Definition bossAtLevel10Trace : list (Env * Action) :=
  [ (envAt 0 0, IncrementScore 36000);
    (envAt 0 0, SpawnAlien (bossAlien 0 (-1.8) Red 1));
    (envAt 0 0, Fire) ].

Definition bossAtLevel20Trace : list (Env * Action) :=
  [ (envAt 0 0, IncrementScore 130000);
    (envAt 0 0, SpawnAlien (bossAlien 0 (-1.8) Red 1));
    (envAt 0 0, Fire) ].

(** ** Combo resets *)

(** Aliens of a list that are below the bottom line. *)
Definition escapees (l : list Alien) : Z :=
  Z.of_nat (List.length (filter (fun a => (a_y a <? -3)%float) l)).

(** The state in which the three closing phases of a tick start. *)
Definition afterAdvance (e : Env) (s : GameState) : GameState :=
  advancePhase true (clock e 0%nat) s.

Definition afterCombat (e : Env) (s : GameState) : GameState :=
  combatPhase e (clock e 0%nat) (afterAdvance e s).

Definition afterCannon (e : Env) (s : GameState) : GameState :=
  cannonPhase (afterCombat e s).

(** One kill made: combo 1, last shot at time 0. *)
Definition comboOneTrace : list (Env * Action) :=
  firstKillTrace ++ [ (envAt 16 0, Tick) ].

Definition collisionTrace : list (Env * Action) :=
  comboOneTrace ++ [ (envAt 32 0, SpawnAlien (plainAlien 0 (-2.5) Red 1)) ].

Definition threeEscapesTrace : list (Env * Action) :=
  comboOneTrace
  ++ repeat (envAt 32 0, SpawnAlien (plainAlien 2 (-2.99) Red 1)) 3.

Definition bossEscapeTrace : list (Env * Action) :=
  comboOneTrace ++ [ (envAt 32 0, SpawnAlien (bossAlien 2 (-2.99) Red 40)) ].

(** Combo 1, then two aliens about to cross the bottom line at clock 9000. *)
Definition twoMissesTrace : list (Env * Action) :=
  comboOneTrace
  ++ repeat (envAt 9000 0, SpawnAlien (plainAlien 2 (-2.99) Red 1)) 2.

(** The two misses at clock 9000, the kill of a green alien (its shield
    gives a life back), and a third alien about to escape at clock 10000:
    the three misses lie within one second, on both sides of the end of the
    window that started at clock 0. *)
Definition missAcrossWindowsTrace : list (Env * Action) :=
  twoMissesTrace
  ++ [ (envAt 9000 0, Tick);
       (envAt 9016 0, SpawnAlien (plainAlien 0 (-1.8) Green 1));
       (envAt 9016 0, Fire);
       (envAt 9032 0, Tick);
       (envAt 10000 0, SpawnAlien (plainAlien 2 (-2.99) Red 1)) ].

(** Two aliens in turn reach the cannon and cost a life each; a third one is
    on the cannon with one life left. *)
Definition lastLifeTrace : list (Env * Action) :=
  [ (envAt 0 0, SpawnAlien (plainAlien 0 (-2.5) Red 1)); (envAt 16 0, Tick);
    (envAt 16 0, SpawnAlien (plainAlien 0 (-2.5) Red 1)); (envAt 32 0, Tick);
    (envAt 32 0, SpawnAlien (plainAlien 0 (-2.5) Red 1)) ].

(** ** Determinism *)

(** Two environments whose clocks agree. *)
Definition sameClock (e1 e2 : Env) : Prop :=
  forall k, clock e1 k = clock e2 k.

(** [Math.random()] returns values below 1. *)
Definition drawsBelowOne (e : Env) : Prop :=
  forall k, (random e k <? 1)%float = true.

(** The same actions with the same clock readings, whatever the draws. *)
Definition sameIntents (x y : Env * Action) : Prop :=
  snd x = snd y /\ sameClock (fst x) (fst y)
  /\ drawsBelowOne (fst x) /\ drawsBelowOne (fst y).

(** The snapshots published after each step of a run. *)
Fixpoint snapshots (load : nat -> Z) (trace : list (Env * Action)) (w : World)
  : list World :=
  match trace with
  | [] => []
  | (e, a) :: rest =>
      let w' := reducer load e a w in
      w' :: snapshots load rest w'
  end.

(** Every step of the run starts at a score whose level is below 50. *)
Fixpoint staysBelowLevel50 (load : nat -> Z) (trace : list (Env * Action))
         (w : World) : Prop :=
  match trace with
  | [] => True
  | (e, a) :: rest =>
      calculateLevelFromScore (score (game w)) < 50
      /\ staysBelowLevel50 load rest (reducer load e a w)
  end.

(** A green alien shot at level 50; [r] is what [Math.random()] returns. *)
Definition dropAtLevel50Trace (r : float) : list (Env * Action) :=
  [ (envAt 0 r, IncrementScore 700000);
    (envAt 0 r, SpawnAlien (plainAlien 0 (-1.7) Green 1));
    (envAt 0 r, Fire);
    (envAt 16 r, Tick) ].

(** ** Soft penalties *)

(** The state with the combo bookkeeping blanked out (combo, its maximum,
    its timer, the miss counter and the start of the miss window), and the
    score as well when [hideScore] is set.  Two states with the same mask
    agree on every other field. *)
Definition softMask (hideScore : bool) (s : GameState) : GameState :=
  let s := set_missWindowStart 0
             (set_missesInWindow 0
                (set_comboTimer 0 (set_maxCombo 0 (set_combo 0 s)))) in
  if hideScore then set_score 0 s else s.

(** [s] with the masked fields overwritten. *)
Definition patchSoft (hideScore : bool) (c m ct mw ms sc : Z) (s : GameState)
  : GameState :=
  let s := set_missWindowStart ms
             (set_missesInWindow mw
                (set_comboTimer ct (set_maxCombo m (set_combo c s)))) in
  if hideScore then set_score sc s else s.

(** Forty-nine kills, a pause of twenty seconds with a bullet in flight, and
    the fiftieth kill. *)
Definition idleBeforeFiftiethTrace : list (Env * Action) :=
  [ (envAt 0 0, SpawnAlien (plainAlien 0 (-1.8) Red 1)) ]
  ++ repeat (envAt 0 0, Fire) 49
  ++ [ (envAt 16 0, Tick);
       (envAt 32 0, SpawnAlien (plainAlien 0 (-1.8) Red 1));
       (envAt 32 0, Fire) ].

(** ** Invariants of the slice state *)

(** The game state of the world reached by a run from the initial state. *)
Definition stateAfter (load : nat -> Z) (trace : list (Env * Action)) : GameState :=
  game (run load trace (initialWorld load)).

Definition livesInRange (s : GameState) : Prop := 0 <= lives s <= 3.

Definition waveInRange (s : GameState) : Prop := 1 <= wave s <= 5.

(** The level and the bracket shown are the ones of a score. *)
Definition levelConsistent (s : GameState) : Prop :=
  1 <= level s <= 100 /\ difficultyBracket s = getDifficultyBracket (level s).

(** What a frame leaves to the other reducers: the cannon's position, the
    wave bookkeeping, the shot counter, the clocks of the session, the
    boss gauge and the wave banner. *)
Definition sessionFields (s : GameState) :=
  (playerX s, playerY s, wave s, shotsFired s, difficultyMode s,
   lastShotTime s, waveStartTime s, waveEnemiesSpawned s, wavesCompleted s,
   gameStartTime s, running s, bossHP s, bossMaxHP s,
   showWaveNotification s, waveNotificationData s).

(** What the level phase fixes for the rest of the frame. *)
Definition levelFields (s : GameState) :=
  (level s, difficultyBracket s, previousLevel s, comboTier s).

(** Bullets of [bs] whose id is in [ids]. *)
Definition spent (ids : list string) (bs : list Bullet) : nat :=
  List.length (filter (fun b => idIn (b_id b) ids) bs).

(** Hits never outnumber the shots that are no longer in flight. *)
Definition accuracyInv (s : GameState) : Prop :=
  0 <= shotsHit s
  /\ shotsHit s + Z.of_nat (List.length (bullets s)) <= shotsFired s.

(** The kinds of the power-ups in effect. *)
Definition activeTypes (s : GameState) : list PowerUp :=
  map p_type (activePowerUps s).

Definition powerUpsDistinct (s : GameState) : Prop :=
  NoDup (activeTypes s) /\ ~ In Shield (activeTypes s).

(** ** The end of a frame *)

(** Aliens the collision loops declared destroyed in the frame. *)
Definition killsOfFrame (e : Env) (s : GameState) : Z :=
  Z.of_nat (List.length (destroyedAliens (collisionsOf (afterAdvance e s)))).

(** Aliens below the bottom line when the last loop of the frame starts. *)
Definition escapesOfFrame (e : Env) (s : GameState) : Z :=
  escapees (aliens (afterCannon e s)).

Definition gameOverIffNoLives (s : GameState) : Prop :=
  status s = GameOver <-> lives s = 0.

(** The hit points of a list of aliens. *)
Definition totalHp (l : list Alien) : Z :=
  fold_right (fun a acc => a_hp a + acc) 0 l.

(** [escaped l x]: an alien of [l] below the bottom line carries the id
    of [x]. *)
Definition escaped (l : list Alien) (x : Alien) : bool :=
  existsb (fun a => (a_y a <? -3)%float && String.eqb (a_id x) (a_id a)) l.

(* ================================================================== *)
(** * difficultyV2.ts: bosses, enemy kinds, power-up table, milestones *)
(* ================================================================== *)

(** ** Boss system *)

Inductive BossPattern :=
  bp_circle | bp_zigzag | bp_bomb | bp_spawn | bp_multi | bp_teleport
| bp_chase | bp_asteroid | bp_spiral | bp_apocalypse.

Inductive BossPower :=
  pw_spawn_scouts | pw_shield_minions | pw_screen_bombs | pw_rapid_spawn
| pw_all_powers | pw_blackout | pw_homing | pw_collision | pw_gravity
| pw_apocalypse.

(** An entry of [BOSS_CONFIGS]. *)
Record BossBase := {
  bb_name : string;
  bb_pattern : BossPattern;
  bb_power : BossPower;
  bb_speed : float;
  bb_phases : Z;
  bb_guaranteedDrop : PowerUp
}.

Record BossConfig := {
  bc_level : Z;
  bc_name : string;
  bc_hp : float;
  bc_pattern : BossPattern;
  bc_power : BossPower;
  bc_powerCooldown : Z;
  bc_speed : float;
  bc_phases : Z;
  bc_guaranteedDrop : PowerUp;
  bc_scoreBonus : float
}.

(** [BOSS_CONFIGS[level]]: [None] for a key the table does not have. *)
Definition BOSS_CONFIGS (level : Z) : option BossBase :=
  match level with
  | 10 => Some {| bb_name := "SCOUT COMMANDER"; bb_pattern := bp_circle;
                  bb_power := pw_spawn_scouts; bb_speed := 0.015;
                  bb_phases := 2; bb_guaranteedDrop := Shield |}
  | 20 => Some {| bb_name := "SHIELD WARDEN"; bb_pattern := bp_zigzag;
                  bb_power := pw_shield_minions; bb_speed := 0.012;
                  bb_phases := 2; bb_guaranteedDrop := SpreadShot |}
  | 30 => Some {| bb_name := "PLASMA BOMBER"; bb_pattern := bp_bomb;
                  bb_power := pw_screen_bombs; bb_speed := 0.014;
                  bb_phases := 3; bb_guaranteedDrop := FireRate |}
  | 40 => Some {| bb_name := "SWARM QUEEN"; bb_pattern := bp_spawn;
                  bb_power := pw_rapid_spawn; bb_speed := 0.010;
                  bb_phases := 3; bb_guaranteedDrop := DoubleBullets |}
  | 50 => Some {| bb_name := "ELITE VANGUARD"; bb_pattern := bp_multi;
                  bb_power := pw_all_powers; bb_speed := 0.013;
                  bb_phases := 3; bb_guaranteedDrop := ScoreMultiplier |}
  | 60 => Some {| bb_name := "NEBULA LORD"; bb_pattern := bp_teleport;
                  bb_power := pw_blackout; bb_speed := 0.016;
                  bb_phases := 3; bb_guaranteedDrop := SlowMotion |}
  | 70 => Some {| bb_name := "VOID REAPER"; bb_pattern := bp_chase;
                  bb_power := pw_homing; bb_speed := 0.018;
                  bb_phases := 4; bb_guaranteedDrop := Shield |}
  | 80 => Some {| bb_name := "STAR CRUSHER"; bb_pattern := bp_asteroid;
                  bb_power := pw_collision; bb_speed := 0.014;
                  bb_phases := 4; bb_guaranteedDrop := SpreadShot |}
  | 90 => Some {| bb_name := "GALAXY DEVOURER"; bb_pattern := bp_spiral;
                  bb_power := pw_gravity; bb_speed := 0.012;
                  bb_phases := 4; bb_guaranteedDrop := FireRate |}
  | 100 => Some {| bb_name := "COSMIC BEHEMOTH"; bb_pattern := bp_apocalypse;
                   bb_power := pw_apocalypse; bb_speed := 0.015;
                   bb_phases := 5; bb_guaranteedDrop := ScoreMultiplier |}
  | _ => None
  end.

(** The division is the one of JavaScript numbers. *)
Definition getBossHP (level : Z) : float :=
  let bossNumber := (floatOfZ level / 10)%float in
  (15 + bossNumber * 25)%float.

Definition getBossPowerCooldown (level : Z) : Z := 5000 + level * 50.

Definition getBossConfig (level : Z) : option BossConfig :=
  if negb (isBossLevel level) then None
  else
    match BOSS_CONFIGS level with
    | None => None
    | Some baseConfig =>
        Some {| bc_level := level;
                bc_name := bb_name baseConfig;
                bc_hp := getBossHP level;
                bc_pattern := bb_pattern baseConfig;
                bc_power := bb_power baseConfig;
                bc_powerCooldown := getBossPowerCooldown level;
                bc_speed := bb_speed baseConfig;
                bc_phases := bb_phases baseConfig;
                bc_guaranteedDrop := bb_guaranteedDrop baseConfig;
                bc_scoreBonus := (50000 * (floatOfZ level / 10))%float |}
    end.

(** ** Elite enemy kinds *)

Inductive EliteEnemyType :=
  et_basic | et_zigzag | et_scout | et_armored | et_bomber | et_swarm
| et_elite | et_voidwalker | et_apocalypse.

Record EliteEnemyConfig := {
  ee_type : EliteEnemyType;
  minLevel : Z;
  ee_hp : Z;
  ee_speed : float;
  behavior : string;
  spawnWeight : Z
}.

Definition ELITE_ENEMY_CONFIGS : list EliteEnemyConfig :=
  [ {| ee_type := et_basic; minLevel := 1; ee_hp := 1; ee_speed := 1;
       behavior := "straight"; spawnWeight := 100 |};
    {| ee_type := et_zigzag; minLevel := 11; ee_hp := 2; ee_speed := 1;
       behavior := "erratic"; spawnWeight := 30 |};
    {| ee_type := et_scout; minLevel := 26; ee_hp := 1; ee_speed := 2;
       behavior := "fast"; spawnWeight := 25 |};
    {| ee_type := et_armored; minLevel := 41; ee_hp := 3; ee_speed := 0.8;
       behavior := "tank"; spawnWeight := 20 |};
    {| ee_type := et_bomber; minLevel := 51; ee_hp := 2; ee_speed := 0.9;
       behavior := "bombs"; spawnWeight := 15 |};
    {| ee_type := et_swarm; minLevel := 61; ee_hp := 2; ee_speed := 1.1;
       behavior := "pack"; spawnWeight := 15 |};
    {| ee_type := et_elite; minLevel := 71; ee_hp := 4; ee_speed := 1.2;
       behavior := "all"; spawnWeight := 10 |};
    {| ee_type := et_voidwalker; minLevel := 81; ee_hp := 5; ee_speed := 1;
       behavior := "teleport"; spawnWeight := 8 |};
    {| ee_type := et_apocalypse; minLevel := 91; ee_hp := 6; ee_speed := 1.3;
       behavior := "area"; spawnWeight := 5 |} ].

Definition getAvailableEliteTypes (level : Z) : list EliteEnemyConfig :=
  filter (fun config => minLevel config <=? level) ELITE_ENEMY_CONFIGS.

(** The loop of [getRandomEliteType]: [None] when it runs to its end. *)
Fixpoint pickElite (random : float) (l : list EliteEnemyConfig)
  : option EliteEnemyConfig :=
  match l with
  | [] => None
  | enemy :: rest =>
      let random := (random - floatOfZ (spawnWeight enemy))%float in
      if (random <=? 0)%float then Some enemy else pickElite random rest
  end.

(** [None] stands for [undefined], which [available[0]] is when no kind is
    available. *)
Definition getRandomEliteType (e : Env) (level : Z) : option EliteEnemyConfig :=
  let available := getAvailableEliteTypes level in
  let totalWeight := fold_left (fun sum e => sum + spawnWeight e) available 0 in
  let random := (random e 0%nat * floatOfZ totalWeight)%float in
  match pickElite random available with
  | Some enemy => Some enemy
  | None => hd_error available
  end.

(** ** Alien type distribution *)

(** The keys of the weight record, in the order [Object.keys] lists them. *)
Definition alienTypeKeys : list AlienType :=
  [Red; Green; Blue; Yellow; Purple; Cyan].

Definition weightsRecord (red green blue yellow purple cyan : Z)
  : AlienType -> Z :=
  fun t => match t with
           | Red => red | Green => green | Blue => blue
           | Yellow => yellow | Purple => purple | Cyan => cyan
           end.

Definition getAlienTypeWeights (level : Z) : AlienType -> Z :=
  match getDifficultyBracket level with
  | training => weightsRecord 40 30 15 10 3 2
  | cadet => weightsRecord 30 25 20 15 6 4
  | pilot => weightsRecord 20 20 25 20 10 5
  | veteran => weightsRecord 15 15 20 25 15 10
  | ace => weightsRecord 10 10 15 25 25 15
  | elite => weightsRecord 8 8 12 22 28 22
  end.

(** ** Alien hit points *)

Record AlienHealthTier := {
  ht_hp : Z;
  armorLevel : Z;
  ht_name : string
}.

Definition getAlienHP (level wave : Z) : AlienHealthTier :=
  let config := getWaveConfig level wave in
  if alienHP config <=? 1 then
    {| ht_hp := 1; armorLevel := 0; ht_name := "standard" |}
  else if alienHP config =? 2 then
    {| ht_hp := 2; armorLevel := 1; ht_name := "armored" |}
  else if alienHP config =? 3 then
    {| ht_hp := 3; armorLevel := 2; ht_name := "shielded" |}
  else {| ht_hp := alienHP config; armorLevel := 3; ht_name := "elite" |}.

(** ** Power-up table *)

Record PowerUpScaling := {
  ps_duration : Z;
  charges : option Z;
  bonus : option Z
}.

Definition getPowerUpScaling (powerUp : PowerUp) (level : Z) : PowerUpScaling :=
  let isScore := PowerUp_eqb powerUp ScoreMultiplier in
  let isShield := PowerUp_eqb powerUp Shield in
  if level <=? 25 then
    {| ps_duration := if isScore then 10000 else if isShield then 5000 else 8000;
       charges := if isShield then Some 1 else None; bonus := None |}
  else if level <=? 50 then
    {| ps_duration := if isScore then 8000 else if isShield then 4000 else 6000;
       charges := if isShield then Some 2 else None; bonus := None |}
  else if level <=? 75 then
    {| ps_duration := if isScore then 6000 else if isShield then 3000 else 4000;
       charges := if isShield then Some 2 else None; bonus := None |}
  else
    {| ps_duration := if isScore then 4000 else if isShield then 2000 else 3000;
       charges := if isShield then Some 3 else None; bonus := None |}.

(** ** Level milestones *)

Record Milestone := {
  m_level : Z;
  m_title : string;
  m_description : string
}.

Definition firstMilestone : Milestone :=
  {| m_level := 1; m_title := "Rookie Launch";
     m_description := "Welcome, Pilot!" |}.

Definition levelMilestones : list Milestone :=
  [ firstMilestone;
    {| m_level := 10; m_title := "First Blood";
       m_description := "Defeated Scout Commander" |};
    {| m_level := 20; m_title := "Rising Star";
       m_description := "Shield Warden vanquished" |};
    {| m_level := 30; m_title := "Formation Master";
       m_description := "V-formations unlocked" |};
    {| m_level := 40; m_title := "Veteran Status";
       m_description := "Sweep waves incoming" |};
    {| m_level := 50; m_title := "ELITE SECTOR";
       m_description := "Score pressure begins!" |};
    {| m_level := 60; m_title := "Nebula Hunter";
       m_description := "Facing teleporting foes" |};
    {| m_level := 70; m_title := "Swarm Breaker";
       m_description := "Swarm formations active" |};
    {| m_level := 80; m_title := "Star Crusher";
       m_description := "Maximum armor enemies" |};
    {| m_level := 90; m_title := "Galaxy Champion";
       m_description := "Near-mastery achieved" |};
    {| m_level := 100; m_title := "COSMIC SAVIOR";
       m_description := "Ultimate rank achieved!" |} ].

(** [filter(...).pop() || levelMilestones[0]]: the last milestone reached,
    the first of the table when none is. *)
Definition getCurrentMilestone (level : Z) : Milestone :=
  last (filter (fun m => m_level m <=? level) levelMilestones) firstMilestone.

(** Milestones listed by ascending level. *)
Fixpoint ascending (l : list Milestone) : Prop :=
  match l with
  | [] => True
  | x :: rest => Forall (fun m => m_level x <= m_level m) rest /\ ascending rest
  end.

(* ================================================================== *)
(** * difficultyV2.ts: spawn interval, boss phases, formations         *)
(* ================================================================== *)

(** ** [Math.floor], [Math.ceil], [Math.max] and [Math.min] on numbers *)

(** A finite number is [(-1)^s * m * 2^e]; with [e < 0] its integer part
    is below [2^53] and converts back without rounding.  Zeros, infinities
    and NaN are returned as they are. *)
Definition Math_floor (x : float) : float :=
  match Prim2SF x with
  | S754_finite s m e =>
      if 0 <=? e then x
      else
        let q := Z.pos m / 2 ^ (- e) in
        let r := Z.pos m mod 2 ^ (- e) in
        if s then floatOfZ (- (if r =? 0 then q else q + 1)) else floatOfZ q
  | _ => x
  end.

Definition Math_ceil (x : float) : float := (- Math_floor (- x))%float.

(** NaN when an argument is NaN; of two zeros the positive one is the
    greater. *)
Definition Math_max (a b : float) : float :=
  if PrimFloat.is_nan a || PrimFloat.is_nan b then PrimFloat.nan
  else if (a <? b)%float then b
  else if (b <? a)%float then a
  else if PrimFloat.get_sign a then b else a.

Definition Math_min (a b : float) : float :=
  if PrimFloat.is_nan a || PrimFloat.is_nan b then PrimFloat.nan
  else if (a <? b)%float then a
  else if (b <? a)%float then b
  else if PrimFloat.get_sign a then a else b.

(** [arr[k]] for a number [k]: the element at that index, [None]
    ([undefined]) when [k] is not an index of the array. *)
Fixpoint arrayAtFrom {A} (i : Z) (arr : list A) (k : float) : option A :=
  match arr with
  | [] => None
  | x :: rest =>
      if (floatOfZ i =? k)%float then Some x else arrayAtFrom (i + 1) rest k
  end.

Definition arrayAt {A} (arr : list A) (k : float) : option A :=
  arrayAtFrom 0 arr k.

(** ** Spawn interval *)

Definition getSpawnInterval (level wave : Z) : float :=
  let config := getWaveConfig level wave in
  Math_max 350 (Math_floor (1000 / enemiesPerSecond config)).

(** ** Boss phases *)

Definition getBossPhase (currentHP maxHP totalPhases : float) : float :=
  let hpPercent := (currentHP / maxHP)%float in
  Math_max 1 (Math_ceil (hpPercent * totalPhases)).

(** ** Formations *)

Inductive FormationType :=
  ft_random | ft_v_shape | ft_horizontal | ft_staggered | ft_swarm
| ft_diagonal | ft_pincer.

Record FormationPosition := {
  fp_x : float;
  fp_y : float;
  fp_vx : option float
}.

Record FormationSpawn := {
  fs_type : FormationType;
  positions : list FormationPosition
}.

Definition at_xy (x y : float) : FormationPosition :=
  {| fp_x := x; fp_y := y; fp_vx := None |}.

Definition at_xyv (x y vx : float) : FormationPosition :=
  {| fp_x := x; fp_y := y; fp_vx := Some vx |}.

(** One alien at a random abscissa, for the draw [r]. *)
Definition randomSpawn (r : float) : FormationSpawn :=
  {| fs_type := ft_random; positions := [ at_xy ((r - 0.5) * 6) 4 ] |}.

(** The draws are numbered in the order the calls of [Math.random] are
    made. *)
Definition getFormation (e : Env) (level wave : Z) : FormationSpawn :=
  if level <? 30 then randomSpawn (random e 0%nat)
  else
    let formationChance :=
      Math_min 0.7 (floatOfZ (level - 30) * 0.015 + floatOfZ wave * 0.05) in
    if (formationChance <? random e 0%nat)%float then randomSpawn (random e 1%nat)
    else
      let formations :=
        ([ft_v_shape]
           ++ (if 40 <=? level then [ft_horizontal] else [])
           ++ (if 50 <=? level then [ft_staggered] else [])
           ++ (if 70 <=? level then [ft_swarm] else []))%list in
      let formationType :=
        arrayAt formations
          (Math_floor (random e 1%nat
                       * floatOfZ (Z.of_nat (List.length formations)))) in
      match formationType with
      | Some ft_v_shape =>
          {| fs_type := ft_v_shape;
             positions := [ at_xy 0 4; at_xy (-0.8) 4.3; at_xy 0.8 4.3;
                            at_xy (-1.5) 4.6; at_xy 1.5 4.6 ] |}
      | Some ft_horizontal =>
          let sweepDir :=
            if (0.5 <? random e 2%nat)%float then 0.02%float else (-0.02)%float in
          {| fs_type := ft_horizontal;
             positions := [ at_xyv (-2) 4 sweepDir; at_xyv (-1) 4 sweepDir;
                            at_xyv 0 4 sweepDir; at_xyv 1 4 sweepDir;
                            at_xyv 2 4 sweepDir ] |}
      | Some ft_staggered =>
          {| fs_type := ft_staggered;
             positions := [ at_xy (-2) 4; at_xy 0 4.3; at_xy 2 4;
                            at_xy (-1) 4.6; at_xy 1 4.6 ] |}
      | Some ft_swarm =>
          let centerX := ((random e 2%nat - 0.5) * 3)%float in
          {| fs_type := ft_swarm;
             positions := [ at_xyv centerX 4 (-0.01);
                            at_xyv (centerX - 0.4) 4.1 (-0.015);
                            at_xyv (centerX + 0.4) 4.1 0.015;
                            at_xyv (centerX - 0.6) 4.3 (-0.02);
                            at_xyv (centerX + 0.6) 4.3 0.02;
                            at_xy (centerX - 0.3) 4.5;
                            at_xy (centerX + 0.3) 4.5;
                            at_xy centerX 4.6 ] |}
      | _ => randomSpawn (random e 2%nat)
      end.

(** ** Checks run over every level and wave *)

Definition waveNumbers : list Z := [1; 2; 3; 4; 5].

(** The interval is a whole number of milliseconds from 350 to 2000, and
    350 from level 41 on. *)
Definition spawnIntervalOk (level wave : Z) : bool :=
  let v := getSpawnInterval level wave in
  (350 <=? v)%float && (v <=? 2000)%float && (Math_floor v =? v)%float
  && ((level <? 41) || (v =? 350)%float).

(** Shorter or equal intervals in the next wave and at the next level. *)
Definition spawnIntervalFalls (level wave : Z) : bool :=
  ((5 <=? wave)
   || (getSpawnInterval level (wave + 1) <=? getSpawnInterval level wave)%float)
  && ((100 <=? level)
      || (getSpawnInterval (level + 1) wave <=? getSpawnInterval level wave)%float).

Definition hitPointsUpTo (n : Z) : list Z :=
  map Z.of_nat (seq 0 (S (Z.to_nat n))).

(** The phase for [hp] hit points out of [maxHp], of [phases] phases. *)
Definition phaseOf (hp maxHp phases : Z) : float :=
  getBossPhase (floatOfZ hp) (floatOfZ maxHp) (floatOfZ phases).

Definition bossPhaseOk (maxHp phases hp : Z) : bool :=
  let ph := phaseOf hp maxHp phases in
  (1 <=? ph)%float && (ph <=? floatOfZ phases)%float && (Math_floor ph =? ph)%float
  && ((hp <? maxHp) || (ph =? floatOfZ phases)%float)
  && ((0 <? hp) || (ph =? 1)%float)
  && ((maxHp <=? hp) || (ph <=? phaseOf (hp + 1) maxHp phases)%float).

Definition bossLevels : list Z := [10; 20; 30; 40; 50; 60; 70; 80; 90; 100].

Definition bossPhasesOk (level : Z) : bool :=
  match getBossConfig level with
  | Some c =>
      let maxHp := 15 + 25 * (level / 10) in
      forallb (bossPhaseOk maxHp (bc_phases c)) (hitPointsUpTo maxHp)
  | None => false
  end.

(** ** The cannon's square *)

(** Neither below -3 nor above 3. *)
Definition inSpan (v : float) : Prop :=
  (v <? -3)%float = false /\ (3 <? v)%float = false.

Definition cannonInBounds (s : GameState) : Prop :=
  inSpan (playerX s) /\ inSpan (playerY s).

(** ** Identifiers *)

(** The decimal numeral [generateId] prints. *)
Definition decimal (n : nat) : string := NilZero.string_of_uint (Nat.to_uint n).

Definition isDigit (c : ascii) : bool :=
  existsb (Ascii.eqb c) ["0"; "1"; "2"; "3"; "4"; "5"; "6"; "7"; "8"; "9"]%char.

Fixpoint digits (s : string) : bool :=
  match s with
  | EmptyString => true
  | String c rest => isDigit c && digits rest
  end.

(** A suffix that cannot continue a numeral. *)
Definition pastDigits (s : string) : bool :=
  match s with
  | EmptyString => true
  | String c _ => negb (isDigit c)
  end.

(** The ids the reducers make: ["e<k>"] with a suffix for the bullets of a
    volley, ["boss-e<k>"] for a boss. *)
Definition idOf (boss : bool) (k : nat) (suffix : string) : string :=
  (if boss then "boss-" else "") ++ "e" ++ decimal k ++ suffix.

Definition stampedBelow (n : nat) (id : string) : Prop :=
  exists boss k suffix,
    id = idOf boss k suffix /\ pastDigits suffix = true /\ (k <= n)%nat.

Definition idsFresh (w : World) : Prop :=
  NoDup (map a_id (aliens (game w)))
  /\ NoDup (map b_id (bullets (game w)))
  /\ Forall (stampedBelow (idCounter w)) (map a_id (aliens (game w)))
  /\ Forall (stampedBelow (idCounter w)) (map b_id (bullets (game w))).

(** [thinned f l l']: the keys of [l'] are keys of [l], and are pairwise
    distinct when those of [l] are. *)
Definition thinned {A} (f : A -> string) (l l' : list A) : Prop :=
  (NoDup (map f l) -> NoDup (map f l')) /\ incl (map f l') (map f l).

(** ** Counters *)

(** The counters that only count, and the multiplier of the frame. *)
Definition countersSound (s : GameState) : Prop :=
  0 <= combo s /\ 0 <= totalKills s /\ 0 <= waveKills s
  /\ 0 <= missedAliens s /\ 0 <= escapeStreak s /\ 0 <= missesInWindow s
  /\ 0 <= powerUpsCollected s /\ 0 <= wavesCompleted s
  /\ 0 <= waveEnemiesSpawned s /\ 0 <= shotsFired s
  /\ 1 <= scoreMultiplier s <= 10.

(** What the collision loops keep true of the bullets marked for removal,
    [pre] being the bullets gone through. *)
Definition removalsSound (h : Z) (pre : list Bullet) (c : Collisions) : Prop :=
  c_shotsHit c - h = Z.of_nat (List.length (bulletsToRemove c))
  /\ NoDup (bulletsToRemove c)
  /\ incl (bulletsToRemove c) (map b_id pre).

(* ================================================================== *)
(** * Properties                                                       *)
(* ================================================================== *)

#[global] Arguments calculateLevelFromScore : simpl never.
#[global] Arguments getRequiredScoreForLevel : simpl never.
#[global] Arguments getAlienSpeed : simpl never.
#[global] Arguments getWaveConfig : simpl never.

(** ** Reading fields through updates *)

(** [gs] computes projections of updated states and nothing else. *)
Ltac gs :=
  cbn [
    playerX playerY bullets aliens running score lives level previousLevel
    wave waveKills waveEnemiesSpawned waveStartTime status difficultyMode
    activePowerUps scoreMultiplier combo maxCombo comboTimer comboTier
    difficultyBracket bossActive bossHP bossMaxHP totalKills missedAliens
    escapeStreak victoryType victoryTitle lastShotTime missesInWindow
    missWindowStart showWaveNotification waveNotificationData shotsFired
    shotsHit gameStartTime powerUpsCollected wavesCompleted set_playerX
    set_playerY set_bullets set_aliens set_running set_score set_lives
    set_level set_previousLevel set_wave set_waveKills
    set_waveEnemiesSpawned set_waveStartTime set_status set_difficultyMode
    set_activePowerUps set_scoreMultiplier set_combo set_maxCombo
    set_comboTimer set_comboTier set_difficultyBracket set_bossActive
    set_bossHP set_bossMaxHP set_totalKills set_missedAliens
    set_escapeStreak set_victoryType set_victoryTitle set_lastShotTime
    set_missesInWindow set_missWindowStart set_showWaveNotification
    set_waveNotificationData set_shotsFired set_shotsHit set_gameStartTime
    set_powerUpsCollected set_wavesCompleted fst snd idCounter game onGame ].

Ltac gs_in H :=
  cbn [
    playerX playerY bullets aliens running score lives level previousLevel
    wave waveKills waveEnemiesSpawned waveStartTime status difficultyMode
    activePowerUps scoreMultiplier combo maxCombo comboTimer comboTier
    difficultyBracket bossActive bossHP bossMaxHP totalKills missedAliens
    escapeStreak victoryType victoryTitle lastShotTime missesInWindow
    missWindowStart showWaveNotification waveNotificationData shotsFired
    shotsHit gameStartTime powerUpsCollected wavesCompleted set_playerX
    set_playerY set_bullets set_aliens set_running set_score set_lives
    set_level set_previousLevel set_wave set_waveKills
    set_waveEnemiesSpawned set_waveStartTime set_status set_difficultyMode
    set_activePowerUps set_scoreMultiplier set_combo set_maxCombo
    set_comboTimer set_comboTier set_difficultyBracket set_bossActive
    set_bossHP set_bossMaxHP set_totalKills set_missedAliens
    set_escapeStreak set_victoryType set_victoryTitle set_lastShotTime
    set_missesInWindow set_missWindowStart set_showWaveNotification
    set_waveNotificationData set_shotsFired set_shotsHit set_gameStartTime
    set_powerUpsCollected set_wavesCompleted fst snd idCounter game onGame ] in H.

Ltac gs_all :=
  cbn [
    playerX playerY bullets aliens running score lives level previousLevel
    wave waveKills waveEnemiesSpawned waveStartTime status difficultyMode
    activePowerUps scoreMultiplier combo maxCombo comboTimer comboTier
    difficultyBracket bossActive bossHP bossMaxHP totalKills missedAliens
    escapeStreak victoryType victoryTitle lastShotTime missesInWindow
    missWindowStart showWaveNotification waveNotificationData shotsFired
    shotsHit gameStartTime powerUpsCollected wavesCompleted set_playerX
    set_playerY set_bullets set_aliens set_running set_score set_lives
    set_level set_previousLevel set_wave set_waveKills
    set_waveEnemiesSpawned set_waveStartTime set_status set_difficultyMode
    set_activePowerUps set_scoreMultiplier set_combo set_maxCombo
    set_comboTimer set_comboTier set_difficultyBracket set_bossActive
    set_bossHP set_bossMaxHP set_totalKills set_missedAliens
    set_escapeStreak set_victoryType set_victoryTitle set_lastShotTime
    set_missesInWindow set_missWindowStart set_showWaveNotification
    set_waveNotificationData set_shotsFired set_shotsHit set_gameStartTime
    set_powerUpsCollected set_wavesCompleted fst snd idCounter game onGame ] in *.

(** Case analysis on every test the goal still branches on, innermost
    tests first. *)
Ltac split_ifs :=
  repeat (match goal with
          | |- context [if ?c then _ else _] =>
              lazymatch c with
              | context [if _ then _ else _] => fail
              | _ => destruct c eqn:?
              end
          | |- context [match ?c with Some _ => _ | None => _ end] =>
              destruct c eqn:?
          end; gs).

Lemma fold_left_invariant {A B} (P : A -> Prop) (f : A -> B -> A) (l : list B) :
  (forall acc x, P acc -> P (f acc x)) ->
  forall acc, P acc -> P (fold_left f l acc).
Proof.
  intros Hstep. induction l as [|x l IH]; intros acc Hacc; cbn [fold_left].
  - exact Hacc.
  - apply IH, Hstep, Hacc.
Qed.

(** ** Level progression *)

Section RootSearch.

Variable X : Z.

Lemma rootSearch_spec (fuel : nat) :
  forall lo hi,
    0 <= lo -> lo < hi ->
    lo ^ 20 <= X -> X < hi ^ 20 ->
    hi - lo <= 2 ^ Z.of_nat fuel ->
    rootSearch fuel X lo hi ^ 20 <= X < (rootSearch fuel X lo hi + 1) ^ 20.
Proof.
  induction fuel as [|fuel IH]; intros lo hi Hlo Hlt Hl Hh Hsz.
  - cbn [rootSearch]. change (2 ^ Z.of_nat 0) with 1 in Hsz.
    assert (hi = lo + 1) as -> by (clear Hl Hh; lia).
    split; assumption.
  - cbn [rootSearch].
    rewrite Nat2Z.inj_succ, Z.pow_succ_r in Hsz by lia.
    remember (2 ^ Z.of_nat fuel) as P eqn:HP. clear HP.
    destruct (Z.eqb_spec ((lo + hi) / 2) lo) as [E|E].
    + assert (hi = lo + 1) as ->
          by (clear Hl Hh IH; Z.div_mod_to_equations; lia).
      split; assumption.
    + destruct (Z.leb_spec (((lo + hi) / 2) ^ 20) X) as [Hm|Hm].
      * apply IH; try assumption; clear Hl Hh Hm IH;
          Z.div_mod_to_equations; lia.
      * apply IH; try assumption; clear Hl Hh Hm IH;
          Z.div_mod_to_equations; lia.
Qed.

End RootSearch.

Lemma floorScaledPow_spec (level : Z) :
  1 <= level ->
  floorScaledPow level ^ 20 <= 500 ^ 20 * level ^ 37
    < (floorScaledPow level + 1) ^ 20.
Proof.
  intros Hl. unfold floorScaledPow, BASE_SCORE_PER_LEVEL.
  set (hi := 500 * level * level + 1).
  assert (Hhi : 1 < hi) by (unfold hi; nia).
  apply rootSearch_spec.
  - lia.
  - lia.
  - rewrite Z.pow_0_l by lia.
    apply Z.mul_nonneg_nonneg; apply Z.pow_nonneg; lia.
  - apply Z.le_lt_trans with ((500 * level * level) ^ 20).
    + replace (500 * level * level) with (500 * level ^ 2) by ring.
      rewrite Z.pow_mul_l, <- Z.pow_mul_r by lia.
      apply Z.mul_le_mono_nonneg_l; [apply Z.pow_nonneg; lia|].
      apply Z.pow_le_mono_r; lia.
    + apply Z.pow_lt_mono_l; unfold hi; nia.
  - rewrite Nat2Z.inj_succ, Z2Nat.id by (apply Z.log2_up_nonneg).
    rewrite Z.pow_succ_r by (apply Z.log2_up_nonneg).
    pose proof (Z.log2_up_spec hi Hhi) as [_ Hup]. lia.
Qed.

Lemma levelScan_lower (n : nat) :
  forall level score,
    1 <= level -> level + Z.of_nat n = 101 ->
    Z.max 1 (level - 1) <= levelScan n level score.
Proof.
  induction n as [|n IH]; intros level score Hl Hn; cbn [levelScan].
  - lia.
  - destruct (score <? getRequiredScoreForLevel level).
    + lia.
    + specialize (IH (level + 1) score). lia.
Qed.

Lemma levelScan_monotone (n : nat) :
  forall level s1 s2,
    1 <= level -> level + Z.of_nat n = 101 -> s1 <= s2 ->
    levelScan n level s1 <= levelScan n level s2.
Proof.
  induction n as [|n IH]; intros level s1 s2 Hl Hn Hs; cbn [levelScan].
  - lia.
  - destruct (Z.ltb_spec s1 (getRequiredScoreForLevel level)) as [H1|H1];
      destruct (Z.ltb_spec s2 (getRequiredScoreForLevel level)) as [H2|H2].
    + lia.
    + pose proof (levelScan_lower n (level + 1) s2). lia.
    + lia.
    + apply IH; lia.
Qed.

Lemma calculateLevelFromScore_monotone (s1 s2 : Z) :
  s1 <= s2 -> calculateLevelFromScore s1 <= calculateLevelFromScore s2.
Proof.
  intros H. unfold calculateLevelFromScore.
  apply levelScan_monotone; simpl; lia.
Qed.

Lemma calculateLevelFromScore_range (s : Z) :
  1 <= calculateLevelFromScore s <= 100.
Proof.
  unfold calculateLevelFromScore.
  assert (forall n level, 1 <= level -> level + Z.of_nat n = 101 ->
                          levelScan n level s <= 100) as Hup.
  { induction n as [|n IH]; intros level Hl Hn; cbn [levelScan].
    - lia.
    - destruct (s <? getRequiredScoreForLevel level).
      + lia.
      + apply IH; lia. }
  split.
  - pose proof (levelScan_lower 100 1 s). simpl in *. lia.
  - apply Hup; simpl; lia.
Qed.

Lemma levelsUpTo100_In (L : Z) : 1 <= L <= 100 -> In L levelsUpTo100.
Proof.
  intros H. unfold levelsUpTo100.
  replace L with (Z.of_nat (Z.to_nat L)) by lia.
  apply in_map, in_seq. lia.
Qed.

Lemma levelScan_scanList (n : nat) :
  forall level score,
    levelScan n level score = scanList (thresholdsFrom n level) level score.
Proof.
  induction n as [|n IH]; intros level score; cbn [levelScan thresholdsFrom scanList].
  - reflexivity.
  - now rewrite IH.
Qed.

Lemma nth_thresholdsFrom (n : nat) :
  forall level i,
    (i < n)%nat ->
    nth i (thresholdsFrom n level) 0 = getRequiredScoreForLevel (level + Z.of_nat i).
Proof.
  induction n as [|n IH]; intros level i Hi; [lia|].
  cbn [thresholdsFrom]. destruct i as [|i]; cbn [nth].
  - now rewrite Z.add_0_r.
  - rewrite IH by lia. f_equal. lia.
Qed.

Lemma boundary_exact_table :
  let ths := thresholdsFrom 100 1 in
  forallb (fun i => scanList ths 1 (nth i ths 0) =? 1 + Z.of_nat i) (seq 0 100)
  = true.
Proof. vm_compute. reflexivity. Qed.

Lemma calculateLevelFromScore_at_threshold (L : Z) :
  1 <= L <= 100 ->
  calculateLevelFromScore (getRequiredScoreForLevel L) = L.
Proof.
  intros HL. pose proof boundary_exact_table as T. cbv zeta in T.
  rewrite forallb_forall in T.
  specialize (T (Z.to_nat (L - 1))).
  rewrite nth_thresholdsFrom in T by lia.
  unfold calculateLevelFromScore. rewrite levelScan_scanList.
  replace (1 + Z.of_nat (Z.to_nat (L - 1))) with L in T by lia.
  apply Z.eqb_eq, T, in_seq. lia.
Qed.

(** The thresholds keep a distance of more than one millionth from every
    integer, far more than the rounding error of the double-precision
    evaluation of [500 * level * Math.pow(level, 0.85)] (below 1e-8 for
    values up to 2.6e6): the floor taken on doubles is the exact one. *)
Lemma thresholds_clear_of_integers :
  forallb (fun L =>
             let r := getRequiredScoreForLevel L in
             ((r * 10 ^ 6 + 1) ^ 20 <=? (500 * 10 ^ 6) ^ 20 * L ^ 37)
             && ((500 * 10 ^ 6) ^ 20 * L ^ 37 <? ((r + 1) * 10 ^ 6 - 1) ^ 20))
          (tl levelsUpTo100) = true.
Proof. vm_compute. reflexivity. Qed.

(** C9. [calculateLevelFromScore] never decreases when the score grows, it
    returns [L] at the threshold of every level [L] from 1 to 100, and the
    threshold [getRequiredScoreForLevel L] is 0 for [L <= 1] and the integer
    part of [500 * L * L^0.85] (the greatest [r] with
    [r^20 <= 500^20 * L^37]) for [L > 1]. *)
Theorem levelFromScore_monotone_and_exact (s1 s2 L : Z) :
  s1 <= s2 ->
  1 <= L <= 100 ->
  calculateLevelFromScore s1 <= calculateLevelFromScore s2
  /\ calculateLevelFromScore (getRequiredScoreForLevel L) = L
  /\ (L <= 1 -> getRequiredScoreForLevel L = 0)
  /\ (1 < L ->
      getRequiredScoreForLevel L ^ 20 <= 500 ^ 20 * L ^ 37
        < (getRequiredScoreForLevel L + 1) ^ 20).
Proof.
  intros Hs HL. split; [|split; [|split]].
  - now apply calculateLevelFromScore_monotone.
  - now apply calculateLevelFromScore_at_threshold.
  - intros H. unfold getRequiredScoreForLevel.
    destruct (Z.leb_spec L 1); [reflexivity | lia].
  - intros H. unfold getRequiredScoreForLevel.
    destruct (Z.leb_spec L 1); [lia|].
    apply floorScaledPow_spec. lia.
Qed.

Lemma levelFromScore_monotone_and_exact_witness :
  calculateLevelFromScore 1801 <= calculateLevelFromScore 1802
  /\ calculateLevelFromScore (getRequiredScoreForLevel 10) = 10
  /\ (10 <= 1 -> getRequiredScoreForLevel 10 = 0)
  /\ (1 < 10 ->
      getRequiredScoreForLevel 10 ^ 20 <= 500 ^ 20 * 10 ^ 37
        < (getRequiredScoreForLevel 10 + 1) ^ 20).
Proof. apply (levelFromScore_monotone_and_exact 1801 1802 10); lia. Defined.

(** ** One kill *)

Section ProcessKill.

Variables (e : Env) (currentTime : Z) (s : GameState) (k : nat) (alien : Alien).

Let s' := fst (processKill e currentTime (s, k) alien).

Ltac kill_cases :=
  subst s';
  unfold processKill, creditKill, comboUp, perfectBonus, killScore,
    dropPowerUp, bossDefeated; gs;
  destruct (a_isBoss alien); gs; split_ifs;
  try (destruct (rewardPowerUp (a_type alien)); gs).

Lemma processKill_combo : combo s' = combo s + 1.
Proof. kill_cases; reflexivity. Qed.

Lemma processKill_maxCombo : maxCombo s' = Z.max (maxCombo s) (combo s + 1).
Proof. kill_cases; reflexivity. Qed.

Lemma processKill_level : level s' = level s.
Proof. kill_cases; reflexivity. Qed.

Lemma processKill_scoreMultiplier : scoreMultiplier s' = scoreMultiplier s.
Proof. kill_cases; reflexivity. Qed.

Lemma processKill_score :
  score s' =
  score s
  + (if combo s + 1 =? 50 then PERFECT_COMBO_BONUS else 0)
  + rewardPoints (a_type alien) * scoreMultiplier s
    * (if a_isBoss alien then 5 else 1).
Proof. kill_cases; lia. Qed.

Lemma processKill_aliens : aliens s' = aliens s.
Proof. kill_cases; reflexivity. Qed.

Lemma processKill_bullets : bullets s' = bullets s.
Proof. kill_cases; reflexivity. Qed.

End ProcessKill.

(** ** The combo counter and its maximum *)

Lemma processKills_combo_cases (e : Env) (t : Z) (l : list Alien) :
  forall s k,
    let r := fst (fold_left (processKill e t) l (s, k)) in
    combo r = combo s + Z.of_nat (List.length l)
    /\ (comboInv s -> comboInv r)
    /\ maxCombo s <= maxCombo r
    /\ level r = level s
    /\ scoreMultiplier r = scoreMultiplier s
    /\ aliens r = aliens s
    /\ bullets r = bullets s.
Proof.
  induction l as [|a l IH]; intros s k; cbn [fold_left List.length].
  - cbn [fst]. unfold comboInv. repeat split; try tauto; lia.
  - destruct (processKill e t (s, k) a) as [s1 k1] eqn:E.
    assert (Hs1 : s1 = fst (processKill e t (s, k) a)) by now rewrite E.
    specialize (IH s1 k1). cbv zeta in IH.
    destruct IH as (Hc & Hi & Hm & Hl & Hsm & Ha & Hb).
    pose proof (processKill_combo e t s k a) as Pc.
    pose proof (processKill_maxCombo e t s k a) as Pm.
    rewrite <- Hs1 in Pc, Pm.
    cbv zeta. rewrite Hc, Hl, Hsm, Ha, Hb, Hs1.
    rewrite processKill_level, processKill_scoreMultiplier,
      processKill_aliens, processKill_bullets, <- Hs1.
    unfold comboInv in *.
    repeat split; try reflexivity; try lia.
Qed.

(** Boolean tests on integers, as propositions [lia] can use. *)
Ltac b2p :=
  repeat match goal with
    | H : andb _ _ = true |- _ => apply andb_true_iff in H; destruct H
    | H : andb _ _ = false |- _ => apply andb_false_iff in H; destruct H
    | H : orb _ _ = false |- _ => apply orb_false_iff in H; destruct H
    | H : orb _ _ = true |- _ => apply orb_true_iff in H; destruct H
    | H : negb _ = true |- _ => apply negb_true_iff in H
    | H : negb _ = false |- _ => apply negb_false_iff in H
    | H : Z.ltb _ _ = true |- _ => apply Z.ltb_lt in H
    | H : Z.ltb _ _ = false |- _ => apply Z.ltb_ge in H
    | H : Z.leb _ _ = true |- _ => apply Z.leb_le in H
    | H : Z.leb _ _ = false |- _ => apply Z.leb_gt in H
    | H : Z.eqb _ _ = true |- _ => apply Z.eqb_eq in H
    | H : Z.eqb _ _ = false |- _ => apply Z.eqb_neq in H
    end.

Lemma advancePhase_combo (b : bool) (t : Z) (s : GameState) :
  combo (advancePhase b t s) <= combo s
  /\ maxCombo (advancePhase b t s) = maxCombo s.
Proof.
  unfold advancePhase, levelPhase, idlePhase, missWindowPhase, decayPhase, powerUpPhase, movePhase.
  gs. split_ifs; b2p; gs_all; split; try reflexivity; lia.
Qed.






















(** ** Entity counts *)














Lemma fire_aliens (e : Env) (w : World) :
  aliens (game (fire e w)) = aliens (game w).
Proof. unfold fire, generateId. gs. split_ifs; reflexivity. Qed.

Lemma spawnAlien_bullets (p : SpawnAlienPayload) (w : World) :
  bullets (game (spawnAlien p w)) = bullets (game w).
Proof. unfold spawnAlien, generateId. gs. split_ifs; reflexivity. Qed.










(** The bullet list overshoots as well: with the spread shot active, a volley
    fired at 99 bullets is appended without trimming. *)
Lemma spread_volley_exceeds_bullet_limit :
  List.length (bullets (game (run load0 spreadVolleyTrace (initialWorld load0))))
  = 102%nat.
Proof. vm_compute. reflexivity. Qed.

(** ** The boss flag *)

Lemma bossFree_consistent (s : GameState) : bossFree s -> bossFlagConsistent s.
Proof.
  unfold bossFree, bossFlagConsistent. intros [-> ->]. split; discriminate.
Qed.

Lemma oneBoss_consistent (s : GameState) : oneBoss s -> bossFlagConsistent s.
Proof.
  unfold oneBoss, bossFlagConsistent. intros [-> ->]. split; reflexivity.
Qed.

Lemma filter_filter_length {A} (p q : A -> bool) (l : list A) :
  (List.length (filter p (filter q l)) <= List.length (filter p l))%nat.
Proof.
  induction l as [|x l IH]; cbn [filter]; [reflexivity|].
  destruct (q x), (p x) eqn:Hp; cbn [filter List.length]; try rewrite Hp;
    cbn [List.length]; lia.
Qed.

Lemma moveAlien_isBoss (v : float) (a : Alien) :
  a_isBoss (moveAlien v a) = a_isBoss a.
Proof.
  unfold moveAlien.
  destruct (truthy (a_vx a)); cbn [set_a_x set_a_y set_a_vx a_isBoss a_x a_vx];
    [|reflexivity].
  destruct (3.5 <? abs (a_x a + a_vx a))%float; reflexivity.
Qed.

Lemma filter_map_isBoss_length (f : Alien -> Alien) (l : list Alien) :
  (forall a, a_isBoss (f a) = a_isBoss a) ->
  List.length (filter a_isBoss (map f l)) = List.length (filter a_isBoss l).
Proof.
  intros Hf. induction l as [|a l IH]; cbn [map filter]; [reflexivity|].
  rewrite Hf. destruct (a_isBoss a); cbn [List.length]; now rewrite IH.
Qed.

Lemma Forall2_worn_refl (l : list Alien) : Forall2 worn l l.
Proof. induction l; constructor; [split; [reflexivity | lia] | assumption]. Qed.

Lemma Forall2_worn_trans (l1 l2 l3 : list Alien) :
  Forall2 worn l1 l2 -> Forall2 worn l2 l3 -> Forall2 worn l1 l3.
Proof.
  intros H. revert l3. induction H as [|a b l1 l2 [Hb Hh] _ IH]; intros l3 H3.
  - inversion H3. constructor.
  - inversion H3 as [|b' c l2' l3' [Hb' Hh'] T]; subst. constructor.
    + split; [congruence | lia].
    + apply IH, T.
Qed.

Lemma damageAlien_worn (id : string) (l : list Alien) :
  Forall2 worn l (fst (damageAlien id l))
  /\ (forall a', snd (damageAlien id l) = Some a' ->
                 In a' (fst (damageAlien id l))).
Proof.
  induction l as [|a l [IH1 IH2]]; cbn [damageAlien].
  - split; [constructor | discriminate].
  - destruct (String.eqb (a_id a) id); cbn [fst snd].
    + split.
      * constructor; [|apply Forall2_worn_refl].
        unfold worn. cbn [set_a_hp a_isBoss a_hp]. split; [reflexivity | lia].
      * intros a' [= <-]. now left.
    + destruct (damageAlien id l) as [l' d]. cbn [fst snd] in *. split.
      * constructor; [split; [reflexivity | lia] | exact IH1].
      * intros a' H. right. now apply IH2.
Qed.

Lemma worn_deadBoss (l l' : list Alien) :
  Forall2 worn l l' ->
  existsb deadBoss l = true -> existsb deadBoss l' = true.
Proof.
  induction 1 as [|a b l l' [Hb Hh] _ IH]; cbn [existsb]; [discriminate|].
  rewrite !orb_true_iff. intros [H|H]; [left | right; now apply IH].
  unfold deadBoss in *. rewrite andb_true_iff in *. destruct H as [H1 H2].
  rewrite Hb, H1. split; [reflexivity|]. apply Z.leb_le. apply Z.leb_le in H2. lia.
Qed.

Lemma worn_bossCount (l l' : list Alien) :
  Forall2 worn l l' ->
  List.length (filter a_isBoss l') = List.length (filter a_isBoss l).
Proof.
  induction 1 as [|a b l l' [Hb Hh] _ IH]; cbn [filter]; [reflexivity|].
  rewrite Hb. destruct (a_isBoss a); cbn [List.length]; now rewrite IH.
Qed.

Lemma collideBullet_sound (als : list Alien) (c : Collisions) (b : Bullet) :
  collisionsSound als c -> collisionsSound als (collideBullet c b).
Proof.
  intros [Hw Hd]. unfold collideBullet.
  destruct (idIn (b_id b) (bulletsToRemove c)); [now split|].
  destruct ((b_y b <? -4)%float || (5 <? b_y b)%float); [now split|].
  destruct (find (bulletHits b) (c_aliens c)) as [a|]; [|now split].
  destruct (damageAlien_worn (a_id a) (c_aliens c)) as [W I].
  destruct (damageAlien (a_id a) (c_aliens c)) as [l' d].
  cbn [fst snd] in *. unfold collisionsSound.
  cbn [c_aliens destroyedAliens]. split.
  - eapply Forall2_worn_trans; eassumption.
  - destruct d as [a'|].
    + destruct (Z.leb_spec (a_hp a') 0) as [Hhp|Hhp].
      * rewrite existsb_app. cbn [existsb]. rewrite orb_false_r, orb_true_iff.
        intros [H|H].
        -- eapply worn_deadBoss; [exact W | now apply Hd].
        -- apply existsb_exists. exists a'. split; [now apply I|].
           unfold deadBoss. rewrite H. apply Z.leb_le. exact Hhp.
      * intros H. eapply worn_deadBoss; [exact W | now apply Hd].
    + intros H. eapply worn_deadBoss; [exact W | now apply Hd].
Qed.

Lemma collide_sound (bs : list Bullet) (als : list Alien) (h : Z) :
  collisionsSound als (collide bs als h).
Proof.
  unfold collide. apply fold_left_invariant.
  - intros acc x. apply collideBullet_sound.
  - split; [apply Forall2_worn_refl | discriminate].
Qed.

Lemma dead_boss_filtered (l : list Alien) :
  List.length (filter a_isBoss l) = 1%nat ->
  existsb deadBoss l = true ->
  List.length (filter a_isBoss (filter (fun a => 0 <? a_hp a) l)) = 0%nat.
Proof.
  induction l as [|a l IH]; cbn [filter existsb]; [discriminate|].
  unfold deadBoss at 1.
  destruct (a_isBoss a) eqn:Hb; cbn [List.length andb orb].
  - intros Hc Hd.
    assert (Hn : List.length (filter a_isBoss l) = 0%nat) by lia.
    pose proof (filter_filter_length a_isBoss (fun a => 0 <? a_hp a) l) as Hle.
    destruct (Z.leb_spec (a_hp a) 0) as [Hhp|Hhp].
    + destruct (Z.ltb_spec 0 (a_hp a)); [lia|]. lia.
    + exfalso. cbn [orb] in Hd.
      apply existsb_exists in Hd. destruct Hd as (x & Hx & Hdx).
      unfold deadBoss in Hdx. apply andb_true_iff in Hdx. destruct Hdx as [Hbx _].
      assert (In x (filter a_isBoss l)) as Hin by (apply filter_In; now split).
      destruct (filter a_isBoss l); [contradiction | discriminate].
  - intros Hc Hd.
    destruct (0 <? a_hp a); cbn [filter]; try rewrite Hb; now apply IH.
Qed.

Lemma processKill_bossActive (e : Env) (t : Z) (s : GameState) (k : nat)
      (alien : Alien) :
  bossActive (fst (processKill e t (s, k) alien))
  = if a_isBoss alien then false else bossActive s.
Proof.
  unfold processKill, creditKill, comboUp, perfectBonus, killScore,
    dropPowerUp, bossDefeated; gs.
  destruct (a_isBoss alien); gs; split_ifs;
    try (destruct (rewardPowerUp (a_type alien)); gs); reflexivity.
Qed.

Lemma processKills_bossActive (e : Env) (t : Z) (l : list Alien) :
  forall s k,
    bossActive (fst (fold_left (processKill e t) l (s, k)))
    = if existsb a_isBoss l then false else bossActive s.
Proof.
  induction l as [|a l IH]; intros s k; cbn [fold_left existsb]; [reflexivity|].
  destruct (processKill e t (s, k) a) as [s1 k1] eqn:E.
  rewrite IH.
  replace s1 with (fst (processKill e t (s, k) a)) by now rewrite E.
  rewrite processKill_bossActive.
  destruct (a_isBoss a), (existsb a_isBoss l); reflexivity.
Qed.

Lemma bossesLe_trans (s1 s2 s3 : GameState) :
  bossesLe s1 s2 -> bossesLe s2 s3 -> bossesLe s1 s3.
Proof. unfold bossesLe. intros [A B] [C D]. split; [lia | congruence]. Qed.

Lemma advancePhase_bosses (b : bool) (t : Z) (s : GameState) :
  bossCount (advancePhase b t s) = bossCount s
  /\ bossActive (advancePhase b t s) = bossActive s.
Proof.
  unfold bossCount, advancePhase, movePhase, powerUpPhase. gs. split.
  - rewrite filter_map_isBoss_length by (intros; apply moveAlien_isBoss).
    unfold levelPhase, idlePhase, missWindowPhase, decayPhase. gs.
    split_ifs; reflexivity.
  - unfold levelPhase, idlePhase, missWindowPhase, decayPhase. gs.
    split_ifs; reflexivity.
Qed.

Lemma cannonPhase_bosses (s : GameState) : bossesLe s (cannonPhase s).
Proof.
  unfold bossesLe, bossCount, cannonPhase.
  destruct (find (cannonHits s) (aliens s)); gs; [|split; [lia | reflexivity]].
  split_ifs; (split; [apply filter_filter_length | reflexivity]).
Qed.

Lemma removeById_bosses (id : string) (l : list Alien) :
  (List.length (filter a_isBoss (removeById id l))
   <= List.length (filter a_isBoss l))%nat.
Proof. apply filter_filter_length. Qed.

Lemma escapeStep_bosses (m : bool) (t : Z) (p : ScorePressure)
      (s : GameState) (a : Alien) :
  bossesLe s (escapeStep m t p s a).
Proof.
  unfold bossesLe, bossCount, escapeStep, missPenalty. gs.
  split_ifs; (split; [try apply removeById_bosses; reflexivity | reflexivity]).
Qed.

Lemma escapePhase_bosses (m : bool) (t : Z) (p : ScorePressure) (s : GameState) :
  bossesLe s (escapePhase m t p s).
Proof.
  unfold escapePhase. apply (fold_left_invariant (bossesLe s)).
  - intros acc x H. eapply bossesLe_trans; [exact H | apply escapeStep_bosses].
  - split; [lia | reflexivity].
Qed.

(** The combat phase: the flag falls when a boss is among the destroyed, and
    the bosses that remain are bosses that were there. *)
Lemma combatPhase_bosses (e : Env) (t : Z) (s : GameState) :
  let c := collisionsOf s in
  (bossCount (combatPhase e t s) <= bossCount s)%nat
  /\ bossActive (combatPhase e t s)
     = (if existsb a_isBoss (destroyedAliens c) then false else bossActive s)
  /\ (bossCount s = 1%nat -> existsb a_isBoss (destroyedAliens c) = true ->
      bossCount (combatPhase e t s) = 0%nat).
Proof.
  cbv zeta. unfold bossCount, combatPhase, processKills. gs.
  match goal with
  | |- context [fold_left (processKill e t) ?l (?s0, ?k)] =>
      pose proof (processKills_combo_cases e t l s0 k) as H;
      pose proof (processKills_bossActive e t l s0 k) as HB
  end.
  cbv zeta in H. gs_in H. gs_in HB.
  destruct H as (_ & _ & _ & _ & _ & Ha & _).
  rewrite Ha, HB.
  destruct (collide_sound (bullets s) (aliens s) (shotsHit s)) as [W D].
  fold (collisionsOf s) in W, D.
  pose proof (worn_bossCount _ _ W) as Hcount.
  split; [|split].
  - etransitivity; [apply filter_filter_length|]. lia.
  - reflexivity.
  - intros H1 Hd. apply dead_boss_filtered; [lia | now apply D].
Qed.

Lemma tickWith_bosses (i m : bool) (e : Env) (s : GameState) :
  let c := collisionsOf (advancePhase i (clock e 0%nat) s) in
  (bossCount (tickWith i m e s) <= bossCount s)%nat
  /\ bossActive (tickWith i m e s)
     = (if existsb a_isBoss (destroyedAliens c) then false else bossActive s)
  /\ (bossCount s = 1%nat -> existsb a_isBoss (destroyedAliens c) = true ->
      bossCount (tickWith i m e s) = 0%nat).
Proof.
  cbv zeta. unfold tickWith.
  set (t := clock e 0%nat).
  set (s1 := advancePhase i t s).
  destruct (advancePhase_bosses i t s) as [A1 A2]. fold s1 in A1, A2.
  destruct (combatPhase_bosses e t s1) as (C1 & C2 & C3).
  set (s2 := combatPhase e t s1) in *.
  destruct (cannonPhase_bosses s2) as [D1 D2].
  set (s3 := cannonPhase s2) in *.
  destruct (escapePhase_bosses m t (getScorePressure (level s1)) s3) as [E1 E2].
  rewrite E2, D2, C2, A2. split; [lia|]. split; [reflexivity|].
  intros H1 Hd. rewrite <- A1 in H1. specialize (C3 H1 Hd). lia.
Qed.

Lemma spawnAlien_bosses (p : SpawnAlienPayload) (w : World) :
  let s' := game (spawnAlien p w) in
  if isBossSpawn (SpawnAlien p)
  then bossActive s' = true /\ bossCount s' = S (bossCount (game w))
  else bossActive s' = bossActive (game w) /\ bossCount s' = bossCount (game w).
Proof.
  cbv zeta. cbn [isBossSpawn]. unfold spawnAlien, generateId, bossCount.
  destruct (match sp_isBoss p with Some b => b | None => false end) eqn:Hb;
    cbn [negb]; rewrite ?andb_false_r, ?andb_true_r.
  - gs. rewrite filter_app, length_app. cbn [filter a_isBoss List.length].
    split; [reflexivity | lia].
  - destruct (ALIEN_LIMIT <=? List.length (aliens (game w)))%nat;
      [split; reflexivity|].
    gs. rewrite filter_app, length_app. cbn [filter a_isBoss List.length].
    split; [reflexivity | lia].
Qed.

Lemma spawnBoss_bosses (hp : Z) (ty : AlienType) (w : World) :
  bossActive (game (spawnBoss hp ty w)) = true
  /\ bossCount (game (spawnBoss hp ty w)) = S (bossCount (game w)).
Proof.
  unfold spawnBoss, generateId, bossCount. gs.
  rewrite filter_app, length_app. cbn [filter a_isBoss List.length].
  split; [reflexivity | lia].
Qed.

Lemma fire_bosses (e : Env) (w : World) :
  bossActive (game (fire e w)) = bossActive (game w)
  /\ bossCount (game (fire e w)) = bossCount (game w).
Proof.
  unfold bossCount. rewrite fire_aliens. split; [|reflexivity].
  unfold fire, generateId. gs. split_ifs; reflexivity.
Qed.

(** Quiet actions leave the flag and the bosses as they are. *)
Lemma quiet_bosses (load : nat -> Z) (e : Env) (a : Action) (w : World) :
  quietAction a = true ->
  bossActive (game (reducer load e a w)) = bossActive (game w)
  /\ bossCount (game (reducer load e a w)) = bossCount (game w).
Proof.
  intros Hq. destruct a; cbn [quietAction] in Hq; try discriminate;
    cbn [reducer onGame game]; try (split; reflexivity).
  - apply fire_bosses.
  - pose proof (spawnAlien_bosses p w) as H. cbv zeta in H.
    apply negb_true_iff in Hq. rewrite Hq in H. exact H.
  - unfold bossCount, nextWave. gs. split_ifs; split; reflexivity.
Qed.

Lemma reducer_bossFree (load : nat -> Z) (e : Env) (a : Action) (w : World) :
  bossFree (game w) ->
  if isBossSpawn a then oneBoss (game (reducer load e a w))
  else bossFree (game (reducer load e a w)).
Proof.
  unfold bossFree, oneBoss. intros [Hf Hc].
  destruct (quietAction a) eqn:Hq.
  - destruct (quiet_bosses load e a w Hq) as [Q1 Q2].
    replace (isBossSpawn a) with false
      by (destruct a; cbn in *; try reflexivity; try discriminate;
          now destruct (match sp_isBoss p with Some b => b | None => false end)).
    split; congruence.
  - destruct a; cbn [quietAction] in Hq; try discriminate;
      cbn [reducer onGame game isBossSpawn].
    + pose proof (spawnAlien_bosses p w) as H. cbv zeta in H.
      apply negb_false_iff in Hq. cbn [isBossSpawn] in *. rewrite Hq in *.
      destruct H as [H1 H2]. split; [exact H1 | lia].
    + destruct (tickWith_bosses true true e (game w)) as (T1 & T2 & _).
      unfold tick. rewrite T2, Hf. split; [now destruct (existsb _ _) | lia].
    + split; reflexivity.
    + split; [exact Hf | reflexivity].
    + destruct (spawnBoss_bosses hp type w) as [H1 H2]. split; [exact H1 | lia].
    + unfold updateBossHP, bossCount. gs. split_ifs; split; assumption.
Qed.

(** C8, as the code has it.  [reset] leaves no boss and the flag down.  From
    a state without boss and with the flag down, a boss spawn leads to
    exactly one boss with the flag up and every other action keeps the state
    free of bosses.  From a state with one boss and the flag up, the actions
    that touch neither stay there, a tick in which a bullet destroys the boss
    removes it and lowers the flag, and a tick that leaves the boss on screen
    leaves the flag up.  In all these states the flag is up exactly when one
    boss is on screen. *)
Theorem boss_flag_tracking (load : nat -> Z) (e : Env) (w : World) :
  bossFree (reset load e (game w))
  /\ (bossFree (game w) ->
      forall a,
        (if isBossSpawn a then oneBoss (game (reducer load e a w))
         else bossFree (game (reducer load e a w)))
        /\ bossFlagConsistent (game (reducer load e a w)))
  /\ (oneBoss (game w) ->
      (forall q, quietAction q = true ->
                 oneBoss (game (reducer load e q w))
                 /\ bossFlagConsistent (game (reducer load e q w)))
      /\ (existsb a_isBoss
            (destroyedAliens (collisionsOf (afterAdvance e (game w)))) = true ->
          bossFree (tick e (game w)) /\ bossFlagConsistent (tick e (game w)))
      /\ (bossCount (tick e (game w)) = 1%nat ->
          oneBoss (tick e (game w)) /\ bossFlagConsistent (tick e (game w)))).
Proof.
  split; [split; reflexivity|]. split.
  - intros H0 a.
    pose proof (reducer_bossFree load e a w H0) as R.
    split; [exact R|].
    destruct (isBossSpawn a);
      [now apply oneBoss_consistent | now apply bossFree_consistent].
  - intros [F C].
    destruct (tickWith_bosses true true e (game w)) as (_ & T2 & T3).
    unfold tick, afterAdvance.
    set (s' := tickWith true true e (game w)) in *.
    set (d := existsb a_isBoss _) in *.
    clearbody s' d.
    split; [|split].
    + intros q Hq. destruct (quiet_bosses load e q w Hq) as [Q1 Q2].
      assert (O : oneBoss (game (reducer load e q w))) by (split; congruence).
      split; [exact O | now apply oneBoss_consistent].
    + intros Hd.
      assert (B : bossFree s').
      { unfold bossFree. rewrite T2, Hd. split; [reflexivity | now apply T3]. }
      split; [exact B | now apply bossFree_consistent].
    + intros H1.
      assert (O : oneBoss s').
      { split; [|exact H1]. rewrite T2.
        destruct d; [|exact F].
        specialize (T3 C eq_refl). congruence. }
      split; [exact O | now apply oneBoss_consistent].
Qed.

Lemma boss_flag_tracking_witness :
  let e := envAt 16 0 in
  let w0 := initialWorld load0 in
  let w1 := run load0 bossArrivesTrace (initialWorld load0) in
  let w2 := run load0 bossDuelTrace (initialWorld load0) in
  (bossFree (game w0) /\ oneBoss (game (reducer load0 e (SpawnBoss 40 Red) w0)))
  /\ (oneBoss (game w1)
      /\ oneBoss (game (reducer load0 e Fire w1))
      /\ bossCount (tick e (game w1)) = 1%nat
      /\ oneBoss (tick e (game w1)))
  /\ (oneBoss (game w2)
      /\ existsb a_isBoss
           (destroyedAliens (collisionsOf (afterAdvance e (game w2)))) = true
      /\ bossFree (tick e (game w2))).
Proof.
  cbv zeta.
  assert (F0 : bossFree (game (initialWorld load0))) by (split; reflexivity).
  assert (O1 : oneBoss (game (run load0 bossArrivesTrace (initialWorld load0))))
    by (split; vm_compute; reflexivity).
  assert (O2 : oneBoss (game (run load0 bossDuelTrace (initialWorld load0))))
    by (split; vm_compute; reflexivity).
  assert (C1 : bossCount
                 (tick (envAt 16 0)
                    (game (run load0 bossArrivesTrace (initialWorld load0))))
               = 1%nat) by (vm_compute; reflexivity).
  assert (D2 : existsb a_isBoss
                 (destroyedAliens
                    (collisionsOf
                       (afterAdvance (envAt 16 0)
                          (game (run load0 bossDuelTrace (initialWorld load0))))))
               = true) by (vm_compute; reflexivity).
  split; [split; [exact F0|]|split; [split; [exact O1|split; [|split; [exact C1|]]]
                              |split; [exact O2|split; [exact D2|]]]].
  - exact (proj1 (proj1 (proj2 (boss_flag_tracking load0 (envAt 16 0)
                                  (initialWorld load0))) F0 (SpawnBoss 40 Red))).
  - exact (proj1 (proj1 (proj2 (proj2 (boss_flag_tracking load0 (envAt 16 0)
             (run load0 bossArrivesTrace (initialWorld load0)))) O1)
             Fire eq_refl)).
  - exact (proj1 (proj2 (proj2 (proj2 (proj2 (boss_flag_tracking load0 (envAt 16 0)
             (run load0 bossArrivesTrace (initialWorld load0)))) O1)) C1)).
  - exact (proj1 (proj1 (proj2 (proj2 (proj2 (boss_flag_tracking load0 (envAt 16 0)
             (run load0 bossDuelTrace (initialWorld load0)))) O2)) D2)).
Defined.

(** The equivalence does not hold in every reachable state: after [spawnBoss] and
    [updateBossHP(0)] the flag is down while the boss is still on screen. *)
Lemma boss_flag_down_with_boss_alive :
  ~ bossFlagConsistent (game (run load0 bossFlagTrace (initialWorld load0))).
Proof.
  unfold bossFlagConsistent. intros [_ H].
  assert (C : bossCount (game (run load0 bossFlagTrace (initialWorld load0)))
              = 1%nat) by (vm_compute; reflexivity).
  specialize (H C). vm_compute in H. discriminate.
Qed.

(** Nor does a tick keep it when the boss leaves the screen without being
    shot: a boss that touches the cannon is removed, a life is lost, and the
    flag stays up with no boss on screen. *)
Lemma boss_rams_cannon_flag_stays_up :
  let s := game (run load0 bossOnCannonTrace (initialWorld load0)) in
  oneBoss s
  /\ bossCount (tick (envAt 16 0) s) = 0%nat
  /\ bossActive (tick (envAt 16 0) s) = true
  /\ lives (tick (envAt 16 0) s) = 2.
Proof. vm_compute. repeat split. Qed.

(** ** The perfect bonus *)

Lemma fold_processKill_score (e : Env) (t : Z) (l : list Alien) :
  forall s k,
    score (fst (fold_left (processKill e t) l (s, k)))
    = score s + killPoints (scoreMultiplier s) l
      + PERFECT_COMBO_BONUS * Z.of_nat (perfectAwards (combo s) (List.length l)).
Proof.
  induction l as [|a l IH]; intros s k;
    cbn [fold_left killPoints perfectAwards List.length].
  - cbn [fst]. lia.
  - destruct (processKill e t (s, k) a) as [s1 k1] eqn:E.
    assert (Hs1 : s1 = fst (processKill e t (s, k) a)) by now rewrite E.
    rewrite IH, Hs1, processKill_score, processKill_scoreMultiplier,
      processKill_combo.
    destruct (combo s + 1 =? 50); lia.
Qed.

Lemma perfectAwards_once (c : Z) (n : nat) :
  perfectAwards c n
  = if (c <? 50) && (50 <=? c + Z.of_nat n) then 1%nat else 0%nat.
Proof.
  revert c. induction n as [|n IH]; intros c; cbn [perfectAwards].
  - destruct (Z.ltb_spec c 50), (Z.leb_spec 50 (c + Z.of_nat 0)); cbn; lia.
  - rewrite IH.
    destruct (Z.eqb_spec (c + 1) 50), (Z.ltb_spec (c + 1) 50),
      (Z.leb_spec 50 (c + 1 + Z.of_nat n)), (Z.ltb_spec c 50),
      (Z.leb_spec 50 (c + Z.of_nat (S n))); cbn; lia.
Qed.

Lemma getComboMultiplier_table (c : Z) :
  multiplier (getComboMultiplier c)
  = if c <=? 5 then 1 else if c <=? 15 then 2 else if c <=? 30 then 3
    else if c <=? 49 then 4 else 5.
Proof.
  unfold getComboMultiplier.
  destruct (Z.leb_spec 50 c), (Z.leb_spec 31 c), (Z.leb_spec 16 c),
    (Z.leb_spec 6 c), (Z.leb_spec c 5), (Z.leb_spec c 15), (Z.leb_spec c 30),
    (Z.leb_spec c 49); cbn [multiplier]; lia.
Qed.

(** C6, as the code has it.  The kill loop adds the +10000 bonus at every kill
    that takes the combo to exactly 50: at most once within a tick, and once
    more each time the counter comes back to 50 after a reset or a decay.
    The multiplier is 1 up to combo 5, 2 up to 15, 3 up to 30, 4 up to 49 and
    5 from 50 on. *)
Theorem perfect_bonus_at_each_fifty
        (e : Env) (t : Z) (l : list Alien) (s : GameState) (c : Z) :
  score (processKills e t l s)
  = score s + killPoints (scoreMultiplier s) l
    + 10000 * Z.of_nat (perfectAwards (combo s) (List.length l))
  /\ combo (processKills e t l s) = combo s + Z.of_nat (List.length l)
  /\ perfectAwards (combo s) (List.length l)
     = (if (combo s <? 50) && (50 <=? combo s + Z.of_nat (List.length l))
        then 1%nat else 0%nat)
  /\ multiplier (getComboMultiplier c)
     = (if c <=? 5 then 1 else if c <=? 15 then 2 else if c <=? 30 then 3
        else if c <=? 49 then 4 else 5).
Proof.
  unfold processKills. split; [apply fold_processKill_score|].
  split; [apply (processKills_combo_cases e t l s 0)|].
  split; [apply perfectAwards_once | apply getComboMultiplier_table].
Qed.

(** The bonus is not one-time: in this run from the initial state it is
    awarded in two different ticks, and the final score holds both. *)
Lemma perfect_bonus_awarded_twice :
  awardsOfRun load0 twoPerfectTrace (initialWorld load0) = 2%nat
  /\ score (game (run load0 twoPerfectTrace (initialWorld load0)))
     = 50 * 100 + 10000 + 50 * 500 + 10000.
Proof. vm_compute. split; reflexivity. Qed.

(** ** What a kill is worth *)

Lemma hasPowerUp_expire (p : PowerUp) (t : Z) (l : list ActivePowerUp) :
  hasPowerUp p l = false -> hasPowerUp p (expirePowerUps t l) = false.
Proof.
  unfold hasPowerUp, expirePowerUps.
  induction l as [|x l IH]; cbn [existsb filter]; [reflexivity|].
  intros H. apply orb_false_iff in H. destruct H as [H1 H2].
  destruct (negb (expiresAt x <=? t)); cbn [existsb]; [rewrite H1|]; now apply IH.
Qed.

Lemma advancePhase_scoreMultiplier (b : bool) (t : Z) (s : GameState) :
  scoreMultiplier (advancePhase b t s)
  = multiplier (getComboMultiplier (combo s))
    * (if hasPowerUp ScoreMultiplier (expirePowerUps t (activePowerUps s))
       then 2 else 1).
Proof.
  unfold advancePhase, levelPhase, idlePhase, missWindowPhase, decayPhase, powerUpPhase, movePhase.
  gs. split_ifs; reflexivity.
Qed.

Lemma advancePhase_score (b : bool) (t : Z) (s : GameState) :
  score (advancePhase b t s) = score s.
Proof.
  unfold advancePhase, levelPhase, idlePhase, missWindowPhase, decayPhase, powerUpPhase, movePhase.
  gs. split_ifs; reflexivity.
Qed.

Lemma combatPhase_score (e : Env) (t : Z) (s : GameState) :
  score (combatPhase e t s)
  = score s + killPoints (scoreMultiplier s) (destroyedAliens (collisionsOf s))
    + PERFECT_COMBO_BONUS
      * Z.of_nat (perfectAwards (combo s)
                    (List.length (destroyedAliens (collisionsOf s)))).
Proof.
  unfold combatPhase, processKills. gs.
  rewrite fold_processKill_score. gs. reflexivity.
Qed.

Lemma calculateKillScore_closed (hp wv c : Z) (isBoss : bool) (m : DifficultyMode) :
  calculateKillScore hp wv c isBoss m
  = match m with Normal => 500 | Elite => 750 | Mastery => 1000 end
    * hp * wv * multiplier (getComboMultiplier c) * (if isBoss then 5 else 1).
Proof.
  unfold calculateKillScore, Qfloor, modeMultiplierOf.
  set (k := multiplier (getComboMultiplier c)).
  set (b := if isBoss then 5 else 1).
  clearbody k b.
  destruct m; unfold Qmult, inject_Z; cbn [Qnum Qden Pos.mul];
    rewrite ?Z.mul_1_r, ?Z.div_1_r.
  - reflexivity.
  - replace (500 * hp * wv * k * 3 * b) with ((750 * hp * wv * k * b) * 2) by ring.
    now rewrite Z.div_mul by lia.
  - ring.
Qed.

(** C1, as the code has it.  [tick] credits each destroyed alien with the
    points of its colour times the score multiplier of the frame (the combo
    multiplier of the combo at the start of the tick, doubled by an active
    score power-up) times 5 for a boss, on top of the perfect bonus; the
    combat phase adds exactly these credits.  With combo at most 5, no score
    power-up and no boss the credit is the colour's points.  The function
    [calculateKillScore], which [tick] does not call, returns
    [500 * alienHP * wave * comboMultiplier * modeMultiplier * bossMultiplier]
    with mode multiplier 1, 1.5 or 2. *)
Theorem kill_credit
        (e : Env) (s : GameState) (k : nat) (alien : Alien)
        (hp wv c : Z) (isBoss : bool) (m : DifficultyMode) :
  let t := clock e 0%nat in
  let s1 := advancePhase true t s in
  score (fst (processKill e t (s1, k) alien))
  = score s1 + (if combo s1 + 1 =? 50 then 10000 else 0)
    + rewardPoints (a_type alien) * scoreMultiplier s1
      * (if a_isBoss alien then 5 else 1)
  /\ scoreMultiplier s1
     = multiplier (getComboMultiplier (combo s))
       * (if hasPowerUp ScoreMultiplier (expirePowerUps t (activePowerUps s))
          then 2 else 1)
  /\ score (combatPhase e t s1)
     = score s
       + killPoints (scoreMultiplier s1) (destroyedAliens (collisionsOf s1))
       + 10000 * Z.of_nat (tickAwards e s)
  /\ (combo s <= 5 ->
      hasPowerUp ScoreMultiplier (activePowerUps s) = false ->
      a_isBoss alien = false ->
      score (fst (processKill e t (s1, k) alien))
      = score s1 + rewardPoints (a_type alien))
  /\ calculateKillScore hp wv c isBoss m
     = match m with Normal => 500 | Elite => 750 | Mastery => 1000 end
       * hp * wv * multiplier (getComboMultiplier c) * (if isBoss then 5 else 1).
Proof.
  cbv zeta.
  split; [apply processKill_score|].
  split; [apply advancePhase_scoreMultiplier|].
  split.
  { rewrite combatPhase_score, advancePhase_score.
    unfold tickAwards, PERFECT_COMBO_BONUS. reflexivity. }
  split; [|apply calculateKillScore_closed].
  intros Hc Hp Hb.
  rewrite processKill_score, advancePhase_scoreMultiplier, Hb.
  rewrite (hasPowerUp_expire _ _ _ Hp), getComboMultiplier_table.
  destruct (advancePhase_combo true (clock e 0%nat) s) as [Hle _].
  destruct (Z.eqb_spec (combo (advancePhase true (clock e 0%nat) s) + 1) 50);
    [lia|].
  destruct (Z.leb_spec (combo s) 5); lia.
Qed.

Lemma kill_credit_witness :
  let e := envAt 16 0 in
  let s := game (run load0 firstKillTrace (initialWorld load0)) in
  let alien := {| a_id := "e1"; a_x := 0; a_y := (-1.83)%float; a_type := Red;
                  a_hp := 0; a_maxHp := 1; a_isBoss := false; a_vx := 0 |} in
  let s1 := advancePhase true 16 s in
  score (fst (processKill e 16 (s1, 0%nat) alien))
  = score s1 + rewardPoints (a_type alien).
Proof.
  cbv zeta.
  apply (kill_credit (envAt 16 0)
           (game (run load0 firstKillTrace (initialWorld load0))) 0
           {| a_id := "e1"; a_x := 0; a_y := (-1.83)%float; a_type := Red;
              a_hp := 0; a_maxHp := 1; a_isBoss := false; a_vx := 0 |}
           1 1 0 false Normal).
  - vm_compute. discriminate.
  - vm_compute. reflexivity.
  - reflexivity.
Defined.

(** The [calculateKillScore] formula is not what [tick] credits: a red alien
    with one hit point, killed in wave 1 at combo 0 in normal mode, is worth
    100, neither [calculateKillScore 1 1 0] = 500 nor 500 times the colour's
    points. *)
Lemma kill_credit_differs_from_formula :
  let e := envAt 16 0 in
  let s := game (run load0 firstKillTrace (initialWorld load0)) in
  map (fun a => (a_type a, a_maxHp a, a_isBoss a))
      (destroyedAliens (collisionsOf (advancePhase true 16 s)))
  = [ (Red, 1, false) ]
  /\ (wave s, combo s, difficultyMode s) = (1, 0, Normal)
  /\ score (tick e s) - score s = 100
  /\ score (tick e s) - score s
     <> calculateKillScore 1 (wave s) (combo s) false (difficultyMode s)
  /\ score (tick e s) - score s <> 500 * rewardPoints Red.
Proof. vm_compute. repeat split; discriminate. Qed.

(** ** Victory on a boss kill *)

Lemma processKill_victory (e : Env) (t : Z) (s : GameState) (k : nat)
      (alien : Alien) :
  victoryFields (fst (processKill e t (s, k) alien))
  = if a_isBoss alien then victoryAfterBoss (level s) (victoryFields s)
    else victoryFields s.
Proof.
  unfold victoryFields, victoryAfterBoss, processKill, creditKill, comboUp,
    perfectBonus, killScore, dropPowerUp, bossDefeated; gs.
  destruct (a_isBoss alien); destruct (rewardPowerUp (a_type alien)); gs;
    split_ifs; reflexivity.
Qed.

Lemma victoryAfterBoss_idem (lvl : Z) (old : GamePhase * option VictoryKind * string) :
  victoryAfterBoss lvl (victoryAfterBoss lvl old) = victoryAfterBoss lvl old.
Proof. unfold victoryAfterBoss. split_ifs; reflexivity. Qed.

Lemma processKills_victory (e : Env) (t : Z) (l : list Alien) :
  forall s k,
    victoryFields (fst (fold_left (processKill e t) l (s, k)))
    = if existsb a_isBoss l then victoryAfterBoss (level s) (victoryFields s)
      else victoryFields s.
Proof.
  induction l as [|a l IH]; intros s k; cbn [fold_left existsb]; [reflexivity|].
  destruct (processKill e t (s, k) a) as [s1 k1] eqn:E.
  assert (Hs1 : s1 = fst (processKill e t (s, k) a)) by now rewrite E.
  rewrite IH, Hs1, processKill_victory, processKill_level.
  destruct (a_isBoss a), (existsb a_isBoss l); cbn [orb];
    try reflexivity.
  apply victoryAfterBoss_idem.
Qed.

Lemma advancePhase_victory (b : bool) (t : Z) (s : GameState) :
  victoryFields (advancePhase b t s) = victoryFields s
  /\ level (advancePhase b t s) = calculateLevelFromScore (score s).
Proof.
  unfold victoryFields, advancePhase, levelPhase, idlePhase, missWindowPhase,
    decayPhase, powerUpPhase, movePhase.
  gs. split_ifs; split; reflexivity.
Qed.

Lemma combatPhase_victory (e : Env) (t : Z) (s : GameState) :
  victoryFields (combatPhase e t s)
  = if existsb a_isBoss (destroyedAliens (collisionsOf s))
    then victoryAfterBoss (level s) (victoryFields s)
    else victoryFields s.
Proof.
  unfold combatPhase, processKills.
  match goal with
  | |- context [fold_left (processKill e t) ?l (?s0, ?k)] =>
      pose proof (processKills_victory e t l s0 k) as H
  end.
  unfold victoryFields in *. gs. gs_in H. exact H.
Qed.

Lemma cannonPhase_victory (s : GameState) :
  statusOrGameOver (status s) (status (cannonPhase s))
  /\ victoryType (cannonPhase s) = victoryType s
  /\ victoryTitle (cannonPhase s) = victoryTitle s.
Proof.
  unfold statusOrGameOver, cannonPhase.
  destruct (find (cannonHits s) (aliens s)); gs; split_ifs; auto.
Qed.

Lemma escapeStep_victory (m : bool) (t : Z) (p : ScorePressure)
      (s : GameState) (a : Alien) :
  statusOrGameOver (status s) (status (escapeStep m t p s a))
  /\ victoryType (escapeStep m t p s a) = victoryType s
  /\ victoryTitle (escapeStep m t p s a) = victoryTitle s.
Proof.
  unfold statusOrGameOver, escapeStep, missPenalty. gs. split_ifs; auto.
Qed.

Lemma escapePhase_victory (m : bool) (t : Z) (p : ScorePressure) (s : GameState) :
  statusOrGameOver (status s) (status (escapePhase m t p s))
  /\ victoryType (escapePhase m t p s) = victoryType s
  /\ victoryTitle (escapePhase m t p s) = victoryTitle s.
Proof.
  unfold escapePhase.
  apply (fold_left_invariant
           (fun r => statusOrGameOver (status s) (status r)
                     /\ victoryType r = victoryType s
                     /\ victoryTitle r = victoryTitle s)).
  - intros acc x (H1 & H2 & H3).
    destruct (escapeStep_victory m t p acc x) as (E1 & E2 & E3).
    rewrite E2, E3. repeat split; try assumption.
    unfold statusOrGameOver in *. destruct E1 as [-> | ->]; auto.
  - unfold statusOrGameOver. auto.
Qed.

(** Victory fields after a whole tick. *)
Lemma tick_victory (e : Env) (s : GameState) :
  let s1 := advancePhase true (clock e 0%nat) s in
  let v := if existsb a_isBoss (destroyedAliens (collisionsOf s1))
           then victoryAfterBoss (calculateLevelFromScore (score s))
                  (victoryFields s)
           else victoryFields s in
  statusOrGameOver (fst (fst v)) (status (tick e s))
  /\ victoryType (tick e s) = snd (fst v)
  /\ victoryTitle (tick e s) = snd v.
Proof.
  cbv zeta. unfold tick, tickWith.
  set (t := clock e 0%nat). set (s1 := advancePhase true t s).
  destruct (advancePhase_victory true t s) as [A1 A2]. fold s1 in A1, A2.
  pose proof (combatPhase_victory e t s1) as C. rewrite A1, A2 in C.
  set (s2 := combatPhase e t s1) in *.
  destruct (cannonPhase_victory s2) as (D1 & D2 & D3).
  set (s3 := cannonPhase s2) in *.
  destruct (escapePhase_victory true t (getScorePressure (level s1)) s3)
    as (E1 & E2 & E3).
  rewrite E2, E3, D2, D3.
  set (v := if existsb a_isBoss (destroyedAliens (collisionsOf s1))
            then victoryAfterBoss (calculateLevelFromScore (score s))
                   (victoryFields s)
            else victoryFields s) in *.
  unfold victoryFields in C.
  assert (Hst : status s2 = fst (fst v)) by now rewrite <- C.
  assert (Hty : victoryType s2 = snd (fst v)) by now rewrite <- C.
  assert (Hti : victoryTitle s2 = snd v) by now rewrite <- C.
  rewrite <- Hst, <- Hty, <- Hti. repeat split.
  unfold statusOrGameOver in *.
  destruct E1 as [-> | ->]; [|now right].
  destruct D1 as [-> | ->]; auto.
Qed.

(** What a boss kill grants, at every level.  When a bullet destroys a boss
    during a tick, the victory fields follow the level of that tick through
    the tests [level >= 100], [level >= 50], [level >= 10]: ultimate from
    level 100, major from 50 to 99, minor from 10 to 49, nothing below 10;
    the status is [Victory] unless the same tick ends the game.  A tick
    without a boss kill never touches the victory fields. *)
Lemma victory_on_boss_defeat (e : Env) (s : GameState) :
  let s1 := advancePhase true (clock e 0%nat) s in
  let lvl := calculateLevelFromScore (score s) in
  let s' := tick e s in
  (existsb a_isBoss (destroyedAliens (collisionsOf s1)) = true ->
   (10 <= lvl < 50 -> victoryType s' = Some Minor
                      /\ victoryTitle s' = "SECTOR CLEARED"
                      /\ statusOrGameOver Victory (status s'))
   /\ (50 <= lvl < 100 -> victoryType s' = Some Major
                          /\ victoryTitle s' = "ELITE SECTOR"
                          /\ statusOrGameOver Victory (status s'))
   /\ (100 <= lvl -> victoryType s' = Some Ultimate
                     /\ victoryTitle s' = "COSMIC SAVIOR"
                     /\ statusOrGameOver Victory (status s'))
   /\ (lvl < 10 -> victoryType s' = victoryType s
                   /\ victoryTitle s' = victoryTitle s
                   /\ statusOrGameOver (status s) (status s')))
  /\ (existsb a_isBoss (destroyedAliens (collisionsOf s1)) = false ->
      victoryType s' = victoryType s
      /\ victoryTitle s' = victoryTitle s
      /\ statusOrGameOver (status s) (status s')).
Proof.
  cbv zeta. destruct (tick_victory e s) as (T1 & T2 & T3). cbv zeta in *.
  split.
  - intros Hb. rewrite Hb in *. unfold victoryAfterBoss in *.
    split; [|split; [|split]]; intros Hl;
      destruct (Z.leb_spec 100 (calculateLevelFromScore (score s))); try lia;
      destruct (Z.leb_spec 50 (calculateLevelFromScore (score s))); try lia;
      destruct (Z.leb_spec 10 (calculateLevelFromScore (score s))); try lia;
      unfold victoryFields in *; cbn [fst snd] in *; repeat split; assumption.
  - intros Hb. rewrite Hb in *. unfold victoryFields in *. cbn [fst snd] in *.
    repeat split; assumption.
Qed.

Lemma victory_at_level_10 :
  let s := game (run load0 bossAtLevel10Trace (initialWorld load0)) in
  let s' := tick (envAt 16 0) s in
  victoryType s' = Some Minor
  /\ victoryTitle s' = "SECTOR CLEARED"
  /\ statusOrGameOver Victory (status s').
Proof.
  cbv zeta.
  destruct (victory_on_boss_defeat (envAt 16 0)
              (game (run load0 bossAtLevel10Trace (initialWorld load0))))
    as [H _].
  apply H.
  - vm_compute. reflexivity.
  - vm_compute. split; [discriminate | reflexivity].
Qed.

(** C3.  The reducer at a level between the thresholds.  The score puts the
    game at level 20, a bullet destroys the boss in the tick, and the tick
    ends in victory: status [Victory], a minor victory, title
    "SECTOR CLEARED".  The table lookup [checkVictoryCondition], which tests
    the level for equality, has no entry at level 20. *)
Theorem victory_granted_at_level_20 :
  let s20 := game (run load0 bossAtLevel20Trace (initialWorld load0)) in
  calculateLevelFromScore (score s20) = 20
  /\ existsb a_isBoss
       (destroyedAliens (collisionsOf (afterAdvance (envAt 16 0) s20))) = true
  /\ status s20 = Idle /\ victoryType s20 = None
  /\ status (tick (envAt 16 0) s20) = Victory
  /\ victoryType (tick (envAt 16 0) s20) = Some Minor
  /\ victoryTitle (tick (envAt 16 0) s20) = "SECTOR CLEARED"
  /\ checkVictoryCondition 20 = None.
Proof. vm_compute. repeat split. Qed.

(** ** Events that reset the combo *)

Lemma tick_phases (e : Env) (s : GameState) :
  tick e s
  = escapePhase true (clock e 0%nat) (getScorePressure (level (afterAdvance e s)))
      (afterCannon e s).
Proof.
  unfold tick, tickWith, afterCannon, afterCombat, afterAdvance.
  cbv zeta. reflexivity.
Qed.

Lemma cannonPhase_combo (s : GameState) :
  (find (cannonHits s) (aliens s) <> None -> combo (cannonPhase s) = 0)
  /\ (combo (cannonPhase s) = combo s \/ combo (cannonPhase s) = 0).
Proof.
  unfold cannonPhase.
  destruct (find (cannonHits s) (aliens s)); gs.
  - split_ifs; auto.
  - split; [congruence | auto].
Qed.

Lemma escapeStep_combo (m : bool) (t : Z) (p : ScorePressure)
      (s : GameState) (a : Alien) :
  let s' := escapeStep m t p s a in
  (combo s' = combo s \/ combo s' = 0)
  /\ (if (a_y a <? -3)%float
      then if m && (MISS_THRESHOLD <=? missesInWindow s + 1)
           then combo s' = 0 /\ missesInWindow s' = 0
           else combo s' = combo s /\ missesInWindow s' = missesInWindow s + 1
      else combo s' = combo s /\ missesInWindow s' = missesInWindow s).
Proof.
  cbv zeta. unfold escapeStep, missPenalty. gs.
  destruct (a_y a <? -3)%float; gs; [|auto].
  destruct (m && (MISS_THRESHOLD <=? missesInWindow s + 1)); gs;
    split_ifs; auto.
Qed.

Lemma escapeFold_combo_zero (m : bool) (t : Z) (p : ScorePressure)
      (l : list Alien) :
  forall s, combo s = 0 -> combo (fold_left (escapeStep m t p) l s) = 0.
Proof.
  induction l as [|a l IH]; intros s H; cbn [fold_left]; [exact H|].
  apply IH. destruct (escapeStep_combo m t p s a) as [[E|E] _]; congruence.
Qed.

Lemma escapeFold_combo_cases (m : bool) (t : Z) (p : ScorePressure)
      (l : list Alien) :
  forall s,
    combo (fold_left (escapeStep m t p) l s) = combo s
    \/ combo (fold_left (escapeStep m t p) l s) = 0.
Proof.
  induction l as [|a l IH]; intros s; cbn [fold_left]; [now left|].
  destruct (escapeStep_combo m t p s a) as [[E|E] _].
  - rewrite <- E. apply IH.
  - right. now apply escapeFold_combo_zero.
Qed.

Lemma escapeFold_third_miss (t : Z) (p : ScorePressure) (l : list Alien) :
  forall s,
    MISS_THRESHOLD <= missesInWindow s + escapees l ->
    missesInWindow s < MISS_THRESHOLD ->
    combo (fold_left (escapeStep true t p) l s) = 0.
Proof.
  unfold escapees.
  induction l as [|a l IH]; intros s H Hlt; cbn [fold_left filter List.length] in *.
  - lia.
  - pose proof (escapeStep_combo true t p s a) as [_ E]. cbv zeta in E.
    destruct (a_y a <? -3)%float; cbn [List.length] in H.
    + cbn [andb] in E.
      destruct (Z.leb_spec MISS_THRESHOLD (missesInWindow s + 1)) as [L|L].
      * destruct E as [E _]. now apply escapeFold_combo_zero.
      * destruct E as [_ E]. apply IH; rewrite E; lia.
    + destruct E as [_ E]. apply IH; rewrite E; lia.
Qed.

Lemma advancePhase_idle (t : Z) (s : GameState) :
  0 < combo s -> IDLE_TIMEOUT <= t - lastShotTime s ->
  combo (advancePhase true t s) = 0.
Proof.
  intros Hc Hi.
  unfold advancePhase, levelPhase, idlePhase, missWindowPhase, decayPhase, powerUpPhase, movePhase. gs.
  destruct (Z.ltb_spec 0 (combo s)); [|lia].
  destruct (Z.leb_spec IDLE_TIMEOUT (t - lastShotTime s)); [|lia].
  cbn [andb]. gs. split_ifs; b2p; gs_all; try reflexivity; lia.
Qed.

Lemma advancePhase_missesInWindow (b : bool) (t : Z) (s : GameState) :
  missesInWindow (advancePhase b t s)
  = if MISS_WINDOW <=? t - missWindowStart s then 0 else missesInWindow s.
Proof.
  unfold advancePhase, levelPhase, idlePhase, missWindowPhase, decayPhase, powerUpPhase, movePhase. gs.
  split_ifs; reflexivity.
Qed.

Lemma combatPhase_combo (e : Env) (t : Z) (s : GameState) :
  combo (combatPhase e t s)
  = combo s + Z.of_nat (List.length (destroyedAliens (collisionsOf s))).
Proof.
  unfold combatPhase, processKills. gs.
  match goal with
  | |- context [fold_left (processKill e t) ?l (?s0, ?k)] =>
      pose proof (processKills_combo_cases e t l s0 k) as H
  end.
  cbv zeta in H. gs_in H. destruct H as (H & _). exact H.
Qed.

Lemma escapeFold_no_third_miss (m : bool) (t : Z) (p : ScorePressure)
      (l : list Alien) :
  forall s,
    missesInWindow s + escapees l < MISS_THRESHOLD ->
    combo (fold_left (escapeStep m t p) l s) = combo s.
Proof.
  unfold escapees.
  induction l as [|a l IH]; intros s H; cbn [fold_left filter List.length] in *;
    [reflexivity|].
  pose proof (escapeStep_combo m t p s a) as [_ E]. cbv zeta in E.
  destruct (a_y a <? -3)%float; cbn [List.length] in H.
  - destruct (Z.leb_spec MISS_THRESHOLD (missesInWindow s + 1)) as [L|L];
      [lia|].
    rewrite andb_false_r in E. destruct E as [E1 E2].
    rewrite IH by (rewrite E2; lia). exact E1.
  - destruct E as [E1 E2]. rewrite IH by (rewrite E2; lia). exact E1.
Qed.

Lemma cannonPhase_no_hit (s : GameState) :
  find (cannonHits s) (aliens s) = None -> cannonPhase s = s.
Proof. intros H. unfold cannonPhase. now rewrite H. Qed.

Lemma pressure_decay_level (l : Z) :
  (0 <? comboDecay (getScorePressure l))%float = true -> 50 <= l.
Proof.
  unfold getScorePressure. destruct (Z.ltb_spec l 50) as [H|H]; [|lia].
  cbn [comboDecay]. intros F. vm_compute in F. discriminate.
Qed.

Lemma decayPhase_combo (p : ScorePressure) (s : GameState) :
  combo (decayPhase p s) = combo s
  \/ (0 < combo s /\ (0 <? comboDecay p)%float = true
      /\ combo (decayPhase p s) = combo s - 1).
Proof.
  unfold decayPhase.
  destruct (Z.ltb_spec 0 (combo s)) as [C|C]; cbn [andb]; [|now left].
  destruct (0 <? comboDecay p)%float; [|now left].
  gs. destruct (comboTimer s - 16 <=? 0); gs; [|now left].
  right. repeat split; [assumption | lia].
Qed.

Lemma advancePhase_quiet (t : Z) (s : GameState) :
  ~ (0 < combo s /\ IDLE_TIMEOUT <= t - lastShotTime s) ->
  combo (advancePhase true t s) = combo s
  \/ (0 < combo s /\ 50 <= calculateLevelFromScore (score s)
      /\ combo (advancePhase true t s) = combo s - 1).
Proof.
  intros Hq. unfold advancePhase. cbv zeta.
  set (s1 := set_comboTier _ (levelPhase s)).
  assert (H1 : combo s1 = combo s /\ lastShotTime s1 = lastShotTime s
               /\ level s1 = calculateLevelFromScore (score s))
    by (unfold s1, levelPhase; gs; repeat split).
  destruct H1 as (C1 & T1 & L1).
  assert (H2 : idlePhase true t s1 = s1).
  { unfold idlePhase. rewrite C1, T1. cbn [andb].
    destruct (Z.ltb_spec 0 (combo s)), (Z.leb_spec IDLE_TIMEOUT (t - lastShotTime s));
      cbn [andb]; try reflexivity.
    exfalso. apply Hq. split; assumption. }
  rewrite H2.
  set (s2 := missWindowPhase t s1).
  assert (H3 : combo s2 = combo s /\ level s2 = calculateLevelFromScore (score s))
    by (unfold s2, missWindowPhase; split_ifs; gs; split; assumption).
  destruct H3 as (C2 & L2).
  set (p := getScorePressure (level s2)).
  assert (H4 : forall ci x, combo (movePhase (powerUpPhase ci t x)) = combo x)
    by (intros; unfold movePhase, powerUpPhase; gs; reflexivity).
  rewrite H4.
  destruct (decayPhase_combo p s2) as [D | (D1 & D2 & D3)].
  - left. now rewrite D.
  - right. rewrite D3, C2. repeat split; try lia.
    apply pressure_decay_level. unfold p in D2. now rewrite L2 in D2.
Qed.

Lemma advancePhase_missWindowStart (b : bool) (t : Z) (s : GameState) :
  missWindowStart (advancePhase b t s)
  = if MISS_WINDOW <=? t - missWindowStart s then t else missWindowStart s.
Proof.
  unfold advancePhase, levelPhase, idlePhase, missWindowPhase, decayPhase,
    powerUpPhase, movePhase. gs.
  split_ifs; reflexivity.
Qed.

Lemma processKill_missesInWindow (e : Env) (t : Z) (s : GameState) (k : nat)
      (a : Alien) :
  missesInWindow (fst (processKill e t (s, k) a)) = missesInWindow s.
Proof.
  unfold processKill, creditKill, comboUp, perfectBonus, killScore,
    dropPowerUp, bossDefeated; gs.
  destruct (a_isBoss a); gs; split_ifs;
    try (destruct (rewardPowerUp (a_type a)); gs); reflexivity.
Qed.

Lemma combatPhase_missesInWindow (e : Env) (t : Z) (s : GameState) :
  missesInWindow (combatPhase e t s) = missesInWindow s.
Proof.
  unfold combatPhase, processKills.
  match goal with
  | |- missesInWindow (set_bullets _ (set_aliens _ ?r)) = _ =>
      transitivity (missesInWindow r); [gs; reflexivity|]
  end.
  match goal with
  | |- missesInWindow (fst (fold_left _ _ (?s0, _))) = _ =>
      transitivity (missesInWindow s0); [|gs; reflexivity]
  end.
  match goal with
  | |- missesInWindow (fst (fold_left ?f ?l (?s0, ?k))) = ?m =>
      apply (fold_left_invariant (fun acc => missesInWindow (fst acc) = m) f l)
  end; [|reflexivity].
  intros [r k] a H. rewrite processKill_missesInWindow. exact H.
Qed.

Lemma cannonPhase_missesInWindow (s : GameState) :
  missesInWindow (cannonPhase s) = missesInWindow s.
Proof.
  unfold cannonPhase.
  destruct (find (cannonHits s) (aliens s)); gs; [|reflexivity].
  split_ifs; reflexivity.
Qed.

Lemma afterCannon_missesInWindow (e : Env) (s : GameState) :
  missesInWindow (afterCannon e s) = missesInWindow (afterAdvance e s).
Proof.
  unfold afterCannon. rewrite cannonPhase_missesInWindow.
  unfold afterCombat. apply combatPhase_missesInWindow.
Qed.

Lemma escapeFold_misses (t : Z) (p : ScorePressure) (l : list Alien) :
  forall s,
    missesInWindow s + escapees l < MISS_THRESHOLD ->
    missesInWindow (fold_left (escapeStep true t p) l s)
    = missesInWindow s + escapees l.
Proof.
  unfold escapees.
  induction l as [|a l IH]; intros s H; cbn [fold_left filter List.length] in *;
    [lia|].
  pose proof (escapeStep_combo true t p s a) as [_ E]. cbv zeta in E.
  destruct (a_y a <? -3)%float; cbn [List.length] in H |- *.
  - destruct (Z.leb_spec MISS_THRESHOLD (missesInWindow s + 1)) as [L|L];
      [lia|].
    cbn [andb] in E. destruct E as [_ E2].
    rewrite IH by (rewrite E2; lia). rewrite E2. lia.
  - destruct E as [_ E2]. rewrite IH by (rewrite E2; lia). rewrite E2. lia.
Qed.

(** C5, as the code has it.  The miss counter belongs to a window that
    restarts at the first tick 10 s or more after it started, whatever the
    misses were (a tumbling window).  Within a tick the combo is set to 0 by
    a cannon-alien collision, by that counter reaching 3, and, before
    anything else moves, by 15 s without a shot while the combo is positive;
    in the first two cases the tick ends with combo 0, in the third with the
    number of kills of that tick unless a later reset clears it again.
    These are the only resets: a tick with none of the three events ends
    with the combo it started with, lowered by one at most (the decay of
    level 50 and above), plus the kills of the tick, and with the misses of
    the tick added to the counter. *)
Theorem combo_reset_events (e : Env) (s : GameState) :
  let now := clock e 0%nat in
  let idle := 0 < combo s /\ IDLE_TIMEOUT <= now - lastShotTime s in
  let collision :=
    find (cannonHits (afterCombat e s)) (aliens (afterCombat e s)) <> None in
  let counter := missesInWindow (afterAdvance e s) in
  (counter = (if MISS_WINDOW <=? now - missWindowStart s
              then 0 else missesInWindow s)
   /\ missWindowStart (afterAdvance e s)
      = (if MISS_WINDOW <=? now - missWindowStart s
         then now else missWindowStart s)
   /\ missesInWindow (afterCannon e s) = counter)
  /\ (collision -> combo (tick e s) = 0)
  /\ (counter < MISS_THRESHOLD ->
      MISS_THRESHOLD <= counter + escapesOfFrame e s ->
      combo (tick e s) = 0)
  /\ (idle ->
      combo (afterAdvance e s) = 0
      /\ (combo (tick e s) = 0 \/ combo (tick e s) = killsOfFrame e s))
  /\ (~ idle -> ~ collision -> counter + escapesOfFrame e s < MISS_THRESHOLD ->
      (combo (tick e s) = combo s + killsOfFrame e s
       \/ (0 < combo s /\ 50 <= calculateLevelFromScore (score s)
           /\ combo (tick e s) = combo s - 1 + killsOfFrame e s))
      /\ missesInWindow (tick e s) = counter + escapesOfFrame e s).
Proof.
  cbv zeta. unfold escapesOfFrame, killsOfFrame.
  pose proof (afterCannon_missesInWindow e s) as M.
  split; [split; [apply advancePhase_missesInWindow
                 |split; [apply advancePhase_missWindowStart | exact M]]|].
  rewrite <- M.
  split; [|split; [|split]].
  - intros Ha. rewrite tick_phases. unfold escapePhase.
    apply escapeFold_combo_zero.
    unfold afterCannon. now apply cannonPhase_combo.
  - intros Hb' Hb. rewrite tick_phases. unfold escapePhase.
    now apply escapeFold_third_miss.
  - intros [Hc Hc'].
    assert (A : combo (afterAdvance e s) = 0)
      by (unfold afterAdvance; now apply advancePhase_idle).
    split; [exact A|].
    rewrite tick_phases. unfold escapePhase.
    match goal with
    | |- context [fold_left (escapeStep ?m ?t ?p) ?l ?s0] =>
        destruct (escapeFold_combo_cases m t p l s0) as [E|E]
    end; [|now left].
    rewrite E. unfold afterCannon.
    destruct (cannonPhase_combo (afterCombat e s)) as [_ [C|C]]; [|now left].
    rewrite C. unfold afterCombat. rewrite combatPhase_combo.
    rewrite A. right. reflexivity.
  - intros Hd Hd' Hd''.
    assert (Hn : find (cannonHits (afterCombat e s)) (aliens (afterCombat e s))
                 = None).
    { destruct (find _ _); [exfalso; apply Hd'; discriminate | reflexivity]. }
    rewrite tick_phases. unfold escapePhase.
    rewrite escapeFold_no_third_miss by assumption.
    rewrite escapeFold_misses by assumption.
    split; [|reflexivity].
    unfold afterCannon in *. rewrite cannonPhase_no_hit by assumption.
    unfold afterCombat. rewrite combatPhase_combo.
    unfold afterAdvance.
    destruct (advancePhase_quiet (clock e 0%nat) s Hd) as [Q | (Q1 & Q2 & Q3)].
    + left. now rewrite Q.
    + right. rewrite Q3. repeat split; assumption.
Qed.

Lemma combo_reset_events_witness :
  let e := envAt 48 0 in
  let sa := game (run load0 collisionTrace (initialWorld load0)) in
  let sb := game (run load0 threeEscapesTrace (initialWorld load0)) in
  let sc := game (run load0 comboOneTrace (initialWorld load0)) in
  let sm := game (run load0 missAcrossWindowsTrace (initialWorld load0)) in
  (combo sa = 1 /\ combo (tick e sa) = 0)
  /\ (combo sb = 1 /\ escapesOfFrame e sb = 3 /\ combo (tick e sb) = 0)
  /\ (combo sc = 1 /\ combo (afterAdvance (envAt 20000 0) sc) = 0)
  /\ (combo sc = 1 /\ combo (tick e sc) = 1 /\ missesInWindow (tick e sc) = 0)
  /\ (missesInWindow sm = 2
      /\ missesInWindow (afterAdvance (envAt 10000 0) sm) = 0
      /\ missWindowStart (afterAdvance (envAt 10000 0) sm) = 10000).
Proof.
  cbv zeta.
  split; [|split; [|split; [|split]]].
  - split; [vm_compute; reflexivity|].
    refine (proj1 (proj2 (combo_reset_events (envAt 48 0)
              (game (run load0 collisionTrace (initialWorld load0))))) _).
    vm_compute. discriminate.
  - split; [vm_compute; reflexivity|]. split; [vm_compute; reflexivity|].
    refine (proj1 (proj2 (proj2 (combo_reset_events (envAt 48 0)
              (game (run load0 threeEscapesTrace (initialWorld load0))))))
              _ _).
    + vm_compute. reflexivity.
    + vm_compute. discriminate.
  - split; [vm_compute; reflexivity|].
    refine (proj1 (proj1 (proj2 (proj2 (proj2 (combo_reset_events
              (envAt 20000 0)
              (game (run load0 comboOneTrace (initialWorld load0)))))))
              _)).
    split; [vm_compute; reflexivity | vm_compute; discriminate].
  - split; [vm_compute; reflexivity|].
    destruct (proj2 (proj2 (proj2 (proj2 (combo_reset_events (envAt 48 0)
                (game (run load0 comboOneTrace (initialWorld load0))))))))
      as [[Q | (_ & Q & _)] M].
    + intros [_ I]. vm_compute in I. apply I. reflexivity.
    + intros C. apply C. vm_compute. reflexivity.
    + vm_compute. reflexivity.
    + split; [rewrite Q | rewrite M]; vm_compute; reflexivity.
    + vm_compute in Q. exfalso. apply Q. reflexivity.
  - split; [vm_compute; reflexivity|].
    destruct (proj1 (combo_reset_events (envAt 10000 0)
                (game (run load0 missAcrossWindowsTrace (initialWorld load0)))))
      as (W1 & W2 & _).
    split; [rewrite W1 | rewrite W2]; vm_compute; reflexivity.
Defined.


(** The boss reaching the lower boundary does not reset the combo: here the
    boss escapes, the game is over, and the combo is still 1. *)
Lemma boss_escape_keeps_combo :
  let e := envAt 32 0 in
  let s := game (run load0 bossEscapeTrace (initialWorld load0)) in
  existsb (fun a => a_isBoss a && (a_y a <? -3)%float) (aliens (afterCannon e s))
  = true
  /\ status (tick e s) = GameOver
  /\ combo s = 1
  /\ combo (tick e s) <> 0.
Proof. vm_compute. repeat split; discriminate. Qed.

(** The window does not roll.  Two aliens escape at clock 9000 and a third
    at clock 10000, one second later; the window that started at clock 0
    ends in between, so the counter restarts at the third miss and the combo
    of 2 is kept. *)
Lemma third_miss_in_next_window_keeps_combo :
  let s0 := game (run load0 twoMissesTrace (initialWorld load0)) in
  let s := game (run load0 missAcrossWindowsTrace (initialWorld load0)) in
  let e := envAt 10000 0 in
  missedAliens s0 = 0
  /\ missedAliens (tick (envAt 9000 0) s0) = 2
  /\ missedAliens s = 2 /\ missesInWindow s = 2 /\ missWindowStart s = 0
  /\ combo s = 2
  /\ escapesOfFrame e s = 1
  /\ missedAliens (tick e s) = 3
  /\ missesInWindow (tick e s) = 1
  /\ missWindowStart (tick e s) = 10000
  /\ combo (tick e s) = 2
  /\ status (tick e s) = Idle.
Proof. vm_compute. repeat split. Qed.

(** ** Runs with different random draws *)

Lemma creditKill_level (s : GameState) (alien : Alien) :
  level (creditKill s alien) = level s.
Proof.
  unfold creditKill, comboUp, perfectBonus. gs.
  destruct (combo s + 1 =? 50); reflexivity.
Qed.

Lemma processKill_draws (e1 e2 : Env) (t : Z) (s : GameState) (k : nat)
      (alien : Alien) :
  drawsBelowOne e1 -> drawsBelowOne e2 -> level s < 50 ->
  processKill e1 t (s, k) alien = processKill e2 t (s, k) alien.
Proof.
  intros H1 H2 Hl. unfold processKill. cbv beta iota zeta.
  rewrite creditKill_level. unfold getPowerUpDropChance.
  destruct (Z.ltb_spec (level s) 50); [|lia].
  destruct (a_isBoss alien); [reflexivity|].
  now rewrite H1, H2.
Qed.

Lemma processKills_draws (e1 e2 : Env) (t : Z) (l : list Alien) :
  drawsBelowOne e1 -> drawsBelowOne e2 ->
  forall s k,
    level s < 50 ->
    fold_left (processKill e1 t) l (s, k) = fold_left (processKill e2 t) l (s, k).
Proof.
  intros H1 H2. induction l as [|a l IH]; intros s k Hl; cbn [fold_left];
    [reflexivity|].
  rewrite (processKill_draws e1 e2 t s k a H1 H2 Hl).
  destruct (processKill e2 t (s, k) a) as [s1 k1] eqn:E.
  apply IH.
  replace s1 with (fst (processKill e2 t (s, k) a)) by now rewrite E.
  now rewrite processKill_level.
Qed.

Lemma combatPhase_draws (e1 e2 : Env) (t : Z) (s : GameState) :
  drawsBelowOne e1 -> drawsBelowOne e2 -> level s < 50 ->
  combatPhase e1 t s = combatPhase e2 t s.
Proof.
  intros H1 H2 Hl. unfold combatPhase, processKills.
  rewrite (processKills_draws e1 e2 t _ H1 H2); [reflexivity|].
  gs. exact Hl.
Qed.

Lemma tick_draws (e1 e2 : Env) (s : GameState) :
  sameClock e1 e2 -> drawsBelowOne e1 -> drawsBelowOne e2 ->
  calculateLevelFromScore (score s) < 50 ->
  tick e1 s = tick e2 s.
Proof.
  intros Hc H1 H2 Hl. unfold tick, tickWith. cbv zeta.
  rewrite <- (Hc 0%nat).
  rewrite (combatPhase_draws e1 e2 _ _ H1 H2); [reflexivity|].
  destruct (advancePhase_victory true (clock e1 0%nat) s) as [_ ->]. exact Hl.
Qed.

Lemma reducer_draws (load : nat -> Z) (e1 e2 : Env) (a : Action) (w : World) :
  sameClock e1 e2 -> drawsBelowOne e1 -> drawsBelowOne e2 ->
  calculateLevelFromScore (score (game w)) < 50 ->
  reducer load e1 a w = reducer load e2 a w.
Proof.
  intros Hc H1 H2 Hl.
  destruct a; cbn [reducer]; try reflexivity.
  - unfold fire. now rewrite (Hc 0%nat).
  - unfold onGame. now rewrite (tick_draws e1 e2 _ Hc H1 H2 Hl).
  - unfold onGame, reset.
    now rewrite (Hc 0%nat), (Hc 1%nat), (Hc 2%nat), (Hc 3%nat).
  - unfold onGame, nextWave. now rewrite (Hc 0%nat).
  - unfold onGame, startWave. now rewrite (Hc 0%nat).
Qed.

(** C2, as the code has it.  Two runs of the same actions with the same clock
    readings publish the same snapshot after every step, whatever
    [Math.random()] returns, as long as the level stays below 50, where every
    kill drops its power-up. *)
Theorem snapshots_independent_of_draws
        (load : nat -> Z) (tr1 tr2 : list (Env * Action)) (w : World) :
  Forall2 sameIntents tr1 tr2 ->
  staysBelowLevel50 load tr1 w ->
  snapshots load tr1 w = snapshots load tr2 w
  /\ run load tr1 w = run load tr2 w.
Proof.
  intros HF. revert w.
  induction HF as [|[e1 a1] [e2 a2] tr1 tr2 (Ha & Hc & H1 & H2) _ IH];
    intros w Hs; cbn [snapshots run staysBelowLevel50] in *.
  - split; reflexivity.
  - cbn [fst snd] in *. subst a2. destruct Hs as [Hl Hs].
    rewrite <- (reducer_draws load e1 e2 a1 w Hc H1 H2 Hl).
    destruct (IH _ Hs) as [I1 I2]. cbv zeta. now rewrite I1, I2.
Qed.

Lemma snapshots_independent_of_draws_witness :
  snapshots load0
    (firstKillTrace ++ [ (envAt 16 0, Tick) ]) (initialWorld load0)
  = snapshots load0
      (map (fun ea => (envAt (clock (fst ea) 0%nat) 0.9, snd ea))
           (firstKillTrace ++ [ (envAt 16 0, Tick) ]))
      (initialWorld load0).
Proof.
  apply (snapshots_independent_of_draws load0
           (firstKillTrace ++ [ (envAt 16 0, Tick) ])
           (map (fun ea => (envAt (clock (fst ea) 0%nat) 0.9, snd ea))
                (firstKillTrace ++ [ (envAt 16 0, Tick) ]))
           (initialWorld load0)).
  - repeat (constructor; [split; [reflexivity|];
                          split; [intros k; reflexivity|];
                          split; intros k; vm_compute; reflexivity|]).
    constructor.
  - vm_compute. repeat split; reflexivity.
Defined.

Lemma drop_collected_with_draw_0 :
  powerUpsCollected
    (game (run load0 (dropAtLevel50Trace 0) (initialWorld load0))) = 1.
Proof. vm_compute. reflexivity. Qed.

Lemma drop_missed_with_draw_09 :
  powerUpsCollected
    (game (run load0 (dropAtLevel50Trace 0.9) (initialWorld load0))) = 0.
Proof. vm_compute. reflexivity. Qed.

Lemma same_intents_in_both_runs :
  Forall2 sameIntents (dropAtLevel50Trace 0) (dropAtLevel50Trace 0.9).
Proof.
  repeat (constructor; [split; [reflexivity|];
                        split; [intros k; reflexivity|];
                        split; intros k; vm_compute; reflexivity|]).
  constructor.
Qed.

Lemma runs_differ_at_level_50 :
  run load0 (dropAtLevel50Trace 0) (initialWorld load0)
  <> run load0 (dropAtLevel50Trace 0.9) (initialWorld load0).
Proof.
  intros E.
  pose proof drop_collected_with_draw_0 as H1.
  pose proof drop_missed_with_draw_09 as H2.
  rewrite E in H1. rewrite H1 in H2. discriminate.
Qed.

(** From level 50 on the draw decides: the same actions with the same clock
    readings and two different results of [Math.random()], both below 1, end
    in different snapshots (the power-up is collected in one run only). *)
Lemma snapshot_depends_on_draw :
  Forall2 sameIntents (dropAtLevel50Trace 0) (dropAtLevel50Trace 0.9)
  /\ run load0 (dropAtLevel50Trace 0) (initialWorld load0)
     <> run load0 (dropAtLevel50Trace 0.9) (initialWorld load0).
Proof.
  split; [exact same_intents_in_both_runs | exact runs_differ_at_level_50].
Qed.

(** ** The frame of the soft penalties *)

(** Closes a case: both sides agree, or the tests made are contradictory. *)
Ltac same_or_absurd :=
  first [ reflexivity | discriminate | congruence | (exfalso; b2p; lia) ].

Lemma softMask_patch (b : bool) (s s' : GameState) :
  softMask b s = softMask b s' ->
  s' = patchSoft b (combo s') (maxCombo s') (comboTimer s') (missesInWindow s')
         (missWindowStart s') (score s') s.
Proof.
  destruct s, s'. unfold softMask, patchSoft. destruct b; gs; intros H;
    injection H; intros; subst; reflexivity.
Qed.

Lemma patch_softMask (b : bool) (c m ct mw ms sc : Z) (s : GameState) :
  softMask b (patchSoft b c m ct mw ms sc s) = softMask b s.
Proof. destruct s. unfold softMask, patchSoft. destruct b; gs; reflexivity. Qed.

(** Fields that the mask leaves readable. *)
Lemma softMask_fields (b : bool) (s s' : GameState) :
  softMask b s = softMask b s' ->
  bullets s = bullets s' /\ aliens s = aliens s' /\ shotsHit s = shotsHit s'
  /\ level s = level s' /\ lives s = lives s' /\ status s = status s'
  /\ (b = false -> score s = score s').
Proof.
  intros H. rewrite (softMask_patch b s s' H).
  destruct s. unfold patchSoft. destruct b; gs; repeat split; try reflexivity.
  intros; discriminate.
Qed.

Lemma fold_left_related {A B} (R : A -> A -> Prop) (f g : A -> B -> A)
      (l : list B) :
  (forall x a a', R a a' -> R (f a x) (g a' x)) ->
  forall a a', R a a' -> R (fold_left f l a) (fold_left g l a').
Proof.
  intros Hstep. induction l as [|x l IH]; intros a a' H; cbn [fold_left].
  - exact H.
  - apply IH, Hstep, H.
Qed.

Lemma escapeStep_mask (b m1 m2 : bool) (t : Z) (p : ScorePressure)
      (s s' : GameState) (a : Alien) :
  softMask b s = softMask b s' ->
  softMask b (escapeStep m1 t p s a) = softMask b (escapeStep m2 t p s' a).
Proof.
  intros H. rewrite (softMask_patch b s s' H).
  generalize (combo s') (maxCombo s') (comboTimer s') (missesInWindow s')
    (missWindowStart s') (score s').
  intros c m ct mw ms sc.
  destruct s. unfold escapeStep, missPenalty, softMask, patchSoft.
  destruct b; gs; split_ifs; same_or_absurd.
Qed.

Lemma escapePhase_mask (b m1 m2 : bool) (t : Z) (p : ScorePressure)
      (s s' : GameState) :
  softMask b s = softMask b s' ->
  softMask b (escapePhase m1 t p s) = softMask b (escapePhase m2 t p s').
Proof.
  intros H. unfold escapePhase.
  destruct (softMask_fields b s s' H) as (_ & <- & _).
  apply (fold_left_related (fun x y => softMask b x = softMask b y));
    [|exact H].
  intros x a a'. apply escapeStep_mask.
Qed.

Lemma cannonPhase_mask (b : bool) (s s' : GameState) :
  softMask b s = softMask b s' ->
  softMask b (cannonPhase s) = softMask b (cannonPhase s').
Proof.
  intros H. rewrite (softMask_patch b s s' H).
  generalize (combo s') (maxCombo s') (comboTimer s') (missesInWindow s')
    (missWindowStart s') (score s').
  intros c m ct mw ms sc.
  destruct s. unfold cannonPhase, cannonHits, softMask, patchSoft.
  destruct b; gs;
    match goal with |- context [find ?f ?l] => destruct (find f l) end;
    gs; split_ifs; same_or_absurd.
Qed.

(** A phase that reads and writes through the mask only. *)
Ltac mask_step H :=
  rewrite (softMask_patch _ _ _ H);
  match goal with
  | |- context [patchSoft _ (combo ?s') _ _ _ _ _ ?s] =>
      generalize (combo s') (maxCombo s') (comboTimer s') (missesInWindow s')
        (missWindowStart s') (score s'); clear H;
      intros; destruct s
  end.

Lemma idlePhase_mask (b : bool) (t : Z) (s : GameState) :
  softMask b (idlePhase true t s) = softMask b (idlePhase false t s).
Proof.
  destruct s. unfold idlePhase, softMask.
  destruct b; gs; split_ifs; same_or_absurd.
Qed.

Lemma missWindowPhase_mask (b : bool) (t : Z) (s s' : GameState) :
  softMask b s = softMask b s' ->
  softMask b (missWindowPhase t s) = softMask b (missWindowPhase t s').
Proof.
  intros H. mask_step H. unfold missWindowPhase, softMask, patchSoft.
  destruct b; gs; split_ifs; same_or_absurd.
Qed.

Lemma decayPhase_mask (b : bool) (p : ScorePressure) (s s' : GameState) :
  softMask b s = softMask b s' ->
  softMask b (decayPhase p s) = softMask b (decayPhase p s').
Proof.
  intros H. mask_step H. unfold decayPhase, softMask, patchSoft.
  destruct b; gs; split_ifs; same_or_absurd.
Qed.

Lemma powerUpPhase_mask (b : bool) (ci : ComboInfo) (t : Z) (s s' : GameState) :
  softMask b s = softMask b s' ->
  softMask b (powerUpPhase ci t s) = softMask b (powerUpPhase ci t s').
Proof.
  intros H. mask_step H. unfold powerUpPhase, softMask, patchSoft.
  destruct b; gs; reflexivity.
Qed.

Lemma movePhase_mask (b : bool) (s s' : GameState) :
  softMask b s = softMask b s' ->
  softMask b (movePhase s) = softMask b (movePhase s').
Proof.
  intros H. mask_step H. unfold movePhase, softMask, patchSoft.
  destruct b; gs; reflexivity.
Qed.

Lemma advancePhase_mask (b : bool) (t : Z) (s : GameState) :
  softMask b (advancePhase true t s) = softMask b (advancePhase false t s).
Proof.
  unfold advancePhase. cbv zeta.
  set (s0 := set_comboTier _ (levelPhase s)).
  pose proof (idlePhase_mask b t s0) as I.
  pose proof (missWindowPhase_mask b t _ _ I) as M.
  destruct (softMask_fields b _ _ M) as (_ & _ & _ & L & _). rewrite <- L.
  now apply movePhase_mask, powerUpPhase_mask, decayPhase_mask.
Qed.

Lemma creditKill_mask (b : bool) (s s' : GameState) (a : Alien) :
  softMask b s = softMask b s' ->
  (b = false -> combo s + 1 <> 50 /\ combo s' + 1 <> 50) ->
  softMask b (creditKill s a) = softMask b (creditKill s' a).
Proof.
  intros H. rewrite (softMask_patch b s s' H). clear H.
  generalize (combo s') (maxCombo s') (comboTimer s') (missesInWindow s')
    (missWindowStart s') (score s').
  intros c m ct mw ms sc Hn. destruct s.
  unfold creditKill, comboUp, perfectBonus, killScore, softMask, patchSoft in *.
  destruct b.
  - clear Hn. gs. split_ifs; same_or_absurd.
  - specialize (Hn eq_refl). gs_in Hn. destruct Hn as [N1 N2]. gs.
    repeat match goal with
           | N : ?x + 1 <> 50 |- context [?x + 1 =? 50] =>
               destruct (Z.eqb_spec (x + 1) 50); [contradiction|]
           end.
    reflexivity.
Qed.

Lemma dropPowerUp_mask (b : bool) (t : Z) (a : Alien) (s s' : GameState) :
  softMask b s = softMask b s' ->
  softMask b (dropPowerUp t a s) = softMask b (dropPowerUp t a s').
Proof.
  intros H. mask_step H. unfold dropPowerUp, softMask, patchSoft.
  destruct b; destruct (rewardPowerUp (a_type a)); gs; reflexivity.
Qed.

Lemma bossDefeated_mask (b : bool) (s s' : GameState) :
  softMask b s = softMask b s' ->
  softMask b (bossDefeated s) = softMask b (bossDefeated s').
Proof.
  intros H. mask_step H. unfold bossDefeated, softMask, patchSoft.
  destruct b; gs; split_ifs; same_or_absurd.
Qed.

Lemma processKill_mask (b : bool) (e : Env) (t : Z) (s s' : GameState)
      (k : nat) (a : Alien) :
  softMask b s = softMask b s' ->
  (b = false -> combo s + 1 <> 50 /\ combo s' + 1 <> 50) ->
  softMask b (fst (processKill e t (s, k) a))
  = softMask b (fst (processKill e t (s', k) a))
  /\ snd (processKill e t (s, k) a) = snd (processKill e t (s', k) a).
Proof.
  intros H Hn.
  pose proof (creditKill_mask b s s' a H Hn) as C.
  destruct (softMask_fields b s s' H) as (_ & _ & _ & L & _).
  unfold processKill. cbv beta iota zeta.
  rewrite !creditKill_level, <- L.
  destruct (a_isBoss a); cbn [fst snd].
  - split; [|reflexivity]. now apply bossDefeated_mask, dropPowerUp_mask.
  - split; [|reflexivity].
    destruct (random e k <? getPowerUpDropChance (level s))%float;
      [now apply dropPowerUp_mask | exact C].
Qed.

Lemma processKills_mask (b : bool) (e : Env) (t : Z) (l : list Alien) :
  forall (s s' : GameState) (k : nat),
    softMask b s = softMask b s' ->
    (b = false ->
     combo s + Z.of_nat (List.length l) < 50
     /\ combo s' + Z.of_nat (List.length l) < 50) ->
    softMask b (fst (fold_left (processKill e t) l (s, k)))
    = softMask b (fst (fold_left (processKill e t) l (s', k))).
Proof.
  induction l as [|a l IH]; intros s s' k H Hn; cbn [fold_left List.length] in *.
  - exact H.
  - destruct (processKill_mask b e t s s' k a H) as [M K].
    { intros Hb. specialize (Hn Hb). lia. }
    pose proof (processKill_combo e t s k a) as C1.
    pose proof (processKill_combo e t s' k a) as C2.
    destruct (processKill e t (s, k) a) as [s1 k1].
    destruct (processKill e t (s', k) a) as [s1' k1'].
    cbn [fst snd] in *. subst k1'.
    apply IH; [exact M|].
    intros Hb. specialize (Hn Hb). lia.
Qed.

Lemma combat_entry_mask (b : bool) (h : Z) (al : list Alien) (s s' : GameState) :
  softMask b s = softMask b s' ->
  softMask b (set_shotsHit h (set_aliens al s))
  = softMask b (set_shotsHit h (set_aliens al s')).
Proof.
  intros H. rewrite (softMask_patch b s s' H). destruct s.
  unfold softMask, patchSoft. destruct b; gs; reflexivity.
Qed.

Lemma combat_exit_mask (b : bool) (f : Alien -> bool) (g : Bullet -> bool)
      (s s' : GameState) :
  softMask b s = softMask b s' ->
  softMask b (set_bullets (filter g (bullets (set_aliens (filter f (aliens s)) s)))
                (set_aliens (filter f (aliens s)) s))
  = softMask b (set_bullets
                  (filter g (bullets (set_aliens (filter f (aliens s')) s')))
                  (set_aliens (filter f (aliens s')) s')).
Proof.
  intros H. rewrite (softMask_patch b s s' H). destruct s.
  unfold softMask, patchSoft. destruct b; gs; reflexivity.
Qed.

Lemma collisionsOf_mask (b : bool) (s s' : GameState) :
  softMask b s = softMask b s' -> collisionsOf s = collisionsOf s'.
Proof.
  intros H. destruct (softMask_fields b s s' H) as (B & A & S & _).
  unfold collisionsOf. now rewrite B, A, S.
Qed.

Lemma combatPhase_mask (b : bool) (e : Env) (t : Z) (s s' : GameState) :
  softMask b s = softMask b s' ->
  (b = false ->
   combo s + Z.of_nat (List.length (destroyedAliens (collisionsOf s))) < 50
   /\ combo s' + Z.of_nat (List.length (destroyedAliens (collisionsOf s))) < 50) ->
  softMask b (combatPhase e t s) = softMask b (combatPhase e t s').
Proof.
  intros H Hn. unfold combatPhase, processKills. cbv zeta.
  rewrite <- (collisionsOf_mask b s s' H).
  set (c := collisionsOf s) in *.
  apply combat_exit_mask.
  apply processKills_mask.
  - now apply combat_entry_mask.
  - gs. exact Hn.
Qed.

(** The closing phases of a tick respect the mask. *)
Lemma closing_phases_mask (b m1 m2 : bool) (t : Z) (p : ScorePressure)
      (s s' : GameState) :
  softMask b s = softMask b s' ->
  softMask b (escapePhase m1 t p (cannonPhase s))
  = softMask b (escapePhase m2 t p (cannonPhase s')).
Proof. intros H. now apply escapePhase_mask, cannonPhase_mask. Qed.

Lemma miss_penalty_mask (i : bool) (e : Env) (s : GameState) :
  softMask false (tickWith i true e s) = softMask false (tickWith i false e s).
Proof. unfold tickWith. cbv zeta. now apply closing_phases_mask. Qed.

Lemma idle_penalty_mask (b m : bool) (e : Env) (s : GameState) :
  (b = false ->
   combo s
   + Z.of_nat (List.length (destroyedAliens (collisionsOf (afterAdvance e s))))
   < 50) ->
  softMask b (tickWith true m e s) = softMask b (tickWith false m e s).
Proof.
  intros Hn. unfold tickWith. cbv zeta.
  set (t := clock e 0%nat).
  pose proof (advancePhase_mask b t s) as A.
  destruct (softMask_fields b _ _ A) as (_ & _ & _ & L & _).
  rewrite <- L.
  apply closing_phases_mask, combatPhase_mask; [exact A|].
  intros Hb. specialize (Hn Hb). unfold afterAdvance in Hn. fold t in Hn.
  destruct (advancePhase_combo true t s) as [C1 _].
  destruct (advancePhase_combo false t s) as [C2 _].
  lia.
Qed.

(** C4, as the code has it.  Switching the third-miss penalty off changes
    nothing in a tick beyond the combo bookkeeping: lives, score and status
    are the same.  Switching the idle penalty off leaves lives and status the
    same, and everything but combo bookkeeping and score; the score is the
    same as well whenever the kills of the tick cannot take the combo to
    50. *)
Theorem soft_penalties_frame (i m : bool) (e : Env) (s : GameState) :
  (lives (tickWith i true e s) = lives (tickWith i false e s)
   /\ score (tickWith i true e s) = score (tickWith i false e s)
   /\ status (tickWith i true e s) = status (tickWith i false e s))
  /\ softMask false (tickWith i true e s) = softMask false (tickWith i false e s)
  /\ (lives (tickWith true m e s) = lives (tickWith false m e s)
      /\ status (tickWith true m e s) = status (tickWith false m e s))
  /\ softMask true (tickWith true m e s) = softMask true (tickWith false m e s)
  /\ (combo s
      + Z.of_nat (List.length
                    (destroyedAliens (collisionsOf (afterAdvance e s)))) < 50 ->
      score (tickWith true m e s) = score (tickWith false m e s)
      /\ softMask false (tickWith true m e s)
         = softMask false (tickWith false m e s)).
Proof.
  pose proof (miss_penalty_mask i e s) as M.
  destruct (softMask_fields false _ _ M) as (_ & _ & _ & _ & L1 & S1 & Sc1).
  assert (Hb : true = false ->
               combo s
               + Z.of_nat (List.length
                             (destroyedAliens (collisionsOf (afterAdvance e s))))
               < 50) by discriminate.
  pose proof (idle_penalty_mask true m e s Hb) as I.
  destruct (softMask_fields true _ _ I) as (_ & _ & _ & _ & L2 & S2 & _).
  split; [split; [exact L1 | split; [exact (Sc1 eq_refl) | exact S1]]|].
  split; [exact M|].
  split; [split; [exact L2 | exact S2]|].
  split; [exact I|].
  intros Hn.
  pose proof (idle_penalty_mask false m e s (fun _ => Hn)) as J.
  destruct (softMask_fields false _ _ J) as (_ & _ & _ & _ & _ & _ & Sc3).
  split; [exact (Sc3 eq_refl) | exact J].
Qed.

Lemma soft_penalties_frame_witness :
  let e := envAt 20000 0 in
  let s := game (run load0 comboOneTrace (initialWorld load0)) in
  score (tickWith true true e s) = score (tickWith false true e s)
  /\ softMask false (tickWith true true e s)
     = softMask false (tickWith false true e s).
Proof.
  cbv zeta.
  destruct (soft_penalties_frame true true (envAt 20000 0)
              (game (run load0 comboOneTrace (initialWorld load0))))
    as (_ & _ & _ & _ & H).
  apply H. vm_compute. reflexivity.
Defined.

(** The idle penalty can change the score.  At combo 49, with a bullet in
    flight, a tick that comes twenty seconds after the last shot resets the
    combo before the kill is counted: the kill takes the combo to 1, not to
    50, and the +10000 bonus is not paid. *)
Lemma idle_penalty_costs_perfect_bonus :
  let e := envAt 20000 0 in
  let s := game (run load0 idleBeforeFiftiethTrace (initialWorld load0)) in
  (0 <? combo s) && (IDLE_TIMEOUT <=? clock e 0%nat - lastShotTime s) = true
  /\ score (tick e s) = 5300
  /\ score (tickWith false true e s) = 15300
  /\ score (tick e s) <> score (tickWith false true e s).
Proof. vm_compute. repeat split; discriminate. Qed.

(** ** Invariants along a run *)

Lemma run_invariant (load : nat -> Z) (P : GameState -> Prop) :
  P (initialState load) ->
  (forall e a w, P (game w) -> P (game (reducer load e a w))) ->
  forall trace, P (stateAfter load trace).
Proof.
  intros H0 Hstep trace. unfold stateAfter.
  assert (G : forall w, P (game w) -> P (game (run load trace w))).
  { induction trace as [|[e a] trace IH]; intros w H; cbn [run];
      [exact H | apply IH, Hstep, H]. }
  apply G. exact H0.
Qed.

Lemma processKill_lives (e : Env) (t : Z) (s : GameState) (k : nat) (a : Alien) :
  lives (fst (processKill e t (s, k) a)) = lives s
  \/ lives (fst (processKill e t (s, k) a)) = Z.min 3 (lives s + 1).
Proof.
  unfold processKill, creditKill, comboUp, perfectBonus, killScore,
    dropPowerUp, bossDefeated. gs.
  destruct (a_isBoss a); destruct (rewardPowerUp (a_type a)); gs;
    split_ifs; auto.
Qed.

Lemma processKills_lives (e : Env) (t : Z) (l : list Alien) :
  forall s k,
    let r := fst (fold_left (processKill e t) l (s, k)) in
    (livesInRange s -> livesInRange r) /\ (0 < lives s -> 0 < lives r).
Proof.
  unfold livesInRange.
  induction l as [|a l IH]; intros s k; cbn [fold_left].
  - cbn [fst]. split; auto.
  - pose proof (processKill_lives e t s k a) as P.
    destruct (processKill e t (s, k) a) as [s1 k1]. cbn [fst] in P.
    destruct (IH s1 k1) as [I1 I2]. cbv zeta in *.
    split; intros H; [apply I1 | apply I2]; destruct P as [-> | ->]; lia.
Qed.

Lemma advancePhase_lives (b : bool) (t : Z) (s : GameState) :
  lives (advancePhase b t s) = lives s.
Proof.
  unfold advancePhase, levelPhase, idlePhase, missWindowPhase, decayPhase,
    powerUpPhase, movePhase.
  gs. split_ifs; reflexivity.
Qed.

Lemma combatPhase_lives (e : Env) (t : Z) (s : GameState) :
  (livesInRange s -> livesInRange (combatPhase e t s))
  /\ (0 < lives s -> 0 < lives (combatPhase e t s)).
Proof.
  unfold combatPhase, processKills, livesInRange. gs.
  match goal with
  | |- context [fold_left (processKill e t) ?l (?s0, ?k)] =>
      pose proof (processKills_lives e t l s0 k) as H
  end.
  cbv zeta in H. unfold livesInRange in H. gs_in H. exact H.
Qed.

Lemma cannonPhase_lives (s : GameState) :
  livesInRange s -> livesInRange (cannonPhase s).
Proof.
  unfold cannonPhase, livesInRange.
  destruct (find (cannonHits s) (aliens s)); gs; [|auto].
  split_ifs; b2p; gs_all; lia.
Qed.

Lemma escapeStep_lives (m : bool) (t : Z) (p : ScorePressure)
      (s : GameState) (a : Alien) :
  livesInRange s -> livesInRange (escapeStep m t p s a).
Proof.
  unfold escapeStep, missPenalty, livesInRange. gs.
  split_ifs; gs; lia.
Qed.

Lemma tick_lives (e : Env) (s : GameState) :
  livesInRange s -> livesInRange (tick e s).
Proof.
  intros H. rewrite tick_phases. unfold escapePhase.
  apply fold_left_invariant; [intros; now apply escapeStep_lives|].
  unfold afterCannon, afterCombat, afterAdvance.
  apply cannonPhase_lives, combatPhase_lives.
  unfold livesInRange in *. now rewrite advancePhase_lives.
Qed.

(** A field that only [tick] and [reset] write. *)
Ltac untouched_field :=
  first [ reflexivity
        | unfold move; gs; reflexivity
        | unfold fire, generateId; gs; split_ifs; reflexivity
        | unfold spawnAlien, generateId; gs; split_ifs; reflexivity
        | unfold nextWave; gs; split_ifs; reflexivity
        | unfold spawnBoss, generateId; gs; reflexivity
        | unfold updateBossHP; gs; split_ifs; reflexivity ].

Lemma reducer_lives (load : nat -> Z) (e : Env) (a : Action) (w : World) :
  livesInRange (game w) -> livesInRange (game (reducer load e a w)).
Proof.
  intros H.
  destruct a; cbn [reducer onGame game];
    try (unfold livesInRange in *;
         match goal with
         | |- _ <= lives ?x <= _ =>
             replace (lives x) with (lives (game w)) by untouched_field
         end; exact H).
  - now apply tick_lives.
  - unfold livesInRange. cbn. lia.
Qed.

(** X1.  In every state reached from the initial one the player has between 0
    and 3 lives. *)
Theorem lives_between_0_and_3 (load : nat -> Z) (trace : list (Env * Action)) :
  0 <= lives (stateAfter load trace) <= 3.
Proof.
  apply (run_invariant load livesInRange).
  - unfold livesInRange. cbn. lia.
  - intros e a w. apply reducer_lives.
Qed.

(** ** What a frame leaves alone *)

Ltac kill_split a :=
  unfold processKill, creditKill, comboUp, perfectBonus, killScore,
    dropPowerUp, bossDefeated; gs;
  destruct (a_isBoss a); destruct (rewardPowerUp (a_type a)); gs; split_ifs.

Lemma processKills_invariant (P : GameState -> Prop) (e : Env) (t : Z) :
  (forall s k a, P s -> P (fst (processKill e t (s, k) a))) ->
  forall l s k, P s -> P (fst (fold_left (processKill e t) l (s, k))).
Proof.
  intros Hstep. induction l as [|a l IH]; intros s k H; cbn [fold_left].
  - exact H.
  - specialize (Hstep s k a H).
    destruct (processKill e t (s, k) a) as [s1 k1]. now apply IH.
Qed.

Lemma advancePhase_session (b : bool) (t : Z) (s : GameState) :
  sessionFields (advancePhase b t s) = sessionFields s.
Proof.
  unfold advancePhase, levelPhase, idlePhase, missWindowPhase, decayPhase,
    powerUpPhase, movePhase, sessionFields.
  gs. split_ifs; reflexivity.
Qed.

Lemma combatPhase_session (e : Env) (t : Z) (s : GameState) :
  sessionFields (combatPhase e t s) = sessionFields s.
Proof.
  unfold combatPhase, processKills.
  match goal with
  | |- sessionFields (set_bullets _ (set_aliens _ ?r)) = _ =>
      transitivity (sessionFields r); [unfold sessionFields; gs; reflexivity|]
  end.
  match goal with
  | |- sessionFields (fst (fold_left _ _ (?s0, _))) = _ =>
      transitivity (sessionFields s0); [|unfold sessionFields; gs; reflexivity]
  end.
  apply (processKills_invariant (fun r => sessionFields r = _)); [|reflexivity].
  intros s0 k a <-. unfold sessionFields. kill_split a; reflexivity.
Qed.

Lemma cannonPhase_session (s : GameState) :
  sessionFields (cannonPhase s) = sessionFields s.
Proof.
  unfold cannonPhase, sessionFields.
  destruct (find (cannonHits s) (aliens s)); gs; [|reflexivity].
  split_ifs; reflexivity.
Qed.

Lemma escapePhase_session (m : bool) (t : Z) (p : ScorePressure) (s : GameState) :
  sessionFields (escapePhase m t p s) = sessionFields s.
Proof.
  unfold escapePhase.
  apply (fold_left_invariant (fun r => sessionFields r = sessionFields s));
    [|reflexivity].
  intros acc a <-. unfold escapeStep, missPenalty, sessionFields. gs.
  split_ifs; reflexivity.
Qed.

Lemma tick_session (e : Env) (s : GameState) :
  sessionFields (tick e s) = sessionFields s.
Proof.
  rewrite tick_phases, escapePhase_session.
  unfold afterCannon, afterCombat, afterAdvance.
  now rewrite cannonPhase_session, combatPhase_session, advancePhase_session.
Qed.

Lemma tick_wave (e : Env) (s : GameState) : wave (tick e s) = wave s.
Proof.
  pose proof (tick_session e s) as H. unfold sessionFields in H. congruence.
Qed.

Lemma tick_shotsFired (e : Env) (s : GameState) :
  shotsFired (tick e s) = shotsFired s.
Proof.
  pose proof (tick_session e s) as H. unfold sessionFields in H. congruence.
Qed.

(** X2.  A frame leaves the cannon where it is and touches neither the wave
    bookkeeping, the count of shots fired, the difficulty mode, the time of
    the last shot, nor the boss gauge ([bossHP], [bossMaxHP]), which
    [spawnBoss], [updateBossHP] and [reset] write: hits on the boss in a
    frame do not show in it. *)
Theorem tick_leaves_session_fields (e : Env) (s : GameState) :
  let s' := tick e s in
  playerX s' = playerX s /\ playerY s' = playerY s
  /\ wave s' = wave s /\ waveEnemiesSpawned s' = waveEnemiesSpawned s
  /\ wavesCompleted s' = wavesCompleted s
  /\ shotsFired s' = shotsFired s /\ lastShotTime s' = lastShotTime s
  /\ difficultyMode s' = difficultyMode s
  /\ bossHP s' = bossHP s /\ bossMaxHP s' = bossMaxHP s.
Proof.
  pose proof (tick_session e s) as H. unfold sessionFields in H.
  cbv zeta. injection H as H1 H2 H3 H4 H5 H6 H7 H8 H9 H10 H11 H12 H13 H14 H15.
  repeat split; assumption.
Qed.

(** ** The wave counter *)

Lemma reducer_wave (load : nat -> Z) (e : Env) (a : Action) (w : World) :
  waveInRange (game w) -> waveInRange (game (reducer load e a w)).
Proof.
  intros H.
  destruct a; cbn [reducer onGame game];
    try (unfold waveInRange in *;
         match goal with
         | |- _ <= wave ?x <= _ =>
             replace (wave x) with (wave (game w)) by untouched_field
         end; exact H).
  - unfold waveInRange in *. now rewrite tick_wave.
  - unfold waveInRange. cbn. lia.
  - unfold waveInRange, nextWave in *. gs. split_ifs; b2p; gs; lia.
Qed.

(** X3.  The wave counter of every state reached from the initial one is
    between 1 and 5. *)
Theorem wave_between_1_and_5 (load : nat -> Z) (trace : list (Env * Action)) :
  1 <= wave (stateAfter load trace) <= 5.
Proof.
  apply (run_invariant load waveInRange).
  - unfold waveInRange. cbn. lia.
  - intros e a w. apply reducer_wave.
Qed.

(** ** Level and bracket *)

Lemma combatPhase_levelFields (e : Env) (t : Z) (s : GameState) :
  levelFields (combatPhase e t s) = levelFields s.
Proof.
  unfold combatPhase, processKills.
  match goal with
  | |- levelFields (set_bullets _ (set_aliens _ ?r)) = _ =>
      transitivity (levelFields r); [unfold levelFields; gs; reflexivity|]
  end.
  match goal with
  | |- levelFields (fst (fold_left _ _ (?s0, _))) = _ =>
      transitivity (levelFields s0); [|unfold levelFields; gs; reflexivity]
  end.
  apply (processKills_invariant (fun r => levelFields r = _)); [|reflexivity].
  intros s0 k a <-. unfold levelFields. kill_split a; reflexivity.
Qed.

Lemma cannonPhase_levelFields (s : GameState) :
  levelFields (cannonPhase s) = levelFields s.
Proof.
  unfold cannonPhase, levelFields.
  destruct (find (cannonHits s) (aliens s)); gs; [|reflexivity].
  split_ifs; reflexivity.
Qed.

Lemma escapePhase_levelFields (m : bool) (t : Z) (p : ScorePressure)
      (s : GameState) :
  levelFields (escapePhase m t p s) = levelFields s.
Proof.
  unfold escapePhase.
  apply (fold_left_invariant (fun r => levelFields r = levelFields s));
    [|reflexivity].
  intros acc a <-. unfold escapeStep, missPenalty, levelFields. gs.
  split_ifs; reflexivity.
Qed.

Lemma advancePhase_levelFields (b : bool) (t : Z) (s : GameState) :
  levelFields (advancePhase b t s)
  = (calculateLevelFromScore (score s),
     getDifficultyBracket (calculateLevelFromScore (score s)),
     level s,
     tier (getComboMultiplier (combo s))).
Proof.
  unfold advancePhase, levelPhase, idlePhase, missWindowPhase, decayPhase,
    powerUpPhase, movePhase, levelFields.
  gs. split_ifs; reflexivity.
Qed.

Lemma tick_levelFields (e : Env) (s : GameState) :
  levelFields (tick e s)
  = (calculateLevelFromScore (score s),
     getDifficultyBracket (calculateLevelFromScore (score s)),
     level s,
     tier (getComboMultiplier (combo s))).
Proof.
  rewrite tick_phases, escapePhase_levelFields.
  unfold afterCannon, afterCombat, afterAdvance.
  now rewrite cannonPhase_levelFields, combatPhase_levelFields,
    advancePhase_levelFields.
Qed.

(** X4.  A frame shows the level of the score it started with: the points
    of the frame's own kills count from the next frame on.  The bracket is
    the one of that level, [previousLevel] is the level the frame started
    with and the combo tier is the one of the combo it started with. *)
Theorem tick_level_of_starting_score (e : Env) (s : GameState) :
  level (tick e s) = calculateLevelFromScore (score s)
  /\ difficultyBracket (tick e s) = getDifficultyBracket (level (tick e s))
  /\ previousLevel (tick e s) = level s
  /\ comboTier (tick e s) = tier (getComboMultiplier (combo s)).
Proof.
  pose proof (tick_levelFields e s) as H.
  unfold levelFields in H. injection H as H1 H2 H3 H4.
  rewrite H2, H1. auto.
Qed.

Lemma reducer_level (load : nat -> Z) (e : Env) (a : Action) (w : World) :
  levelConsistent (game w) -> levelConsistent (game (reducer load e a w)).
Proof.
  intros H.
  destruct a; cbn [reducer onGame game];
    try (unfold levelConsistent in *;
         match goal with
         | |- _ <= level ?x <= _ /\ difficultyBracket ?x = _ =>
             replace (level x) with (level (game w)) by untouched_field;
             replace (difficultyBracket x) with (difficultyBracket (game w))
               by untouched_field
         end; exact H).
  - unfold levelConsistent.
    pose proof (tick_levelFields e (game w)) as T.
    unfold levelFields in T. injection T as H1 H2 _ _.
    rewrite H2, H1. split; [apply calculateLevelFromScore_range | reflexivity].
  - unfold levelConsistent. cbn. split; [lia | reflexivity].
Qed.

(** X5.  In every state reached from the initial one the level is between 1
    and 100 and the bracket shown is the bracket of that level. *)
Theorem level_and_bracket_consistent (load : nat -> Z)
        (trace : list (Env * Action)) :
  1 <= level (stateAfter load trace) <= 100
  /\ difficultyBracket (stateAfter load trace)
     = getDifficultyBracket (level (stateAfter load trace)).
Proof.
  apply (run_invariant load levelConsistent).
  - unfold levelConsistent. cbn. split; [lia | reflexivity].
  - intros e a w. apply reducer_level.
Qed.

(** ** Shots fired, shots in flight and hits *)

Lemma idIn_app (x : string) (l1 l2 : list string) :
  idIn x (l1 ++ l2) = idIn x l1 || idIn x l2.
Proof. unfold idIn. apply existsb_app. Qed.

Lemma spent_app (ids : list string) (l1 l2 : list Bullet) :
  spent ids (l1 ++ l2) = (spent ids l1 + spent ids l2)%nat.
Proof. unfold spent. now rewrite filter_app, length_app. Qed.

Lemma spent_mono (ids : list string) (x : string) (bs : list Bullet) :
  (spent ids bs <= spent (ids ++ [x]) bs)%nat.
Proof.
  unfold spent. induction bs as [|b bs IH]; cbn [filter]; [reflexivity|].
  rewrite idIn_app. destruct (idIn (b_id b) ids); cbn [orb List.length].
  - lia.
  - destruct (idIn (b_id b) [x]); cbn [List.length]; lia.
Qed.

Lemma idIn_last (x : string) (ids : list string) : idIn x (ids ++ [x]) = true.
Proof.
  rewrite idIn_app. unfold idIn at 2. cbn [existsb].
  rewrite String.eqb_refl. now rewrite orb_true_r.
Qed.

Lemma collideBullet_hits (h : Z) (pre : list Bullet) (c : Collisions) (b : Bullet) :
  h <= c_shotsHit c <= h + Z.of_nat (spent (bulletsToRemove c) pre) ->
  let c' := collideBullet c b in
  h <= c_shotsHit c' <= h + Z.of_nat (spent (bulletsToRemove c') (pre ++ [b])).
Proof.
  intros H. cbv zeta. rewrite spent_app. unfold collideBullet.
  destruct (idIn (b_id b) (bulletsToRemove c)); [lia|].
  destruct ((b_y b <? -4)%float || (5 <? b_y b)%float); [lia|].
  destruct (find (bulletHits b) (c_aliens c)) as [a|]; [|lia].
  destruct (damageAlien (a_id a) (c_aliens c)) as [als hit].
  cbn [c_shotsHit bulletsToRemove].
  pose proof (spent_mono (bulletsToRemove c) (b_id b) pre).
  unfold spent at 2. cbn [filter]. rewrite idIn_last. cbn [List.length]. lia.
Qed.

Lemma collide_hits (bs : list Bullet) (als : list Alien) (h : Z) :
  let c := collide bs als h in
  h <= c_shotsHit c <= h + Z.of_nat (spent (bulletsToRemove c) bs).
Proof.
  unfold collide.
  assert (G : forall l pre c,
             h <= c_shotsHit c <= h + Z.of_nat (spent (bulletsToRemove c) pre) ->
             let r := fold_left collideBullet l c in
             h <= c_shotsHit r
               <= h + Z.of_nat (spent (bulletsToRemove r) (pre ++ l))).
  { induction l as [|b l IH]; intros pre c H; cbn [fold_left].
    - now rewrite app_nil_r.
    - replace (pre ++ b :: l)%list with ((pre ++ [b]) ++ l)%list
        by now rewrite <- app_assoc.
      apply IH. now apply collideBullet_hits. }
  apply (G bs []). cbn [c_shotsHit bulletsToRemove spent filter List.length]. lia.
Qed.

Lemma filter_negb_length {A} (p : A -> bool) (l : list A) :
  (List.length (filter (fun x => negb (p x)) l) + List.length (filter p l)
   = List.length l)%nat.
Proof.
  induction l as [|x l IH]; cbn [filter List.length]; [reflexivity|].
  destruct (p x); cbn [negb List.length]; lia.
Qed.

Lemma advancePhase_accuracy (b : bool) (t : Z) (s : GameState) :
  accuracyInv s -> accuracyInv (advancePhase b t s).
Proof.
  unfold accuracyInv. intros [H1 H2].
  assert (E : shotsHit (advancePhase b t s) = shotsHit s
              /\ shotsFired (advancePhase b t s) = shotsFired s
              /\ bullets (advancePhase b t s) = updateBullets (bullets s)).
  { unfold advancePhase, levelPhase, idlePhase, missWindowPhase, decayPhase,
      powerUpPhase, movePhase.
    gs. split_ifs; auto. }
  destruct E as (-> & -> & ->). split; [exact H1|].
  unfold updateBullets.
  pose proof (filter_length_le (fun b0 => (b_y b0 <? 4.5)%float)
                (map moveBullet (bullets s))) as L.
  rewrite length_map in L. lia.
Qed.

Lemma combatPhase_accuracy (e : Env) (t : Z) (s : GameState) :
  accuracyInv s -> accuracyInv (combatPhase e t s).
Proof.
  unfold accuracyInv. intros [H1 H2].
  pose proof (collide_hits (bullets s) (aliens s) (shotsHit s)) as C.
  cbv zeta in C. fold (collisionsOf s) in C.
  unfold combatPhase, processKills. gs.
  set (c := collisionsOf s) in *.
  set (s0 := set_shotsHit (c_shotsHit c) (set_aliens (c_aliens c) s)).
  assert (K : (shotsHit (fst (fold_left (processKill e t) (destroyedAliens c)
                                (s0, 0%nat))),
               shotsFired (fst (fold_left (processKill e t) (destroyedAliens c)
                                  (s0, 0%nat))),
               bullets (fst (fold_left (processKill e t) (destroyedAliens c)
                               (s0, 0%nat))))
              = (shotsHit s0, shotsFired s0, bullets s0)).
  { apply (processKills_invariant
             (fun r => (shotsHit r, shotsFired r, bullets r) = _));
      [|reflexivity].
    intros r k a <-. kill_split a; reflexivity. }
  injection K as K1 K2 K3. rewrite K1, K2, K3. subst s0. gs.
  pose proof (filter_negb_length (fun b => idIn (b_id b) (bulletsToRemove c))
                (bullets s)) as F.
  unfold spent in C. lia.
Qed.

Lemma cannonPhase_accuracy (s : GameState) :
  accuracyInv s -> accuracyInv (cannonPhase s).
Proof.
  unfold cannonPhase, accuracyInv.
  destruct (find (cannonHits s) (aliens s)); gs; [|auto].
  split_ifs; auto.
Qed.

Lemma escapeStep_accuracy (m : bool) (t : Z) (p : ScorePressure)
      (s : GameState) (a : Alien) :
  accuracyInv s -> accuracyInv (escapeStep m t p s a).
Proof.
  unfold escapeStep, missPenalty, accuracyInv. gs.
  split_ifs; auto.
Qed.

Lemma tick_accuracy (e : Env) (s : GameState) :
  accuracyInv s -> accuracyInv (tick e s).
Proof.
  intros H. rewrite tick_phases. unfold escapePhase.
  apply fold_left_invariant; [intros; now apply escapeStep_accuracy|].
  unfold afterCannon, afterCombat, afterAdvance.
  now apply cannonPhase_accuracy, combatPhase_accuracy, advancePhase_accuracy.
Qed.

Lemma sliceLast_shorter {A} (k : nat) (l : list A) :
  (List.length (sliceLast k l) <= List.length l)%nat.
Proof. unfold sliceLast. rewrite length_skipn. lia. Qed.

Lemma fire_accuracy (e : Env) (w : World) :
  accuracyInv (game w) -> accuracyInv (game (fire e w)).
Proof.
  unfold accuracyInv, fire, generateId. intros [H1 H2]. gs.
  pose proof (sliceLast_shorter (BULLET_LIMIT - 3) (bullets (game w))) as L.
  split_ifs; rewrite ?length_app; cbn [List.length]; lia.
Qed.

Ltac untouched_fields :=
  first [ reflexivity
        | unfold move; gs; reflexivity
        | unfold spawnAlien, generateId; gs; split_ifs; reflexivity
        | unfold nextWave; gs; split_ifs; reflexivity
        | unfold spawnBoss, generateId; gs; reflexivity
        | unfold updateBossHP; gs; split_ifs; reflexivity ].

Lemma reducer_accuracy (load : nat -> Z) (e : Env) (a : Action) (w : World) :
  accuracyInv (game w) -> accuracyInv (game (reducer load e a w)).
Proof.
  intros H.
  destruct a; cbn [reducer onGame game];
    try (unfold accuracyInv in *;
         match goal with
         | |- _ <= shotsHit ?x /\ _ =>
             replace (shotsHit x) with (shotsHit (game w)) by untouched_fields;
             replace (shotsFired x) with (shotsFired (game w))
               by untouched_fields;
             replace (bullets x) with (bullets (game w)) by untouched_fields
         end; exact H).
  - now apply fire_accuracy.
  - now apply tick_accuracy.
  - unfold accuracyInv. cbn. lia.
Qed.

(** X6.  Hits never outnumber shots: in every state reached from the
    initial one, the hits counted plus the bullets still in flight are at
    most the shots fired, so the accuracy shown never exceeds 100%. *)
Theorem hits_never_exceed_shots (load : nat -> Z) (trace : list (Env * Action)) :
  let s := stateAfter load trace in
  0 <= shotsHit s
  /\ shotsHit s + Z.of_nat (List.length (bullets s)) <= shotsFired s.
Proof.
  apply (run_invariant load accuracyInv).
  - unfold accuracyInv. cbn. lia.
  - intros e a w. apply reducer_accuracy.
Qed.

(** ** Power-ups in effect *)

Lemma refreshPowerUp_types (t : PowerUp) (x : Z) (l : list ActivePowerUp) :
  map p_type (refreshPowerUp t x l)
  = if hasPowerUp t l then map p_type l else (map p_type l ++ [t])%list.
Proof.
  unfold hasPowerUp.
  induction l as [|p l IH]; cbn [refreshPowerUp map existsb app]; [reflexivity|].
  destruct (PowerUp_eqb (p_type p) t); cbn [orb map p_type]; [reflexivity|].
  rewrite IH. now destruct (existsb _ l).
Qed.

Lemma PowerUp_eqb_eq (p q : PowerUp) : PowerUp_eqb p q = true <-> p = q.
Proof. destruct p, q; cbn; split; intros H; congruence. Qed.

Lemma hasPowerUp_In (t : PowerUp) (l : list ActivePowerUp) :
  hasPowerUp t l = true <-> In t (map p_type l).
Proof.
  unfold hasPowerUp. rewrite existsb_exists, in_map_iff.
  split; intros [p [H1 H2]]; exists p.
  - apply PowerUp_eqb_eq in H2. auto.
  - split; [tauto|]. apply PowerUp_eqb_eq. tauto.
Qed.

Lemma refreshPowerUp_distinct (t : PowerUp) (x : Z) (l : list ActivePowerUp) :
  t <> Shield ->
  NoDup (map p_type l) /\ ~ In Shield (map p_type l) ->
  NoDup (map p_type (refreshPowerUp t x l))
  /\ ~ In Shield (map p_type (refreshPowerUp t x l)).
Proof.
  intros Ht [H1 H2]. rewrite refreshPowerUp_types.
  destruct (hasPowerUp t l) eqn:E; [auto|].
  split.
  - apply NoDup_app; [exact H1 | repeat constructor; intros [] | ].
    intros y Hy [<-|[]]. apply hasPowerUp_In in Hy. congruence.
  - rewrite in_app_iff. intros [H|[H|[]]]; auto.
Qed.

Lemma expirePowerUps_distinct (t : Z) (l : list ActivePowerUp) :
  NoDup (map p_type l) /\ ~ In Shield (map p_type l) ->
  NoDup (map p_type (expirePowerUps t l))
  /\ ~ In Shield (map p_type (expirePowerUps t l)).
Proof.
  unfold expirePowerUps. intros [H1 H2].
  assert (I : forall y, In y (map p_type (filter (fun p => negb (expiresAt p <=? t)) l))
                        -> In y (map p_type l)).
  { intros y Hy. apply in_map_iff in Hy. destruct Hy as [p [<- Hp]].
    apply filter_In in Hp. apply in_map. tauto. }
  split; [|intros H; apply H2, I, H].
  clear H2. induction l as [|p l IH]; cbn [filter map]; [constructor|].
  cbn [map] in H1. inversion H1 as [|? ? Hn Hd]; subst.
  destruct (negb (expiresAt p <=? t)); cbn [map].
  - constructor; [|apply IH; auto].
    + intros Hin. apply Hn. apply in_map_iff in Hin.
      destruct Hin as [q [<- Hq]]. apply filter_In in Hq. apply in_map. tauto.
    + intros y Hy. apply in_map_iff in Hy. destruct Hy as [q [<- Hq]].
      apply filter_In in Hq. apply in_map. tauto.
  - apply IH; auto.
    intros y Hy. apply in_map_iff in Hy. destruct Hy as [q [<- Hq]].
    apply filter_In in Hq. apply in_map. tauto.
Qed.

Lemma advancePhase_activePowerUps (b : bool) (t : Z) (s : GameState) :
  activePowerUps (advancePhase b t s) = expirePowerUps t (activePowerUps s).
Proof.
  unfold advancePhase, levelPhase, idlePhase, missWindowPhase, decayPhase,
    powerUpPhase, movePhase.
  gs. split_ifs; reflexivity.
Qed.

Lemma processKill_distinct (e : Env) (t : Z) (s : GameState) (k : nat) (a : Alien) :
  powerUpsDistinct s -> powerUpsDistinct (fst (processKill e t (s, k) a)).
Proof.
  unfold powerUpsDistinct, activeTypes. intros H.
  kill_split a; try exact H; apply refreshPowerUp_distinct; auto; discriminate.
Qed.

Lemma combatPhase_activePowerUps (P : list ActivePowerUp -> Prop)
      (e : Env) (t : Z) (s : GameState) :
  (forall r k a, P (activePowerUps r) ->
                 P (activePowerUps (fst (processKill e t (r, k) a)))) ->
  P (activePowerUps s) -> P (activePowerUps (combatPhase e t s)).
Proof.
  intros Hstep H. unfold combatPhase, processKills. gs.
  apply (processKills_invariant (fun r => P (activePowerUps r))); [exact Hstep|].
  gs. exact H.
Qed.

Lemma cannonPhase_activePowerUps (s : GameState) :
  activePowerUps (cannonPhase s) = activePowerUps s.
Proof.
  unfold cannonPhase.
  destruct (find (cannonHits s) (aliens s)); gs; [|reflexivity].
  split_ifs; reflexivity.
Qed.

Lemma escapePhase_activePowerUps (m : bool) (t : Z) (p : ScorePressure)
      (s : GameState) :
  activePowerUps (escapePhase m t p s) = activePowerUps s.
Proof.
  unfold escapePhase.
  apply (fold_left_invariant (fun r => activePowerUps r = activePowerUps s));
    [|reflexivity].
  intros acc a <-. unfold escapeStep, missPenalty. gs.
  split_ifs; reflexivity.
Qed.

Lemma tick_activePowerUps (P : list ActivePowerUp -> Prop) (e : Env)
      (s : GameState) :
  (forall r k a, P (activePowerUps r) ->
                 P (activePowerUps (fst (processKill e (clock e 0%nat) (r, k) a)))) ->
  P (expirePowerUps (clock e 0%nat) (activePowerUps s)) ->
  P (activePowerUps (tick e s)).
Proof.
  intros Hstep H.
  rewrite tick_phases, escapePhase_activePowerUps.
  unfold afterCannon, afterCombat, afterAdvance.
  rewrite cannonPhase_activePowerUps.
  apply combatPhase_activePowerUps; [exact Hstep|].
  now rewrite advancePhase_activePowerUps.
Qed.

Lemma reducer_distinct (load : nat -> Z) (e : Env) (a : Action) (w : World) :
  powerUpsDistinct (game w) -> powerUpsDistinct (game (reducer load e a w)).
Proof.
  intros H.
  destruct a; cbn [reducer onGame game];
    try (unfold powerUpsDistinct, activeTypes in *;
         match goal with
         | |- NoDup (map p_type (activePowerUps ?x)) /\ _ =>
             replace (activePowerUps x) with (activePowerUps (game w))
               by untouched_field
         end; exact H).
  - unfold powerUpsDistinct, activeTypes.
    apply (tick_activePowerUps
             (fun l => NoDup (map p_type l) /\ ~ In Shield (map p_type l))).
    + cbv beta. intros r k x H0.
      pose proof (processKill_distinct e (clock e 0%nat) r k x) as D.
      unfold powerUpsDistinct, activeTypes in D. apply D. exact H0.
    + now apply expirePowerUps_distinct.
  - unfold powerUpsDistinct. cbn. split; [constructor | tauto].
Qed.

(** X7.  The power-ups in effect are of pairwise different kinds and never
    include the shield, which is spent at once on a life: so at most five
    are in effect, in every state reached from the initial one. *)
Theorem active_powerUps_distinct (load : nat -> Z) (trace : list (Env * Action)) :
  let s := stateAfter load trace in
  NoDup (map p_type (activePowerUps s))
  /\ ~ In Shield (map p_type (activePowerUps s))
  /\ (List.length (activePowerUps s) <= 5)%nat.
Proof.
  cbv zeta.
  assert (H : powerUpsDistinct (stateAfter load trace)).
  { apply (run_invariant load powerUpsDistinct).
    - unfold powerUpsDistinct. cbn. split; [constructor | tauto].
    - intros e a w. apply reducer_distinct. }
  destruct H as [H1 H2]. unfold activeTypes in *.
  split; [exact H1 | split; [exact H2|]].
  rewrite <- (length_map p_type).
  change 5%nat with
    (List.length [FireRate; DoubleBullets; SpreadShot; ScoreMultiplier; SlowMotion]).
  apply NoDup_incl_length; [exact H1|].
  intros y Hy. destruct y; cbn; tauto.
Qed.

(** X8.  When a frame ends, every power-up in effect expires strictly after
    the frame's clock reading: expired ones are dropped before anything
    reads them, and the ones granted in the frame last at least 3000 ms. *)
Theorem tick_powerUps_unexpired (e : Env) (s : GameState) (p : ActivePowerUp) :
  In p (activePowerUps (tick e s)) -> clock e 0%nat < expiresAt p.
Proof.
  revert p. apply Forall_forall.
  apply (tick_activePowerUps (Forall (fun p => clock e 0%nat < expiresAt p))).
  - intros r k a H.
    assert (R : forall t x l, clock e 0%nat < x ->
                Forall (fun p => clock e 0%nat < expiresAt p) l ->
                Forall (fun p => clock e 0%nat < expiresAt p)
                  (refreshPowerUp t x l)).
    { intros t x l Hx. induction l as [|q l IH]; cbn [refreshPowerUp]; intros Hl.
      - repeat constructor. exact Hx.
      - inversion Hl; subst.
        destruct (PowerUp_eqb (p_type q) t); constructor; auto. }
    assert (D : forall l, 0 < getPowerUpDuration l).
    { intros l. unfold getPowerUpDuration. split_ifs; lia. }
    kill_split a; try exact H; apply R; auto;
      match goal with |- _ < _ + getPowerUpDuration ?l => specialize (D l); lia end.
  - unfold expirePowerUps. apply Forall_forall. intros q Hq.
    apply filter_In in Hq. destruct Hq as [_ Hq].
    apply negb_true_iff, Z.leb_gt in Hq. exact Hq.
Qed.

Lemma tick_powerUps_unexpired_witness :
  let e := envAt 16 0 in
  let s := stateAfter load0 firstKillTrace in
  let p := {| p_type := FireRate; expiresAt := 8016 |} in
  In p (activePowerUps (tick e s)) /\ clock e 0%nat < expiresAt p.
Proof.
  cbv zeta. split; [vm_compute; left; reflexivity|].
  apply (tick_powerUps_unexpired (envAt 16 0) (stateAfter load0 firstKillTrace)).
  vm_compute. left. reflexivity.
Defined.

(** ** Game over *)

Lemma advancePhase_status (b : bool) (t : Z) (s : GameState) :
  status (advancePhase b t s) = status s.
Proof.
  unfold advancePhase, levelPhase, idlePhase, missWindowPhase, decayPhase,
    powerUpPhase, movePhase.
  gs. split_ifs; reflexivity.
Qed.

Lemma processKills_status (e : Env) (t : Z) (l : list Alien) (s : GameState)
      (k : nat) :
  status s <> GameOver ->
  status (fst (fold_left (processKill e t) l (s, k))) <> GameOver.
Proof.
  apply (processKills_invariant (fun r => status r <> GameOver)).
  intros r k0 a H. kill_split a; try exact H; discriminate.
Qed.

Lemma combatPhase_alive (e : Env) (t : Z) (s : GameState) :
  0 < lives s -> status s <> GameOver ->
  0 < lives (combatPhase e t s) /\ status (combatPhase e t s) <> GameOver.
Proof.
  intros H1 H2. split; [now apply combatPhase_lives|].
  unfold combatPhase, processKills. gs.
  apply processKills_status. gs. exact H2.
Qed.

Lemma cannonPhase_gameOver (s : GameState) :
  0 < lives s -> status s <> GameOver ->
  0 <= lives (cannonPhase s) /\ gameOverIffNoLives (cannonPhase s).
Proof.
  unfold cannonPhase, gameOverIffNoLives. intros H1 H2.
  destruct (find (cannonHits s) (aliens s)); gs.
  - split_ifs; b2p; gs_all; split; try lia; split; intros; try reflexivity;
      try lia; congruence.
  - split; [lia|]. split; intros; [congruence | lia].
Qed.

Lemma escapeStep_gameOver (m : bool) (t : Z) (p : ScorePressure)
      (s : GameState) (a : Alien) :
  0 <= lives s /\ gameOverIffNoLives s ->
  0 <= lives (escapeStep m t p s a) /\ gameOverIffNoLives (escapeStep m t p s a).
Proof.
  unfold escapeStep, missPenalty, gameOverIffNoLives. intros [H0 [H1 H2]]. gs.
  split_ifs; b2p; gs_all;
    (split; [lia|]); split; intros G; try reflexivity; try lia;
    try (apply H1 in G; lia); auto.
Qed.

(** X9.  A frame that starts with lives left and the game not over ends in
    game over exactly when it ends without lives. *)
Theorem game_over_iff_no_lives (e : Env) (s : GameState) :
  0 < lives s -> status s <> GameOver ->
  (status (tick e s) = GameOver <-> lives (tick e s) = 0).
Proof.
  intros H1 H2.
  assert (G : 0 <= lives (tick e s) /\ gameOverIffNoLives (tick e s)).
  { rewrite tick_phases. unfold escapePhase.
    apply fold_left_invariant; [intros; now apply escapeStep_gameOver|].
    unfold afterCannon, afterCombat, afterAdvance.
    apply cannonPhase_gameOver; apply combatPhase_alive;
      rewrite ?advancePhase_lives, ?advancePhase_status; assumption. }
  exact (proj2 G).
Qed.

Lemma game_over_iff_no_lives_witness :
  let s := game (run load0 lastLifeTrace (initialWorld load0)) in
  let e := envAt 48 0 in
  lives s = 1 /\ status s = Idle
  /\ status (tick e s) = GameOver /\ lives (tick e s) = 0
  /\ (status (tick e s) = GameOver <-> lives (tick e s) = 0).
Proof.
  cbv zeta.
  split; [vm_compute; reflexivity|]. split; [vm_compute; reflexivity|].
  split; [vm_compute; reflexivity|]. split; [vm_compute; reflexivity|].
  apply (game_over_iff_no_lives (envAt 48 0)
           (game (run load0 lastLifeTrace (initialWorld load0))));
    [vm_compute; reflexivity | vm_compute; discriminate].
Defined.

(** ** Escapes *)

Lemma escapeStep_fatal (m : bool) (t : Z) (p : ScorePressure)
      (s : GameState) (a : Alien) :
  let r := escapeStep m t p s a in
  (status s = GameOver /\ lives s = 0 -> status r = GameOver /\ lives r = 0)
  /\ ((a_y a <? -3)%float = true ->
      a_isBoss a = true \/ 5 <= escapeStreak r ->
      status r = GameOver /\ lives r = 0).
Proof.
  cbv zeta. unfold escapeStep, missPenalty. gs.
  split.
  - intros [H1 H2]. split_ifs; b2p; gs_all; split; auto; lia.
  - intros Hy Hb. rewrite Hy. gs.
    destruct (a_isBoss a) eqn:B; gs.
    + split_ifs; auto.
    + destruct Hb as [Hb|Hb]; [discriminate|]. revert Hb.
      split_ifs; b2p; gs_all; intros; auto; lia.
Qed.

Lemma escapeStep_miss (m : bool) (t : Z) (p : ScorePressure)
      (s : GameState) (a : Alien) :
  let r := escapeStep m t p s a in
  missedAliens r = missedAliens s + escapees [a]
  /\ escapeStreak r = escapeStreak s + escapees [a]
  /\ totalKills r = totalKills s /\ waveKills r = waveKills s.
Proof.
  cbv zeta. unfold escapeStep, missPenalty, escapees. cbn [filter]. gs.
  destruct (a_y a <? -3)%float; cbn [List.length Z.of_nat]; gs;
    [|repeat split; lia].
  split_ifs; repeat split; lia.
Qed.

Lemma escapees_cons (a : Alien) (l : list Alien) :
  escapees (a :: l) = escapees [a] + escapees l.
Proof.
  unfold escapees. cbn [filter].
  destruct (a_y a <? -3)%float; cbn [List.length]; lia.
Qed.

Lemma escapees_nonneg (l : list Alien) : 0 <= escapees l.
Proof. unfold escapees. lia. Qed.

Lemma escapeFold_counts (m : bool) (t : Z) (p : ScorePressure) (l : list Alien) :
  forall s,
    let r := fold_left (escapeStep m t p) l s in
    missedAliens r = missedAliens s + escapees l
    /\ escapeStreak r = escapeStreak s + escapees l
    /\ totalKills r = totalKills s /\ waveKills r = waveKills s.
Proof.
  induction l as [|a l IH]; intros s; cbn [fold_left].
  - unfold escapees. cbn. repeat split; lia.
  - specialize (IH (escapeStep m t p s a)). cbv zeta in IH.
    destruct IH as (I1 & I2 & I3 & I4).
    destruct (escapeStep_miss m t p s a) as (M1 & M2 & M3 & M4).
    cbv zeta. rewrite I1, I2, I3, I4, M1, M2, M3, M4, (escapees_cons a l).
    repeat split; lia.
Qed.

Lemma escapeFold_fatal (m : bool) (t : Z) (p : ScorePressure) (l : list Alien) :
  forall s,
    let r := fold_left (escapeStep m t p) l s in
    (status s = GameOver /\ lives s = 0 -> status r = GameOver /\ lives r = 0)
    /\ (existsb (fun a => (a_y a <? -3)%float && a_isBoss a) l = true
        \/ (0 < escapees l /\ 5 <= escapeStreak r) ->
        status r = GameOver /\ lives r = 0).
Proof.
  induction l as [|a l IH]; intros s; cbn [fold_left existsb].
  - split; [auto|]. unfold escapees. cbn. intros [H|H]; [discriminate | lia].
  - destruct (IH (escapeStep m t p s a)) as [I1 I2].
    destruct (escapeStep_fatal m t p s a) as [F1 F2].
    cbv zeta in *. split; [auto|].
    intros H.
    destruct (a_y a <? -3)%float eqn:Y; cbn [andb orb] in H.
    + destruct (a_isBoss a) eqn:B; [apply I1, F2; auto|].
      cbn [orb] in H.
      destruct (Z.ltb_spec 0 (escapees l)) as [L|L].
      * apply I2. destruct H as [H|[_ H]]; auto.
      * destruct H as [H|[_ H]]; [apply I2; auto|].
        pose proof (escapeFold_counts m t p l (escapeStep m t p s a)) as C.
        cbv zeta in C. destruct C as (_ & C & _).
        pose proof (escapees_nonneg l).
        apply I1, F2; [reflexivity|]. right. lia.
    + apply I2. rewrite (escapees_cons a l) in H.
      unfold escapees at 1 in H. cbn [filter] in H. rewrite Y in H.
      cbn [List.length Z.of_nat] in H. destruct H as [H|H]; auto.
Qed.

(** X10.  A boss below the bottom line ends the game, and so does the fifth
    escape in a row: the frame ends in game over with no lives left,
    whatever the lives were. *)
Theorem escape_ends_game (e : Env) (s : GameState) :
  existsb (fun a => (a_y a <? -3)%float && a_isBoss a)
    (aliens (afterCannon e s)) = true
  \/ (0 < escapesOfFrame e s /\ 5 <= escapeStreak (tick e s)) ->
  status (tick e s) = GameOver /\ lives (tick e s) = 0.
Proof.
  rewrite tick_phases. unfold escapePhase, escapesOfFrame.
  apply escapeFold_fatal.
Qed.

Lemma escape_ends_game_witness :
  let e := envAt 48 0 in
  let s := stateAfter load0 bossEscapeTrace in
  (existsb (fun a => (a_y a <? -3)%float && a_isBoss a)
     (aliens (afterCannon e s)) = true
   \/ (0 < escapesOfFrame e s /\ 5 <= escapeStreak (tick e s)))
  /\ status (tick e s) = GameOver /\ lives (tick e s) = 0.
Proof.
  cbv zeta. split; [left; vm_compute; reflexivity|].
  apply (escape_ends_game (envAt 48 0) (stateAfter load0 bossEscapeTrace)).
  left. vm_compute. reflexivity.
Defined.

(** ** Kills and escapes of a frame *)

Lemma processKills_tally (e : Env) (t : Z) (l : list Alien) :
  forall s k,
    let r := fst (fold_left (processKill e t) l (s, k)) in
    totalKills r = totalKills s + Z.of_nat (List.length l)
    /\ waveKills r = waveKills s + Z.of_nat (List.length l)
    /\ missedAliens r = missedAliens s
    /\ escapeStreak r = match l with [] => escapeStreak s | _ => 0 end.
Proof.
  induction l as [|a l IH]; intros s k; cbn [fold_left List.length].
  - cbn [fst]. repeat split; lia.
  - assert (K : let r := fst (processKill e t (s, k) a) in
                totalKills r = totalKills s + 1
                /\ waveKills r = waveKills s + 1
                /\ missedAliens r = missedAliens s
                /\ escapeStreak r = 0).
    { cbv zeta. kill_split a; repeat split; reflexivity. }
    destruct (processKill e t (s, k) a) as [s1 k1]. cbn [fst] in K.
    destruct K as (K1 & K2 & K3 & K4).
    destruct (IH s1 k1) as (I1 & I2 & I3 & I4). cbv zeta.
    rewrite I1, I2, I3, I4, K1, K2, K3.
    repeat split; try lia. now destruct l.
Qed.

Lemma advancePhase_tally (b : bool) (t : Z) (s : GameState) :
  let r := advancePhase b t s in
  totalKills r = totalKills s /\ waveKills r = waveKills s
  /\ missedAliens r = missedAliens s /\ escapeStreak r = escapeStreak s.
Proof.
  cbv zeta.
  unfold advancePhase, levelPhase, idlePhase, missWindowPhase, decayPhase,
    powerUpPhase, movePhase.
  gs. split_ifs; auto.
Qed.

Lemma cannonPhase_tally (s : GameState) :
  let r := cannonPhase s in
  totalKills r = totalKills s /\ waveKills r = waveKills s
  /\ missedAliens r = missedAliens s /\ escapeStreak r = escapeStreak s.
Proof.
  cbv zeta. unfold cannonPhase.
  destruct (find (cannonHits s) (aliens s)); gs; [|auto].
  split_ifs; auto.
Qed.

Lemma combatPhase_tally (e : Env) (t : Z) (s : GameState) :
  totalKills (combatPhase e t s)
  = totalKills s + Z.of_nat (List.length (destroyedAliens (collisionsOf s)))
  /\ waveKills (combatPhase e t s)
     = waveKills s + Z.of_nat (List.length (destroyedAliens (collisionsOf s)))
  /\ missedAliens (combatPhase e t s) = missedAliens s
  /\ escapeStreak (combatPhase e t s)
     = match destroyedAliens (collisionsOf s) with
       | [] => escapeStreak s
       | _ => 0
       end.
Proof.
  unfold combatPhase, processKills. gs.
  match goal with
  | |- context [fold_left _ ?l (?s0, ?k)] =>
      pose proof (processKills_tally e t l s0 k) as P
  end.
  cbv zeta in P. gs_in P. exact P.
Qed.

Lemma escapePhase_tally (m : bool) (t : Z) (p : ScorePressure) (s : GameState) :
  missedAliens (escapePhase m t p s) = missedAliens s + escapees (aliens s)
  /\ escapeStreak (escapePhase m t p s) = escapeStreak s + escapees (aliens s)
  /\ totalKills (escapePhase m t p s) = totalKills s
  /\ waveKills (escapePhase m t p s) = waveKills s.
Proof. unfold escapePhase. apply escapeFold_counts. Qed.

(** X11.  The tallies of a frame: every alien the collision loops declare
    destroyed counts once in [totalKills] and in [waveKills], every alien
    below the bottom line counts once in [missedAliens], and the escape
    streak restarts from zero when the frame has a kill before the frame's
    escapes are added to it. *)
Theorem frame_tallies (e : Env) (s : GameState) :
  totalKills (tick e s) = totalKills s + killsOfFrame e s
  /\ waveKills (tick e s) = waveKills s + killsOfFrame e s
  /\ missedAliens (tick e s) = missedAliens s + escapesOfFrame e s
  /\ escapeStreak (tick e s)
     = (if killsOfFrame e s =? 0 then escapeStreak s else 0)
       + escapesOfFrame e s.
Proof.
  rewrite tick_phases.
  unfold killsOfFrame, escapesOfFrame, afterCannon, afterCombat, afterAdvance.
  set (t := clock e 0%nat).
  set (s1 := advancePhase true t s).
  set (s2 := combatPhase e t s1).
  set (s3 := cannonPhase s2).
  pose proof (escapePhase_tally true t (getScorePressure (level s1)) s3)
    as (E1 & E2 & E3 & E4).
  pose proof (cannonPhase_tally s2) as C. cbv zeta in C.
  destruct C as (C1 & C2 & C3 & C4).
  pose proof (combatPhase_tally e t s1) as (K1 & K2 & K3 & K4).
  pose proof (advancePhase_tally true t s) as A. cbv zeta in A.
  destruct A as (A1 & A2 & A3 & A4).
  fold s1 in A1, A2, A3, A4. fold s2 in K1, K2, K3, K4. fold s3 in C1, C2, C3, C4.
  clearbody s3 s2 s1 t.
  rewrite E1, E2, E3, E4, C1, C2, C3, C4, K1, K2, K3, K4, A1, A2, A3, A4.
  repeat split; try reflexivity.
  destruct (destroyedAliens (collisionsOf s1)) as [|x l];
    cbn [List.length]; [reflexivity|].
  destruct (Z.eqb_spec (Z.of_nat (S (List.length l))) 0); [lia | reflexivity].
Qed.

(** ** Hit points *)

Lemma damageAlien_totalHp (id : string) (l : list Alien) :
  (exists a, In a l /\ a_id a = id) ->
  totalHp (fst (damageAlien id l)) = totalHp l - 1.
Proof.
  induction l as [|x l IH]; intros [a [Hin Hid]]; [destruct Hin|].
  cbn [damageAlien].
  destruct (String.eqb_spec (a_id x) id) as [E|E].
  - cbn [fst totalHp fold_right set_a_hp a_hp]. lia.
  - destruct Hin as [->|Hin]; [congruence|].
    specialize (IH (ex_intro _ a (conj Hin Hid))).
    destruct (damageAlien id l) as [rest d]. cbn [fst] in *.
    cbn [totalHp fold_right] in *. fold (totalHp rest). fold (totalHp l). lia.
Qed.

Lemma collideBullet_totalHp (c : Collisions) (b : Bullet) :
  let c' := collideBullet c b in
  totalHp (c_aliens c') + c_shotsHit c' = totalHp (c_aliens c) + c_shotsHit c.
Proof.
  cbv zeta. unfold collideBullet.
  destruct (idIn (b_id b) (bulletsToRemove c)); [reflexivity|].
  destruct ((b_y b <? -4)%float || (5 <? b_y b)%float); [reflexivity|].
  destruct (find (bulletHits b) (c_aliens c)) as [a|] eqn:F; [|reflexivity].
  apply find_some in F. destruct F as [F _].
  pose proof (damageAlien_totalHp (a_id a) (c_aliens c)
                (ex_intro _ a (conj F eq_refl))) as D.
  destruct (damageAlien (a_id a) (c_aliens c)) as [als hit].
  cbn [fst] in D. cbn [c_aliens c_shotsHit]. lia.
Qed.

(** X12.  Every hit the collision loops count costs exactly one hit point:
    the hit points of the aliens and the hits counted add up to what they
    were before the loops. *)
Theorem collide_conserves_hit_points (bs : list Bullet) (als : list Alien) (h : Z) :
  totalHp (c_aliens (collide bs als h)) + c_shotsHit (collide bs als h)
  = totalHp als + h.
Proof.
  unfold collide.
  apply (fold_left_invariant
           (fun c => totalHp (c_aliens c) + c_shotsHit c = totalHp als + h));
    [|reflexivity].
  intros c b H. now rewrite (collideBullet_totalHp c b).
Qed.

(** ** What is left on screen *)

Lemma escapeStep_aliens (m : bool) (t : Z) (p : ScorePressure)
      (s : GameState) (a : Alien) :
  aliens (escapeStep m t p s a)
  = if (a_y a <? -3)%float then removeById (a_id a) (aliens s) else aliens s.
Proof.
  unfold escapeStep, missPenalty. gs.
  destruct (a_y a <? -3)%float; [|reflexivity].
  split_ifs; reflexivity.
Qed.

Lemma filter_filter {A} (p q : A -> bool) (l : list A) :
  filter p (filter q l) = filter (fun x => q x && p x) l.
Proof.
  induction l as [|x l IH]; cbn [filter]; [reflexivity|].
  destruct (q x); cbn [filter andb]; [destruct (p x)|]; now rewrite IH.
Qed.

Lemma escapeFold_aliens (m : bool) (t : Z) (p : ScorePressure) (l : list Alien) :
  forall s,
    aliens (fold_left (escapeStep m t p) l s)
    = filter (fun x => negb (escaped l x)) (aliens s).
Proof.
  induction l as [|a l IH]; intros s; cbn [fold_left].
  - unfold escaped. cbn [existsb negb].
    induction (aliens s) as [|x xs IHx]; cbn [filter]; [reflexivity|].
    now rewrite <- IHx.
  - rewrite IH, escapeStep_aliens. unfold escaped. cbn [existsb].
    destruct (a_y a <? -3)%float; cbn [andb orb]; [|reflexivity].
    unfold removeById. rewrite filter_filter.
    apply filter_ext. intros x. now rewrite negb_orb.
Qed.

Lemma combatPhase_onScreen (e : Env) (t : Z) (s : GameState) :
  (forall a, In a (aliens (combatPhase e t s)) -> 0 < a_hp a)
  /\ incl (bullets (combatPhase e t s)) (bullets s).
Proof.
  unfold combatPhase. gs. split.
  - intros a H. apply filter_In in H. destruct H as [_ H]. now apply Z.ltb_lt.
  - intros b H. apply filter_In in H. destruct H as [H _].
    unfold processKills in H.
    match type of H with
    | In b (bullets (fst (fold_left _ ?l (?s0, ?k)))) =>
        assert (E : bullets (fst (fold_left (processKill e t) l (s0, k)))
                    = bullets s0)
    end.
    { apply (processKills_invariant (fun r => bullets r = _)); [|reflexivity].
      intros r k a <-. kill_split a; reflexivity. }
    rewrite E in H. gs_in H. exact H.
Qed.

Lemma cannonPhase_onScreen (s : GameState) :
  incl (aliens (cannonPhase s)) (aliens s)
  /\ bullets (cannonPhase s) = bullets s.
Proof.
  unfold cannonPhase.
  destruct (find (cannonHits s) (aliens s)); gs;
    [|split; [apply incl_refl | reflexivity]].
  split_ifs; (split; [|reflexivity]); unfold removeById;
    intros x Hx; apply filter_In in Hx; tauto.
Qed.

Lemma escapePhase_bullets (m : bool) (t : Z) (p : ScorePressure) (s : GameState) :
  bullets (escapePhase m t p s) = bullets s.
Proof.
  unfold escapePhase.
  apply (fold_left_invariant (fun r => bullets r = bullets s)); [|reflexivity].
  intros acc a <-. unfold escapeStep, missPenalty. gs. split_ifs; reflexivity.
Qed.

Lemma advancePhase_bullets (b : bool) (t : Z) (s : GameState) :
  bullets (advancePhase b t s) = updateBullets (bullets s).
Proof.
  unfold advancePhase, levelPhase, idlePhase, missWindowPhase, decayPhase,
    powerUpPhase, movePhase.
  gs. split_ifs; reflexivity.
Qed.

Lemma escapePhase_aliens (m : bool) (t : Z) (p : ScorePressure) (s : GameState) :
  aliens (escapePhase m t p s)
  = filter (fun x => negb (escaped (aliens s) x)) (aliens s).
Proof. unfold escapePhase. apply escapeFold_aliens. Qed.

Lemma escaped_self (l : list Alien) (a : Alien) :
  In a l -> (a_y a <? -3)%float = true -> escaped l a = true.
Proof.
  intros Hin Y. unfold escaped. apply existsb_exists. exists a.
  split; [exact Hin|]. now rewrite Y, String.eqb_refl.
Qed.

(** X13.  What a frame leaves on screen: every alien has hit points left
    and is not below the bottom line ([y < -3] is false for it), and every
    bullet is below the top line ([y < 4.5]). *)
Theorem tick_clears_the_screen (e : Env) (s : GameState) :
  Forall (fun a => 0 < a_hp a /\ (a_y a <? -3)%float = false)
    (aliens (tick e s))
  /\ Forall (fun b => (b_y b <? 4.5)%float = true) (bullets (tick e s)).
Proof.
  rewrite tick_phases. unfold afterCannon, afterCombat, afterAdvance.
  set (t := clock e 0%nat).
  set (s1 := advancePhase true t s).
  set (s2 := combatPhase e t s1).
  set (s3 := cannonPhase s2).
  set (p := getScorePressure (level s1)).
  pose proof (advancePhase_bullets true t s) as B1. fold s1 in B1.
  pose proof (combatPhase_onScreen e t s1) as [A2 B2]. fold s2 in A2, B2.
  pose proof (cannonPhase_onScreen s2) as [A3 B3]. fold s3 in A3, B3.
  pose proof (escapePhase_bullets true t p s3) as B4.
  pose proof (escapePhase_aliens true t p s3) as A4.
  clearbody p s3 s2 s1 t.
  rewrite A4, B4, B3. split; apply Forall_forall.
  - intros a H. apply filter_In in H. destruct H as [Hin Hesc].
    split; [apply A2, A3, Hin|].
    destruct (a_y a <? -3)%float eqn:Y; [|reflexivity].
    rewrite (escaped_self (aliens s3) a Hin Y) in Hesc. discriminate Hesc.
  - intros b H. apply B2 in H. rewrite B1 in H.
    unfold updateBullets in H. apply filter_In in H. tauto.
Qed.

(** ** Bosses *)

Lemma isBossLevel_cases (level : Z) :
  isBossLevel level = true ->
  In level [10; 20; 30; 40; 50; 60; 70; 80; 90; 100].
Proof.
  unfold isBossLevel. intros H. b2p.
  assert (E : level = 10 * (level / 10)) by (Z.div_mod_to_equations; lia).
  assert (R : 1 <= level / 10 <= 10) by (Z.div_mod_to_equations; lia).
  cbn [In].
  destruct (Z.eq_dec (level / 10) 1); [lia|].
  destruct (Z.eq_dec (level / 10) 2); [lia|].
  destruct (Z.eq_dec (level / 10) 3); [lia|].
  destruct (Z.eq_dec (level / 10) 4); [lia|].
  destruct (Z.eq_dec (level / 10) 5); [lia|].
  destruct (Z.eq_dec (level / 10) 6); [lia|].
  destruct (Z.eq_dec (level / 10) 7); [lia|].
  destruct (Z.eq_dec (level / 10) 8); [lia|].
  destruct (Z.eq_dec (level / 10) 9); [lia|].
  destruct (Z.eq_dec (level / 10) 10); lia.
Qed.

(** X14.  A boss configuration exists exactly on the boss levels; there the
    hit points are the whole number 15 + 25 * (level / 10), from 40 at
    level 10 to 265 at level 100, the score bonus is 5000 * level, the
    cooldown 5000 + 50 * level and the boss has 2 to 5 phases. *)
Theorem getBossConfig_on_boss_levels (level : Z) :
  (getBossConfig level = None <-> isBossLevel level = false)
  /\ forall c, getBossConfig level = Some c ->
       bc_level c = level
       /\ bc_hp c = floatOfZ (15 + 25 * (level / 10))
       /\ 40 <= 15 + 25 * (level / 10) <= 265
       /\ bc_scoreBonus c = floatOfZ (5000 * level)
       /\ bc_powerCooldown c = 5000 + 50 * level
       /\ 2 <= bc_phases c <= 5.
Proof.
  unfold getBossConfig.
  destruct (isBossLevel level) eqn:B; cbn [negb].
  - apply isBossLevel_cases in B. cbn [In] in B.
    repeat (destruct B as [<-|B]; [vm_compute; split;
      [split; intros H; discriminate H
      |intros c H; injection H as <-; cbn;
       repeat split; try reflexivity; discriminate]|]).
    destruct B.
  - split; [tauto|]. intros c H. discriminate H.
Qed.

(** ** Enemy kinds *)

Lemma pickElite_In (r : float) (l : list EliteEnemyConfig) (c : EliteEnemyConfig) :
  pickElite r l = Some c -> In c l.
Proof.
  revert r. induction l as [|x l IH]; intros r; cbn [pickElite]; [discriminate|].
  destruct (r - floatOfZ (spawnWeight x) <=? 0)%float.
  - intros H. injection H as <-. now left.
  - intros H. right. exact (IH _ H).
Qed.

(** X15.  Whatever [Math.random] returns, the enemy kind drawn for a level
    is an entry of the table that the level has unlocked
    ([minLevel <= level]); the draw has no result only below level 1, where
    no kind is unlocked. *)
Theorem getRandomEliteType_unlocked (e : Env) (level : Z) :
  match getRandomEliteType e level with
  | Some c => In c ELITE_ENEMY_CONFIGS /\ minLevel c <= level
  | None => level < 1
  end.
Proof.
  unfold getRandomEliteType.
  assert (A : forall c, In c (getAvailableEliteTypes level) ->
                        In c ELITE_ENEMY_CONFIGS /\ minLevel c <= level).
  { intros c H. unfold getAvailableEliteTypes in H. apply filter_In in H.
    destruct H as [H1 H2]. split; [exact H1 | now apply Z.leb_le]. }
  destruct (pickElite _ (getAvailableEliteTypes level)) as [c|] eqn:P.
  - apply A. exact (pickElite_In _ _ _ P).
  - destruct (getAvailableEliteTypes level) as [|c l] eqn:E; cbn [hd_error].
    + destruct (Z.ltb_spec level 1) as [L|L]; [exact L|].
      assert (I : In {| ee_type := et_basic; minLevel := 1; ee_hp := 1;
                        ee_speed := 1; behavior := "straight";
                        spawnWeight := 100 |} (getAvailableEliteTypes level)).
      { unfold getAvailableEliteTypes. apply filter_In. split; [now left|].
        cbn [minLevel]. now apply Z.leb_le. }
      rewrite E in I. destruct I.
    + apply A. now left.
Qed.

(** X16.  The weights of the alien colours are percentages at every level:
    each is positive and the six add up to 100. *)
Theorem getAlienTypeWeights_percentages (level : Z) :
  Forall (fun t => 0 < getAlienTypeWeights level t) alienTypeKeys
  /\ fold_left Z.add (map (getAlienTypeWeights level) alienTypeKeys) 0 = 100.
Proof.
  unfold getAlienTypeWeights, alienTypeKeys.
  destruct (getDifficultyBracket level); cbn;
    (split; [repeat constructor | reflexivity]).
Qed.

(** ** Hit points of a spawned alien *)

Lemma getWaveConfig_alienHP (level wave : Z) :
  1 <= alienHP (getWaveConfig level wave) <= 4.
Proof.
  unfold getWaveConfig.
  repeat match goal with
         | |- context [if ?c then _ else _] => destruct c
         end; cbn [alienHP]; lia.
Qed.

(** X17.  The health tier of a level and wave carries the hit points of the
    wave configuration, between 1 and 4, and an armour level one below
    them. *)
Theorem getAlienHP_matches_wave (level wave : Z) :
  ht_hp (getAlienHP level wave) = alienHP (getWaveConfig level wave)
  /\ 1 <= ht_hp (getAlienHP level wave) <= 4
  /\ armorLevel (getAlienHP level wave) = ht_hp (getAlienHP level wave) - 1.
Proof.
  pose proof (getWaveConfig_alienHP level wave) as R.
  unfold getAlienHP. cbv zeta.
  destruct (Z.leb_spec (alienHP (getWaveConfig level wave)) 1);
    [cbn [ht_hp armorLevel]; lia|].
  destruct (Z.eqb_spec (alienHP (getWaveConfig level wave)) 2);
    [cbn [ht_hp armorLevel]; lia|].
  destruct (Z.eqb_spec (alienHP (getWaveConfig level wave)) 3);
    cbn [ht_hp armorLevel]; lia.
Qed.

(** ** Power-up durations *)

(** X18.  The table of [getPowerUpScaling] and the duration the reducer
    uses, [getPowerUpDuration], agree on every power-up but two: at every
    level the table gives the score multiplier a longer time and the shield a
    shorter one than the reducer's duration. *)
Theorem getPowerUpScaling_vs_duration (powerUp : PowerUp) (level : Z) :
  (ps_duration (getPowerUpScaling powerUp level) ?= getPowerUpDuration level)
  = match powerUp with
    | ScoreMultiplier => Gt
    | Shield => Lt
    | _ => Eq
    end.
Proof.
  unfold getPowerUpScaling, getPowerUpDuration.
  destruct powerUp; cbn [PowerUp_eqb]; cbv zeta;
    destruct (level <=? 25); cbn [ps_duration]; try reflexivity;
    destruct (level <=? 50); cbn [ps_duration]; try reflexivity;
    destruct (level <=? 75); cbn [ps_duration]; reflexivity.
Qed.

Lemma refreshPowerUp_entries (t : PowerUp) (x : Z) (l : list ActivePowerUp)
      (p : ActivePowerUp) :
  NoDup (map p_type l) ->
  In p (refreshPowerUp t x l) ->
  (p_type p = t /\ expiresAt p = x) \/ (p_type p <> t /\ In p l).
Proof.
  induction l as [|q l IH]; cbn [refreshPowerUp map]; intros N H.
  - destruct H as [<-|[]]. left. split; reflexivity.
  - inversion N as [|? ? Nq Nl]; subst.
    destruct (PowerUp_eqb (p_type q) t) eqn:E.
    + apply PowerUp_eqb_eq in E.
      destruct H as [<-|H]; [left; split; [exact E | reflexivity]|].
      right. split; [|now right].
      intros Hp. apply Nq. rewrite E, <- Hp. now apply in_map.
    + assert (p_type q <> t) as Hq.
      { intros Hq. apply PowerUp_eqb_eq in Hq. congruence. }
      destruct H as [<-|H]; [right; split; [exact Hq | now left]|].
      destruct (IH Nl H) as [L|[R1 R2]]; [now left | right; split; auto].
      now right.
Qed.

(** X19.  Picking up a power-up that is already in effect restarts its
    timer, it does not add to it: after a drop the power-up of the alien's
    colour is in effect until the drop's time plus the duration of the level,
    and the other power-ups in effect are untouched. *)
Theorem dropPowerUp_restarts_timer (t : Z) (alien : Alien) (s : GameState) :
  NoDup (map p_type (activePowerUps s)) ->
  rewardPowerUp (a_type alien) <> Shield ->
  hasPowerUp (rewardPowerUp (a_type alien))
    (activePowerUps (dropPowerUp t alien s)) = true
  /\ Forall (fun p =>
               (p_type p = rewardPowerUp (a_type alien)
                /\ expiresAt p = t + getPowerUpDuration (level s))
               \/ (p_type p <> rewardPowerUp (a_type alien)
                   /\ In p (activePowerUps s)))
       (activePowerUps (dropPowerUp t alien s)).
Proof.
  intros N S.
  assert (E : activePowerUps (dropPowerUp t alien s)
              = refreshPowerUp (rewardPowerUp (a_type alien))
                  (t + getPowerUpDuration (level s)) (activePowerUps s)).
  { unfold dropPowerUp.
    destruct (rewardPowerUp (a_type alien)); gs; try reflexivity.
    now contradiction S. }
  rewrite E. split.
  - apply hasPowerUp_In. rewrite refreshPowerUp_types.
    destruct (hasPowerUp _ (activePowerUps s)) eqn:H.
    + now apply hasPowerUp_In.
    + apply in_app_iff. right. now left.
  - apply Forall_forall. intros p Hp.
    exact (refreshPowerUp_entries _ _ _ p N Hp).
Qed.

Lemma dropPowerUp_restarts_timer_witness :
  let s := set_activePowerUps [ {| p_type := FireRate; expiresAt := 5000 |} ]
             (initialState load0) in
  let alien := {| a_id := "e1"; a_x := 0; a_y := 0; a_type := Red; a_hp := 0;
                  a_maxHp := 1; a_isBoss := false; a_vx := 0 |} in
  activePowerUps (dropPowerUp 1000 alien s)
  = [ {| p_type := FireRate; expiresAt := 9000 |} ]
  /\ hasPowerUp (rewardPowerUp (a_type alien))
       (activePowerUps (dropPowerUp 1000 alien s)) = true
  /\ Forall (fun p =>
               (p_type p = rewardPowerUp (a_type alien)
                /\ expiresAt p = 1000 + getPowerUpDuration (level s))
               \/ (p_type p <> rewardPowerUp (a_type alien)
                   /\ In p (activePowerUps s)))
       (activePowerUps (dropPowerUp 1000 alien s)).
Proof.
  cbv zeta. split; [reflexivity|].
  apply (dropPowerUp_restarts_timer 1000
           {| a_id := "e1"; a_x := 0; a_y := 0; a_type := Red; a_hp := 0;
              a_maxHp := 1; a_isBoss := false; a_vx := 0 |}
           (set_activePowerUps [ {| p_type := FireRate; expiresAt := 5000 |} ]
              (initialState load0))).
  - cbn. repeat constructor. intros [].
  - cbn. discriminate.
Defined.

(** ** Milestones *)

Lemma last_cons_default {A} (x d : A) (l : list A) :
  last (x :: l) d = last l x.
Proof.
  revert x d. induction l as [|y l IH]; intros x d; [reflexivity|].
  change (last (x :: y :: l) d) with (last (y :: l) d).
  now rewrite (IH y d), (IH y x).
Qed.

Lemma latest_of_sorted (level : Z) (l : list Milestone) :
  ascending l ->
  forall d,
    let r := last (filter (fun m => m_level m <=? level) l) d in
    Forall (fun m => m_level m <= level -> m_level m <= m_level r) l
    /\ ((filter (fun m => m_level m <=? level) l = [] /\ r = d)
        \/ (In r l /\ m_level r <= level)).
Proof.
  induction l as [|x l IH]; intros S d; cbv zeta.
  - cbn [filter last]. split; [constructor | left; split; reflexivity].
  - destruct S as [Fx Sl]. cbn [filter].
    destruct (Z.leb_spec (m_level x) level) as [Hx|Hx].
    + rewrite last_cons_default.
      destruct (IH Sl x) as [F [[E R]|[I R]]]; cbv zeta in *.
      * split; [|right; split; [left; now rewrite R | now rewrite R]].
        constructor; [rewrite R; lia | exact F].
      * split; [|right; split; [now right | exact R]].
        constructor; [|exact F]. intros _.
        rewrite Forall_forall in Fx. now apply Fx.
    + destruct (IH Sl d) as [F [[E R]|[I R]]]; cbv zeta in *.
      * split; [|left; split; assumption].
        constructor; [lia | exact F].
      * split; [|right; split; [now right | exact R]].
        constructor; [lia | exact F].
Qed.

Lemma levelMilestones_sorted :
  ascending levelMilestones.
Proof.
  unfold levelMilestones, firstMilestone. cbn [ascending].
  repeat (split; [repeat (constructor; [cbn [m_level]; lia|]); constructor|]).
  exact I.
Qed.

(** X20.  The milestone shown for a level is the latest one reached: it is
    an entry of the table, no entry reached by the level lies above it, and
    from level 1 on it is itself reached. *)
Theorem getCurrentMilestone_latest (level : Z) :
  In (getCurrentMilestone level) levelMilestones
  /\ Forall (fun m => m_level m <= level ->
                      m_level m <= m_level (getCurrentMilestone level))
       levelMilestones
  /\ (m_level (getCurrentMilestone level) <= level \/ level < 1).
Proof.
  unfold getCurrentMilestone.
  destruct (latest_of_sorted level levelMilestones levelMilestones_sorted
              firstMilestone) as [F D].
  cbv zeta in F, D. split; [|split; [exact F|]].
  - destruct D as [[_ ->]|[I _]]; [now left | exact I].
  - destruct D as [[E _]|[_ R]]; [right | left; exact R].
    destruct (Z.ltb_spec level 1) as [L|L]; [exact L|].
    assert (I : In firstMilestone
                  (filter (fun m => m_level m <=? level) levelMilestones)).
    { apply filter_In. split; [now left|]. apply Z.leb_le. exact L. }
    rewrite E in I. destruct I.
Qed.

(** ** Spawn interval *)

Lemma waveNumbers_In (wave : Z) : 1 <= wave <= 5 -> In wave waveNumbers.
Proof. unfold waveNumbers. cbn [In]. lia. Qed.

Lemma spawnInterval_table :
  forallb (fun level =>
             forallb (fun wave =>
                        spawnIntervalOk level wave && spawnIntervalFalls level wave)
               waveNumbers)
    levelsUpTo100 = true.
Proof. vm_compute. reflexivity. Qed.

Lemma spawnInterval_checked (level wave : Z) :
  1 <= level <= 100 -> 1 <= wave <= 5 ->
  spawnIntervalOk level wave = true /\ spawnIntervalFalls level wave = true.
Proof.
  intros Hl Hw.
  pose proof spawnInterval_table as T.
  rewrite forallb_forall in T.
  specialize (T level (levelsUpTo100_In level Hl)).
  rewrite forallb_forall in T.
  specialize (T wave (waveNumbers_In wave Hw)).
  now apply andb_true_iff in T.
Qed.

(** X21.  For the levels and waves of the game the spawn interval is a
    whole number of milliseconds between 350 and 2000, never longer in the
    next wave or at the next level, and from level 41 on it is 350 whatever
    the wave: the spawn rate stops growing there. *)
Theorem getSpawnInterval_bounds (level wave : Z) :
  1 <= level <= 100 -> 1 <= wave <= 5 ->
  let v := getSpawnInterval level wave in
  (350 <=? v)%float = true /\ (v <=? 2000)%float = true
  /\ (Math_floor v =? v)%float = true
  /\ (41 <= level -> (v =? 350)%float = true)
  /\ (wave < 5 -> (getSpawnInterval level (wave + 1) <=? v)%float = true)
  /\ (level < 100 -> (getSpawnInterval (level + 1) wave <=? v)%float = true).
Proof.
  intros Hl Hw. cbv zeta.
  destruct (spawnInterval_checked level wave Hl Hw) as [O F].
  unfold spawnIntervalOk in O. unfold spawnIntervalFalls in F. cbv zeta in O.
  apply andb_true_iff in O. destruct O as [O O4].
  apply andb_true_iff in O. destruct O as [O O3].
  apply andb_true_iff in O. destruct O as [O1 O2].
  apply andb_true_iff in F. destruct F as [F1 F2].
  repeat split; try assumption.
  - intros H. apply orb_true_iff in O4. destruct O4 as [O4|O4]; [|exact O4].
    apply Z.ltb_lt in O4. lia.
  - intros H. apply orb_true_iff in F1. destruct F1 as [F1|F1]; [|exact F1].
    apply Z.leb_le in F1. lia.
  - intros H. apply orb_true_iff in F2. destruct F2 as [F2|F2]; [|exact F2].
    apply Z.leb_le in F2. lia.
Qed.

Lemma getSpawnInterval_bounds_witness :
  let v := getSpawnInterval 1 1 in
  v = 2000%float
  /\ (350 <=? v)%float = true /\ (v <=? 2000)%float = true
  /\ (Math_floor v =? v)%float = true
  /\ (41 <= 1 -> (v =? 350)%float = true)
  /\ (1 < 5 -> (getSpawnInterval 1 (1 + 1) <=? v)%float = true)
  /\ (1 < 100 -> (getSpawnInterval (1 + 1) 1 <=? v)%float = true).
Proof.
  cbv zeta. split; [vm_compute; reflexivity|].
  apply (getSpawnInterval_bounds 1 1); lia.
Defined.

(** X22.  In every state reached from the initial one, the spawn interval
    of the state's level and wave is between 350 and 2000 ms. *)
Theorem spawn_interval_in_play (load : nat -> Z) (trace : list (Env * Action)) :
  let s := stateAfter load trace in
  (350 <=? getSpawnInterval (level s) (wave s))%float = true
  /\ (getSpawnInterval (level s) (wave s) <=? 2000)%float = true.
Proof.
  cbv zeta.
  assert (I : waveInRange (stateAfter load trace)
              /\ levelConsistent (stateAfter load trace)).
  { apply (run_invariant load (fun s => waveInRange s /\ levelConsistent s)).
    - unfold waveInRange, levelConsistent. cbn. repeat split; lia.
    - intros e a w [H1 H2]. split; [now apply reducer_wave | now apply reducer_level]. }
  destruct I as [W [L _]]. unfold waveInRange in W.
  destruct (spawnInterval_checked _ _ L W) as [O _].
  unfold spawnIntervalOk in O. cbv zeta in O.
  apply andb_true_iff in O. destruct O as [O _].
  apply andb_true_iff in O. destruct O as [O _].
  apply andb_true_iff in O. exact O.
Qed.

(** ** Boss phases *)

Lemma hitPointsUpTo_In (n hp : Z) : 0 <= hp <= n -> In hp (hitPointsUpTo n).
Proof.
  intros H. unfold hitPointsUpTo.
  replace hp with (Z.of_nat (Z.to_nat hp)) by lia.
  apply in_map, in_seq. lia.
Qed.

Lemma bossPhases_table : forallb bossPhasesOk bossLevels = true.
Proof. vm_compute. reflexivity. Qed.

Lemma getBossConfig_hp (level : Z) (c : BossConfig) :
  getBossConfig level = Some c ->
  In level bossLevels /\ bc_hp c = floatOfZ (15 + 25 * (level / 10)).
Proof.
  unfold getBossConfig.
  destruct (isBossLevel level) eqn:B; cbn [negb]; [|discriminate].
  apply isBossLevel_cases in B. fold bossLevels in B. intros H.
  split; [exact B|]. unfold bossLevels in B. cbn [In] in B.
  repeat (destruct B as [<-|B];
          [vm_compute in H; injection H as <-; vm_compute; reflexivity|]).
  destruct B.
Qed.

(** X23.  For every boss and every whole number of hit points from none to
    its full hit points, the phase is a whole number between 1 and the
    boss's number of phases; it is the last phase at full hit points, the
    first at none, and never lower with one more hit point. *)
Theorem getBossPhase_range (level : Z) (c : BossConfig) (hp : Z) :
  getBossConfig level = Some c ->
  0 <= hp <= 15 + 25 * (level / 10) ->
  let phase h := getBossPhase (floatOfZ h) (bc_hp c) (floatOfZ (bc_phases c)) in
  (1 <=? phase hp)%float = true
  /\ (phase hp <=? floatOfZ (bc_phases c))%float = true
  /\ (Math_floor (phase hp) =? phase hp)%float = true
  /\ (hp = 15 + 25 * (level / 10) ->
      (phase hp =? floatOfZ (bc_phases c))%float = true)
  /\ (hp = 0 -> (phase hp =? 1)%float = true)
  /\ (hp < 15 + 25 * (level / 10) ->
      (phase hp <=? phase (hp + 1)%Z)%float = true).
Proof.
  intros C H. cbv zeta.
  destruct (getBossConfig_hp level c C) as [B ->].
  pose proof bossPhases_table as T. rewrite forallb_forall in T.
  specialize (T level B). unfold bossPhasesOk in T. rewrite C in T.
  cbv zeta in T. rewrite forallb_forall in T.
  specialize (T hp (hitPointsUpTo_In _ hp H)).
  unfold bossPhaseOk, phaseOf in T. cbv zeta in T.
  apply andb_true_iff in T. destruct T as [T T6].
  apply andb_true_iff in T. destruct T as [T T5].
  apply andb_true_iff in T. destruct T as [T T4].
  apply andb_true_iff in T. destruct T as [T T3].
  apply andb_true_iff in T. destruct T as [T1 T2].
  repeat split; try assumption.
  - intros E. apply orb_true_iff in T4. destruct T4 as [T4|T4]; [|exact T4].
    apply Z.ltb_lt in T4. lia.
  - intros E. apply orb_true_iff in T5. destruct T5 as [T5|T5]; [|exact T5].
    apply Z.ltb_lt in T5. lia.
  - intros E. apply orb_true_iff in T6. destruct T6 as [T6|T6]; [|exact T6].
    apply Z.leb_le in T6. lia.
Qed.

Lemma getBossPhase_range_witness :
  let c := {| bc_level := 10; bc_name := "SCOUT COMMANDER"; bc_hp := 40;
              bc_pattern := bp_circle; bc_power := pw_spawn_scouts;
              bc_powerCooldown := 5500; bc_speed := 0.015; bc_phases := 2;
              bc_guaranteedDrop := Shield; bc_scoreBonus := 50000 |} in
  getBossConfig 10 = Some c
  /\ 0 <= 20 <= 15 + 25 * (10 / 10)
  /\ getBossPhase (floatOfZ 20) (bc_hp c) (floatOfZ (bc_phases c)) = 1%float
  /\ (1 <=? getBossPhase (floatOfZ 20) (bc_hp c) (floatOfZ (bc_phases c)))%float
     = true.
Proof.
  cbv zeta. split; [vm_compute; reflexivity|].
  split; [vm_compute; split; discriminate|].
  split; [vm_compute; reflexivity|].
  refine (proj1 (getBossPhase_range 10
           {| bc_level := 10; bc_name := "SCOUT COMMANDER"; bc_hp := 40;
              bc_pattern := bp_circle; bc_power := pw_spawn_scouts;
              bc_powerCooldown := 5500; bc_speed := 0.015; bc_phases := 2;
              bc_guaranteedDrop := Shield; bc_scoreBonus := 50000 |} 20 _ _)).
  - vm_compute. reflexivity.
  - vm_compute. split; discriminate.
Defined.

(** ** Formations *)

Lemma arrayAtFrom_In {A} (arr : list A) (k : float) (x : A) :
  forall i, arrayAtFrom i arr k = Some x -> In x arr.
Proof.
  induction arr as [|y arr IH]; intros i; cbn [arrayAtFrom]; [discriminate|].
  destruct (floatOfZ i =? k)%float.
  - intros H. injection H as <-. now left.
  - intros H. right. exact (IH _ H).
Qed.

(** X24.  Whatever [Math.random] returns, a formation is only used from
    the level that unlocks it (V-shape 30, horizontal 40, staggered 50,
    swarm 70) and never below level 30; a random spawn is one alien, a
    swarm eight, the other formations five, and every alien of a spawn
    starts at height 4 or above. *)
Theorem getFormation_unlocked (e : Env) (level wave : Z) :
  let f := getFormation e level wave in
  match fs_type f with
  | ft_random => List.length (positions f) = 1%nat
  | ft_v_shape => 30 <= level /\ List.length (positions f) = 5%nat
  | ft_horizontal => 40 <= level /\ List.length (positions f) = 5%nat
  | ft_staggered => 50 <= level /\ List.length (positions f) = 5%nat
  | ft_swarm => 70 <= level /\ List.length (positions f) = 8%nat
  | ft_diagonal | ft_pincer => False
  end
  /\ Forall (fun p => (4 <=? fp_y p)%float = true) (positions f).
Proof.
  cbv zeta. unfold getFormation.
  assert (R : forall r,
             List.length (positions (randomSpawn r)) = 1%nat
             /\ Forall (fun p => (4 <=? fp_y p)%float = true)
                  (positions (randomSpawn r))).
  { intros r. cbn. split; [reflexivity|]. repeat constructor. }
  destruct (Z.ltb_spec level 30) as [L|L]; [apply R|].
  cbv zeta.
  destruct (_ <? random e 0%nat)%float; [apply R|].
  destruct (arrayAt _ _) as [ft|] eqn:A; [|apply R].
  apply arrayAtFrom_In in A.
  assert (U : match ft with
              | ft_v_shape => 30 <= level
              | ft_horizontal => 40 <= level
              | ft_staggered => 50 <= level
              | ft_swarm => 70 <= level
              | _ => False
              end).
  { cbn [app In] in A. destruct A as [<-|A]; [exact L|].
    apply in_app_iff in A. destruct A as [A|A].
    { destruct (Z.leb_spec 40 level); [|destruct A].
      destruct A as [<-|[]]. assumption. }
    apply in_app_iff in A. destruct A as [A|A].
    { destruct (Z.leb_spec 50 level); [|destruct A].
      destruct A as [<-|[]]. assumption. }
    destruct (Z.leb_spec 70 level); [|destruct A].
    destruct A as [<-|[]]. assumption. }
  destruct ft; try contradiction; cbn [fs_type positions List.length];
    (split; [split; [assumption | reflexivity]|]);
    repeat constructor.
Qed.

(** ** The cannon stays in its square *)

Lemma clamp_inSpan (v : float) : inSpan (clamp v (-3) 3).
Proof.
  unfold inSpan, clamp.
  destruct (v <? -3)%float eqn:L; [split; vm_compute; reflexivity|].
  destruct (3 <? v)%float eqn:U; [split; vm_compute; reflexivity|].
  split; assumption.
Qed.

Lemma reducer_cannonInBounds (load : nat -> Z) (e : Env) (a : Action) (w : World) :
  cannonInBounds (game w) -> cannonInBounds (game (reducer load e a w)).
Proof.
  intros H.
  destruct a; cbn [reducer onGame game];
    try (unfold cannonInBounds in *;
         match goal with
         | |- inSpan (playerX ?x) /\ _ =>
             replace (playerX x) with (playerX (game w)) by untouched_field;
             replace (playerY x) with (playerY (game w)) by untouched_field
         end; exact H).
  - unfold cannonInBounds, move. gs. split; apply clamp_inSpan.
  - pose proof (tick_session e (game w)) as T. unfold sessionFields in T.
    injection T as T1 T2. unfold cannonInBounds. now rewrite T1, T2.
  - unfold cannonInBounds, inSpan. cbn. repeat split; vm_compute; reflexivity.
Qed.

(** X25.  The cannon never leaves its square: in every state reached from
    the initial one neither of its coordinates is below -3 or above 3,
    whatever displacements and sensitivities the moves carried. *)
Theorem cannon_stays_in_bounds (load : nat -> Z) (trace : list (Env * Action)) :
  let s := stateAfter load trace in
  (playerX s <? -3)%float = false /\ (3 <? playerX s)%float = false
  /\ (playerY s <? -3)%float = false /\ (3 <? playerY s)%float = false.
Proof.
  cbv zeta.
  assert (H : cannonInBounds (stateAfter load trace)).
  { apply (run_invariant load cannonInBounds).
    - unfold cannonInBounds, inSpan. cbn. repeat split; vm_compute; reflexivity.
    - intros e a w. apply reducer_cannonInBounds. }
  destruct H as [[H1 H2] [H3 H4]]. auto.
Qed.

(** ** Identifiers are never reused *)

Lemma digits_string_of_uint (d : Decimal.uint) :
  digits (NilEmpty.string_of_uint d) = true.
Proof. induction d; cbn [NilEmpty.string_of_uint digits]; auto. Qed.

Lemma decimal_digits (n : nat) : digits (decimal n) = true.
Proof.
  unfold decimal, NilZero.string_of_uint.
  destruct (Nat.to_uint n) eqn:E; try (rewrite <- E; clear E);
    try apply digits_string_of_uint.
  reflexivity.
Qed.

Lemma to_uint_not_Nil (n : nat) : Nat.to_uint n <> Decimal.Nil.
Proof.
  intros H. pose proof (DecimalNat.Unsigned.of_to n) as E. rewrite H in E.
  cbn in E. subst n. discriminate H.
Qed.

Lemma decimal_inj (n m : nat) : decimal n = decimal m -> n = m.
Proof.
  unfold decimal. intros H.
  apply (f_equal NilZero.uint_of_string) in H.
  rewrite !NilZero.usu in H by apply to_uint_not_Nil.
  injection H as H. now apply DecimalNat.Unsigned.to_uint_inj.
Qed.

Lemma split_digits (d1 : string) :
  forall d2 s1 s2,
    digits d1 = true -> digits d2 = true ->
    pastDigits s1 = true -> pastDigits s2 = true ->
    (d1 ++ s1 = d2 ++ s2)%string -> d1 = d2 /\ s1 = s2.
Proof.
  induction d1 as [|c d1 IH]; intros d2 s1 s2 D1 D2 P1 P2 E.
  - destruct d2 as [|c2 d2]; [split; [reflexivity | exact E]|].
    cbn [String.append] in E. subst s1. cbn [pastDigits digits] in *.
    apply andb_true_iff in D2. destruct D2 as [D2 _]. rewrite D2 in P1.
    discriminate P1.
  - destruct d2 as [|c2 d2].
    + cbn [String.append] in E. subst s2. cbn [pastDigits digits] in *.
      apply andb_true_iff in D1. destruct D1 as [D1 _]. rewrite D1 in P2.
      discriminate P2.
    + cbn [String.append] in E. injection E as -> E.
      cbn [digits] in D1, D2.
      apply andb_true_iff in D1. apply andb_true_iff in D2.
      destruct (IH d2 s1 s2) as [-> ->]; try tauto; split; reflexivity.
Qed.

Lemma idOf_inj (b1 b2 : bool) (k1 k2 : nat) (s1 s2 : string) :
  pastDigits s1 = true -> pastDigits s2 = true ->
  idOf b1 k1 s1 = idOf b2 k2 s2 -> b1 = b2 /\ k1 = k2 /\ s1 = s2.
Proof.
  intros P1 P2 E. unfold idOf in E.
  destruct b1, b2; cbn [String.append] in E; try discriminate E;
    injection E as E;
    destruct (split_digits _ _ _ _ (decimal_digits k1) (decimal_digits k2) P1 P2 E)
      as [D ->];
    apply decimal_inj in D; auto.
Qed.

Lemma stampedBelow_mono (n m : nat) (id : string) :
  (n <= m)%nat -> stampedBelow n id -> stampedBelow m id.
Proof.
  intros L (b & k & s & E & P & K). exists b, k, s. repeat split; auto. lia.
Qed.

Lemma stamped_fresh (n : nat) (ids : list string) (b : bool) (s : string) :
  Forall (stampedBelow n) ids -> pastDigits s = true ->
  ~ In (idOf b (S n) s) ids.
Proof.
  intros F P I. rewrite Forall_forall in F.
  destruct (F _ I) as (b' & k & s' & E & P' & K).
  apply idOf_inj in E; auto. lia.
Qed.

(** Fresh ids added to a list of older ones. *)
Lemma add_fresh (n : nat) (ids : list string) (b : bool) (sufs : list string) :
  NoDup ids -> Forall (stampedBelow n) ids ->
  NoDup sufs -> Forall (fun s => pastDigits s = true) sufs ->
  NoDup (ids ++ map (idOf b (S n)) sufs)
  /\ Forall (stampedBelow (S n)) (ids ++ map (idOf b (S n)) sufs).
Proof.
  intros N F Ns Fs. split.
  - apply NoDup_app; [exact N| |].
    + clear N F. induction sufs as [|s sufs IH]; cbn [map]; [constructor|].
      inversion Ns as [|? ? Hn Hs]; subst. inversion Fs as [|? ? Hp Hf]; subst.
      constructor; [|now apply IH].
      intros I. apply in_map_iff in I. destruct I as (s' & E & I).
      assert (P' : pastDigits s' = true).
      { rewrite Forall_forall in Hf. now apply Hf. }
      apply idOf_inj in E; auto. destruct E as (_ & _ & ->). contradiction.
    + intros id I1 I2. apply in_map_iff in I2. destruct I2 as (s & <- & I2).
      rewrite Forall_forall in Fs.
      exact (stamped_fresh n ids b s F (Fs _ I2) I1).
  - apply Forall_app. split.
    + eapply Forall_impl; [|exact F]. intros id. apply stampedBelow_mono. lia.
    + apply Forall_forall. intros id I. apply in_map_iff in I.
      destruct I as (s & <- & I). rewrite Forall_forall in Fs.
      exists b, (S n), s. repeat split; auto.
Qed.

Lemma thinned_refl {A} (f : A -> string) (l : list A) : thinned f l l.
Proof. split; [auto | apply incl_refl]. Qed.

Lemma thinned_trans {A} (f : A -> string) (l1 l2 l3 : list A) :
  thinned f l1 l2 -> thinned f l2 l3 -> thinned f l1 l3.
Proof.
  intros [N1 I1] [N2 I2]. split; [auto|].
  eapply incl_tran; eassumption.
Qed.

Lemma thinned_filter {A} (f : A -> string) (p : A -> bool) (l : list A) :
  thinned f l (filter p l).
Proof.
  split.
  - induction l as [|x l IH]; cbn [filter map]; [auto|].
    intros N. inversion N as [|? ? Nx Nl]; subst.
    destruct (p x); cbn [map]; [|auto].
    constructor; [|auto].
    intros I. apply Nx. apply in_map_iff in I. destruct I as (y & E & I).
    apply filter_In in I. rewrite <- E. apply in_map. tauto.
  - intros y I. apply in_map_iff in I. destruct I as (x & <- & I).
    apply filter_In in I. apply in_map. tauto.
Qed.

Lemma thinned_same_keys {A} (f : A -> string) (l l' : list A) :
  map f l' = map f l -> thinned f l l'.
Proof. intros E. unfold thinned. rewrite E. split; [auto | apply incl_refl]. Qed.

Lemma thinned_skipn {A} (f : A -> string) (k : nat) (l : list A) :
  thinned f l (skipn k l).
Proof.
  revert k. induction l as [|x l IH]; intros [|k]; cbn [skipn];
    try apply thinned_refl.
  destruct (IH k) as [N I]. split.
  - cbn [map]. intros Nx. inversion Nx; subst. auto.
  - cbn [map]. intros y Hy. right. now apply I.
Qed.

Lemma damageAlien_ids (id : string) (l : list Alien) :
  map a_id (fst (damageAlien id l)) = map a_id l.
Proof.
  induction l as [|a l IH]; cbn [damageAlien]; [reflexivity|].
  destruct (a_id a =? id)%string; [reflexivity|].
  destruct (damageAlien id l) as [rest d]. cbn [fst map] in *. now rewrite IH.
Qed.

Lemma collide_ids (bs : list Bullet) (als : list Alien) (h : Z) :
  map a_id (c_aliens (collide bs als h)) = map a_id als.
Proof.
  unfold collide.
  apply (fold_left_invariant (fun c => map a_id (c_aliens c) = map a_id als));
    [|reflexivity].
  intros c b H. unfold collideBullet.
  destruct (idIn (b_id b) (bulletsToRemove c)); [exact H|].
  destruct ((b_y b <? -4)%float || (5 <? b_y b)%float); [exact H|].
  destruct (find (bulletHits b) (c_aliens c)) as [a|]; [|exact H].
  pose proof (damageAlien_ids (a_id a) (c_aliens c)) as D.
  destruct (damageAlien (a_id a) (c_aliens c)) as [als' hit].
  cbn [fst] in D. cbn [c_aliens]. now rewrite D.
Qed.

Lemma moveAlien_id (v : float) (a : Alien) : a_id (moveAlien v a) = a_id a.
Proof.
  unfold moveAlien.
  destruct (truthy (a_vx a)); cbn [set_a_x set_a_y set_a_vx a_id a_x a_vx];
    [|reflexivity].
  destruct (3.5 <? _)%float; reflexivity.
Qed.

Lemma advancePhase_entities (b : bool) (t : Z) (s : GameState) :
  exists v,
    aliens (advancePhase b t s) = map (moveAlien v) (aliens s)
    /\ bullets (advancePhase b t s) = updateBullets (bullets s).
Proof.
  unfold advancePhase, levelPhase, idlePhase, missWindowPhase, decayPhase,
    powerUpPhase, movePhase.
  gs. split_ifs; eexists; split; reflexivity.
Qed.

Lemma combatPhase_entities (e : Env) (t : Z) (s : GameState) :
  aliens (combatPhase e t s)
  = filter (fun a => 0 <? a_hp a) (c_aliens (collisionsOf s))
  /\ bullets (combatPhase e t s)
     = filter (fun b => negb (idIn (b_id b) (bulletsToRemove (collisionsOf s))))
         (bullets s).
Proof.
  unfold combatPhase, processKills. gs.
  match goal with
  | |- context [fold_left (processKill e t) ?l (?s0, ?k)] =>
      assert (E : (aliens (fst (fold_left (processKill e t) l (s0, k))),
                   bullets (fst (fold_left (processKill e t) l (s0, k))))
                  = (aliens s0, bullets s0))
  end.
  { apply (processKills_invariant (fun r => (aliens r, bullets r) = _));
      [|reflexivity].
    intros r k a <-. kill_split a; reflexivity. }
  injection E as E1 E2. rewrite E1, E2. gs. split; reflexivity.
Qed.

Lemma cannonPhase_entities (s : GameState) :
  (exists p, aliens (cannonPhase s) = filter p (aliens s))
  /\ bullets (cannonPhase s) = bullets s.
Proof.
  unfold cannonPhase.
  destruct (find (cannonHits s) (aliens s)) as [a|]; gs.
  - split_ifs; (split; [|reflexivity]); eexists; unfold removeById; reflexivity.
  - split; [|reflexivity]. exists (fun _ => true).
    induction (aliens s) as [|x l IH]; cbn [filter]; [reflexivity|].
    now rewrite <- IH.
Qed.

Lemma afterCombat_thinned (e : Env) (s : GameState) :
  thinned a_id (aliens s) (aliens (afterCombat e s)).
Proof.
  unfold afterCombat, afterAdvance.
  set (t := clock e 0%nat).
  set (s1 := advancePhase true t s).
  destruct (advancePhase_entities true t s) as (v & A1 & _). fold s1 in A1.
  destruct (combatPhase_entities e t s1) as [A2 _].
  pose proof (collide_ids (bullets s1) (aliens s1) (shotsHit s1)) as C.
  fold (collisionsOf s1) in C.
  set (c := collisionsOf s1) in *.
  clearbody c s1 t.
  rewrite A2.
  eapply thinned_trans; [|apply thinned_filter].
  apply thinned_same_keys. rewrite C, A1, map_map.
  apply map_ext. intros a. apply moveAlien_id.
Qed.

Lemma tick_thinned (e : Env) (s : GameState) :
  thinned a_id (aliens s) (aliens (tick e s))
  /\ thinned b_id (bullets s) (bullets (tick e s)).
Proof.
  rewrite tick_phases. unfold afterCannon, afterCombat, afterAdvance.
  set (t := clock e 0%nat).
  set (s1 := advancePhase true t s).
  set (s2 := combatPhase e t s1).
  set (s3 := cannonPhase s2).
  set (p := getScorePressure (level s1)).
  destruct (advancePhase_entities true t s) as (v & A1 & B1).
  fold s1 in A1, B1.
  destruct (combatPhase_entities e t s1) as [A2 B2]. fold s2 in A2, B2.
  destruct (cannonPhase_entities s2) as [[q A3] B3]. fold s3 in A3, B3.
  pose proof (escapePhase_aliens true t p s3) as A4.
  pose proof (escapePhase_bullets true t p s3) as B4.
  pose proof (collide_ids (bullets s1) (aliens s1) (shotsHit s1)) as C.
  fold (collisionsOf s1) in C.
  set (c := collisionsOf s1) in *.
  clearbody c p s3 s2 s1 t.
  split.
  - rewrite A4, A3, A2.
    eapply thinned_trans; [|apply thinned_filter].
    eapply thinned_trans; [|apply thinned_filter].
    eapply thinned_trans; [|apply thinned_filter].
    apply thinned_same_keys. rewrite C, A1, map_map.
    apply map_ext. intros a. apply moveAlien_id.
  - rewrite B4, B3, B2, B1. unfold updateBullets.
    eapply thinned_trans; [|apply thinned_filter].
    eapply thinned_trans; [|apply thinned_filter].
    apply thinned_same_keys. rewrite map_map. apply map_ext. intros b. reflexivity.
Qed.

Lemma idsFresh_thinned (n : nat) (s s' : GameState) :
  thinned a_id (aliens s) (aliens s') ->
  thinned b_id (bullets s) (bullets s') ->
  idsFresh {| idCounter := n; game := s |} ->
  idsFresh {| idCounter := n; game := s' |}.
Proof.
  unfold idsFresh. cbn [game idCounter].
  intros [Na Ia] [Nb Ib] (H1 & H2 & H3 & H4).
  rewrite Forall_forall in H3, H4.
  repeat split; auto; apply Forall_forall; intros id I; auto.
Qed.

Lemma append_empty (s : string) : (s ++ "")%string = s.
Proof. induction s as [|c s IH]; cbn [String.append]; [reflexivity|]. now rewrite IH. Qed.

Lemma fire_idsFresh (e : Env) (w : World) : idsFresh w -> idsFresh (fire e w).
Proof.
  intros (H1 & H2 & H3 & H4).
  assert (K : forall old,
             thinned b_id (bullets (game w)) old ->
             forall sufs,
               NoDup sufs -> Forall (fun s => pastDigits s = true) sufs ->
               NoDup (map b_id old ++ map (idOf false (S (idCounter w))) sufs)
               /\ Forall (stampedBelow (S (idCounter w)))
                    (map b_id old ++ map (idOf false (S (idCounter w))) sufs)).
  { intros old [N I] sufs Ns Fs. apply add_fresh; auto.
    rewrite Forall_forall in H4. apply Forall_forall. intros id Hid. auto. }
  assert (A : Forall (stampedBelow (S (idCounter w)))
                (map a_id (aliens (game w)))).
  { eapply Forall_impl; [|exact H3]. intros id. apply stampedBelow_mono. lia. }
  assert (T : thinned b_id (bullets (game w))
                (sliceLast (BULLET_LIMIT - 3) (bullets (game w)))).
  { unfold sliceLast. apply thinned_skipn. }
  pose proof (thinned_refl b_id (bullets (game w))) as T0.
  assert (S3 : NoDup ["-left"; "-center"; "-right"]
               /\ Forall (fun s => pastDigits s = true)
                    ["-left"; "-center"; "-right"]).
  { split; [|repeat constructor].
    repeat constructor; cbn [In]; intros F;
      repeat (destruct F as [F|F]; try discriminate F); exact F. }
  assert (S2 : NoDup ["-left"; "-right"]
               /\ Forall (fun s => pastDigits s = true) ["-left"; "-right"]).
  { split; [|repeat constructor].
    repeat constructor; cbn [In]; intros F;
      repeat (destruct F as [F|F]; try discriminate F); exact F. }
  assert (S1 : NoDup [""] /\ Forall (fun s => pastDigits s = true) [""]).
  { split; repeat constructor. intros []. }
  unfold idsFresh, fire, generateId. fold (decimal (S (idCounter w))). gs.
  split_ifs; cbn [game idCounter]; gs;
    rewrite map_app; cbn [map b_id mkBullet];
    (split; [exact H1|]);
    match goal with
    | |- NoDup (map b_id ?old ++ [_; _; _]) /\ _ =>
        destruct (K old ltac:(assumption) _ (proj1 S3) (proj2 S3)) as [K1 K2]
    | |- NoDup (map b_id ?old ++ [_; _]) /\ _ =>
        destruct (K old ltac:(assumption) _ (proj1 S2) (proj2 S2)) as [K1 K2]
    | |- NoDup (map b_id ?old ++ [_]) /\ _ =>
        destruct (K old ltac:(assumption) _ (proj1 S1) (proj2 S1)) as [K1 K2]
    end;
    cbn [map] in K1, K2; unfold idOf in K1, K2;
    cbn [String.append] in K1, K2 |- *;
    rewrite ?append_empty in K1, K2;
    (split; [exact K1 | split; [exact A | exact K2]]).
Qed.

Lemma spawn_idsFresh (n : nat) (s s' : GameState) (boss : bool) :
  (exists a,
      a_id a = ((if boss then "boss-" else "") ++ "e" ++ decimal (S n))%string
      /\ aliens s' = (aliens s ++ [a])%list) ->
  bullets s' = bullets s ->
  idsFresh {| idCounter := n; game := s |} ->
  idsFresh {| idCounter := S n; game := s' |}.
Proof.
  unfold idsFresh. cbn [game idCounter].
  intros (a & Ea & ->) -> (H1 & H2 & H3 & H4).
  destruct (add_fresh n (map a_id (aliens s)) boss [""] H1 H3) as [K1 K2];
    [repeat constructor; intros [] | repeat constructor|].
  cbn [map] in K1, K2. unfold idOf in K1, K2. rewrite append_empty in K1, K2.
  rewrite map_app. cbn [map]. rewrite Ea.
  repeat split; auto.
  eapply Forall_impl; [|exact H4]. intros id. apply stampedBelow_mono. lia.
Qed.

Lemma reducer_idsFresh (load : nat -> Z) (e : Env) (a : Action) (w : World) :
  idsFresh w -> idsFresh (reducer load e a w).
Proof.
  intros H. destruct w as [n s].
  destruct a; cbn [reducer onGame game idCounter];
    try (apply (idsFresh_thinned n s); [| |exact H];
         match goal with
         | |- thinned _ ?l ?l' =>
             replace l' with l by untouched_field; apply thinned_refl
         end).
  - now apply fire_idsFresh.
  - unfold spawnAlien. cbn [game idCounter].
    destruct (_ && _); [exact H|]. unfold generateId.
    fold (decimal (S n)).
    destruct (match sp_isBoss p with Some b => b | None => false end); gs;
      (apply (spawn_idsFresh n s _ false);
       [eexists; gs; split; [|reflexivity]; reflexivity | reflexivity | exact H]).
  - apply (idsFresh_thinned n s); [| |exact H]; apply tick_thinned.
  - unfold idsFresh, reset. cbn. repeat split; constructor.
  - apply (idsFresh_thinned n s); [| |exact H].
    + unfold startBoss. gs. split; [intros _; constructor | intros x []].
    + unfold startBoss. gs. apply thinned_refl.
  - unfold spawnBoss, generateId. fold (decimal (S n)). cbn [game idCounter].
    apply (spawn_idsFresh n s _ true);
      [eexists; gs; split; [|reflexivity]; reflexivity | reflexivity | exact H].
Qed.

Lemma run_idsFresh (load : nat -> Z) (trace : list (Env * Action)) :
  idsFresh (run load trace (initialWorld load)).
Proof.
  assert (G : forall w, idsFresh w -> idsFresh (run load trace w)).
  { induction trace as [|[e a] trace IH]; intros w H; cbn [run];
      [exact H | apply IH, reducer_idsFresh, H]. }
  apply G. unfold idsFresh. cbn. repeat split; constructor.
Qed.

(** X26.  Identifiers are never reused: in every state reached from the
    initial one the aliens on screen carry pairwise distinct ids, and so do
    the bullets in flight. *)
Theorem ids_pairwise_distinct (load : nat -> Z) (trace : list (Env * Action)) :
  NoDup (map a_id (aliens (stateAfter load trace)))
  /\ NoDup (map b_id (bullets (stateAfter load trace))).
Proof.
  destruct (run_idsFresh load trace) as (H1 & H2 & _).
  unfold stateAfter. split; assumption.
Qed.

(** X27.  A frame creates nothing: the ids of the aliens and bullets it
    leaves on screen are ids that were there when it started. *)
Theorem tick_creates_nothing (e : Env) (s : GameState) :
  incl (map a_id (aliens (tick e s))) (map a_id (aliens s))
  /\ incl (map b_id (bullets (tick e s))) (map b_id (bullets s)).
Proof.
  destruct (tick_thinned e s) as [[_ A] [_ B]]. split; assumption.
Qed.

Lemma removeById_absent (id : string) (l : list Alien) :
  ~ In id (map a_id l) -> removeById id l = l.
Proof.
  unfold removeById. induction l as [|x l IH]; cbn [filter map]; [reflexivity|].
  intros H. destruct (String.eqb_spec (a_id x) id) as [E|E]; cbn [negb].
  - exfalso. apply H. now left.
  - rewrite IH; [reflexivity|]. intros I. apply H. now right.
Qed.

Lemma removeById_one (l : list Alien) (a : Alien) :
  NoDup (map a_id l) -> In a l ->
  (List.length (removeById (a_id a) l) + 1 = List.length l)%nat
  /\ ~ In a (removeById (a_id a) l).
Proof.
  intros N I. split.
  - induction l as [|x l IH]; [destruct I|].
    cbn [map] in N. inversion N as [|? ? Nx Nl]; subst.
    unfold removeById. cbn [filter]. fold (removeById (a_id a) l).
    destruct (String.eqb_spec (a_id x) (a_id a)) as [E|E]; cbn [negb List.length].
    + rewrite removeById_absent; [lia|]. now rewrite <- E.
    + destruct I as [->|I]; [congruence|].
      specialize (IH Nl I). lia.
  - unfold removeById. intros H. apply filter_In in H. destruct H as [_ H].
    rewrite String.eqb_refl in H. discriminate H.
Qed.

Lemma cannonPhase_removes_one (s : GameState) (a : Alien) :
  NoDup (map a_id (aliens s)) -> 0 <= lives s ->
  find (cannonHits s) (aliens s) = Some a ->
  (List.length (aliens (cannonPhase s)) + 1 = List.length (aliens s))%nat
  /\ ~ In a (aliens (cannonPhase s))
  /\ lives (cannonPhase s) = Z.max 0 (lives s - 1)
  /\ combo (cannonPhase s) = 0.
Proof.
  intros N L F. unfold cannonPhase. rewrite F. gs.
  apply find_some in F. destruct F as [I _].
  destruct (removeById_one _ a N I) as [R1 R2].
  split_ifs; b2p; gs; repeat split; auto; lia.
Qed.

(** X28.  With the distinct ids the game's states have, a collision with
    the cannon removes the alien that touched it and no other: after the
    cannon phase of a frame there is one alien fewer, one life fewer and the
    combo is back to zero. *)
Theorem cannon_collision_removes_one (load : nat -> Z)
        (trace : list (Env * Action)) (e : Env) (a : Alien) :
  let s := afterCombat e (stateAfter load trace) in
  let s' := afterCannon e (stateAfter load trace) in
  find (cannonHits s) (aliens s) = Some a ->
  (List.length (aliens s') + 1 = List.length (aliens s))%nat
  /\ ~ In a (aliens s')
  /\ lives s' = Z.max 0 (lives s - 1)
  /\ combo s' = 0.
Proof.
  cbv zeta. unfold afterCannon. apply cannonPhase_removes_one.
  - apply (proj1 (afterCombat_thinned e (stateAfter load trace))).
    exact (proj1 (run_idsFresh load trace)).
  - assert (L : livesInRange (afterCombat e (stateAfter load trace)));
      [|exact (proj1 L)].
    unfold afterCombat, afterAdvance. apply combatPhase_lives.
    unfold livesInRange. rewrite advancePhase_lives.
    apply (run_invariant load livesInRange).
    + unfold livesInRange. cbn. lia.
    + intros e0 x w. apply reducer_lives.
Qed.

Lemma cannon_collision_removes_one_witness :
  let e := envAt 48 0 in
  let a := {| a_id := "e3"; a_x := 0; a_y := -2.5299999999999998;
              a_type := Red; a_hp := 1; a_maxHp := 1; a_isBoss := false;
              a_vx := 0 |} in
  let s := afterCombat e (stateAfter load0 collisionTrace) in
  let s' := afterCannon e (stateAfter load0 collisionTrace) in
  find (cannonHits s) (aliens s) = Some a
  /\ (List.length (aliens s') + 1 = List.length (aliens s))%nat
  /\ ~ In a (aliens s')
  /\ lives s' = Z.max 0 (lives s - 1)
  /\ combo s' = 0.
Proof.
  cbv zeta. split; [vm_compute; reflexivity|].
  apply (cannon_collision_removes_one load0 collisionTrace (envAt 48 0)).
  vm_compute. reflexivity.
Defined.

(** ** Counters never go negative *)

Lemma getComboMultiplier_range (c : Z) :
  1 <= multiplier (getComboMultiplier c) <= 5.
Proof. unfold getComboMultiplier. split_ifs; cbn [multiplier]; lia. Qed.

Lemma advancePhase_counters (b : bool) (t : Z) (s : GameState) :
  countersSound s -> countersSound (advancePhase b t s).
Proof.
  unfold countersSound. intros H.
  pose proof (getComboMultiplier_range (combo s)) as M.
  unfold advancePhase, levelPhase, idlePhase, missWindowPhase, decayPhase,
    powerUpPhase, movePhase.
  gs. split_ifs; b2p; gs_all; repeat split; try lia.
Qed.

Lemma processKill_counters (e : Env) (t : Z) (s : GameState) (k : nat) (a : Alien) :
  countersSound s -> countersSound (fst (processKill e t (s, k) a)).
Proof.
  unfold countersSound. intros H.
  kill_split a; repeat split; lia.
Qed.

Lemma combatPhase_counters (e : Env) (t : Z) (s : GameState) :
  countersSound s -> countersSound (combatPhase e t s).
Proof.
  intros H. unfold combatPhase, processKills.
  match goal with
  | |- countersSound (set_bullets _ (set_aliens _ ?r)) =>
      assert (C : countersSound r); [|unfold countersSound in *; gs; exact C]
  end.
  apply (processKills_invariant countersSound).
  - intros r k a. apply processKill_counters.
  - unfold countersSound in *. gs. exact H.
Qed.

Lemma cannonPhase_counters (s : GameState) :
  countersSound s -> countersSound (cannonPhase s).
Proof.
  unfold cannonPhase, countersSound. intros H.
  destruct (find (cannonHits s) (aliens s)); gs; [|exact H].
  split_ifs; repeat split; lia.
Qed.

Lemma escapeStep_counters (m : bool) (t : Z) (p : ScorePressure)
      (s : GameState) (a : Alien) :
  countersSound s -> countersSound (escapeStep m t p s a).
Proof.
  unfold escapeStep, missPenalty, countersSound. intros H. gs.
  split_ifs; repeat split; lia.
Qed.

Lemma tick_counters (e : Env) (s : GameState) :
  countersSound s -> countersSound (tick e s).
Proof.
  intros H. rewrite tick_phases. unfold escapePhase.
  apply fold_left_invariant; [intros; now apply escapeStep_counters|].
  unfold afterCannon, afterCombat, afterAdvance.
  now apply cannonPhase_counters, combatPhase_counters, advancePhase_counters.
Qed.

Lemma reducer_counters (load : nat -> Z) (e : Env) (a : Action) (w : World) :
  countersSound (game w) -> countersSound (game (reducer load e a w)).
Proof.
  intros H.
  destruct a; cbn [reducer onGame game];
    try (now apply tick_counters);
    unfold countersSound in *;
    try (unfold move; gs; exact H);
    try (unfold fire, generateId; gs; split_ifs; repeat split; lia);
    try (unfold spawnAlien, generateId; gs; split_ifs; exact H);
    try (unfold nextWave; gs; split_ifs; repeat split; lia);
    try (unfold spawnBoss, generateId; gs; exact H);
    try (unfold updateBossHP; gs; split_ifs; exact H);
    try (cbn; repeat split; lia);
    try exact H.
Qed.

(** X29.  The counters only count: in every state reached from the initial
    one the combo, the kills, the misses, the escape streak, the shots and
    the waves and power-ups counted are not negative, and the score
    multiplier is between 1 and 10. *)
Theorem counters_never_negative (load : nat -> Z) (trace : list (Env * Action)) :
  let s := stateAfter load trace in
  0 <= combo s /\ 0 <= totalKills s /\ 0 <= waveKills s
  /\ 0 <= missedAliens s /\ 0 <= escapeStreak s /\ 0 <= missesInWindow s
  /\ 0 <= powerUpsCollected s /\ 0 <= wavesCompleted s
  /\ 0 <= waveEnemiesSpawned s /\ 0 <= shotsFired s
  /\ 1 <= scoreMultiplier s <= 10.
Proof.
  apply (run_invariant load countersSound).
  - unfold countersSound. cbn. repeat split; lia.
  - intros e a w. apply reducer_counters.
Qed.

(** ** Every hit spends one bullet *)

Lemma idIn_In (x : string) (l : list string) : idIn x l = true <-> In x l.
Proof.
  unfold idIn. rewrite existsb_exists. split.
  - intros (y & I & E). apply String.eqb_eq in E. now subst.
  - intros I. exists x. split; [exact I | apply String.eqb_refl].
Qed.

Lemma collideBullet_removals (h : Z) (pre : list Bullet) (c : Collisions)
      (b : Bullet) :
  removalsSound h pre c -> removalsSound h (pre ++ [b]) (collideBullet c b).
Proof.
  unfold removalsSound. intros (H1 & H2 & H3).
  assert (I : incl (bulletsToRemove c) (map b_id (pre ++ [b]))).
  { rewrite map_app. apply incl_appl. exact H3. }
  unfold collideBullet.
  destruct (idIn (b_id b) (bulletsToRemove c)) eqn:E; [auto|].
  destruct ((b_y b <? -4)%float || (5 <? b_y b)%float); [auto|].
  destruct (find (bulletHits b) (c_aliens c)) as [a|]; [|auto].
  destruct (damageAlien (a_id a) (c_aliens c)) as [als hit].
  cbn [c_shotsHit bulletsToRemove].
  split; [rewrite length_app; cbn [List.length]; lia|].
  split.
  - apply NoDup_app; [exact H2 | repeat constructor; intros [] |].
    intros x Hx [<-|[]]. apply idIn_In in Hx. congruence.
  - apply incl_app; [exact I|]. intros x [<-|[]].
    rewrite map_app. apply in_app_iff. right. now left.
Qed.

Lemma collide_removals (bs : list Bullet) (als : list Alien) (h : Z) :
  removalsSound h bs (collide bs als h).
Proof.
  unfold collide.
  assert (G : forall l pre c,
             removalsSound h pre c ->
             removalsSound h (pre ++ l) (fold_left collideBullet l c)).
  { induction l as [|b l IH]; intros pre c H; cbn [fold_left].
    - now rewrite app_nil_r.
    - replace (pre ++ b :: l)%list with ((pre ++ [b]) ++ l)%list
        by now rewrite <- app_assoc.
      apply IH. now apply collideBullet_removals. }
  apply (G bs []). unfold removalsSound.
  cbn [c_shotsHit bulletsToRemove List.length map].
  split; [lia|]. split; [constructor | intros x []].
Qed.

Lemma spent_exact (ids : list string) (bs : list Bullet) :
  NoDup (map b_id bs) -> NoDup ids -> incl ids (map b_id bs) ->
  spent ids bs = List.length ids.
Proof.
  intros Nb Ni I. unfold spent.
  rewrite <- (length_map b_id).
  apply Nat.le_antisymm.
  - apply NoDup_incl_length.
    + exact (proj1 (thinned_filter b_id _ bs) Nb).
    + intros x Hx. apply in_map_iff in Hx. destruct Hx as (b & <- & Hb).
      apply filter_In in Hb. apply idIn_In. tauto.
  - apply NoDup_incl_length; [exact Ni|].
    intros x Hx. pose proof (I x Hx) as Hb.
    apply in_map_iff in Hb. destruct Hb as (b & <- & Hb).
    apply in_map. apply filter_In. split; [exact Hb|]. now apply idIn_In.
Qed.

Lemma combatPhase_spends (e : Env) (t : Z) (s : GameState) :
  NoDup (map b_id (bullets s)) ->
  shotsHit (combatPhase e t s) + Z.of_nat (List.length (bullets (combatPhase e t s)))
  = shotsHit s + Z.of_nat (List.length (bullets s)).
Proof.
  intros N.
  destruct (collide_removals (bullets s) (aliens s) (shotsHit s)) as (R1 & R2 & R3).
  fold (collisionsOf s) in R1, R2, R3.
  pose proof (spent_exact _ _ N R2 R3) as S. unfold spent in S.
  destruct (combatPhase_entities e t s) as [_ B]. rewrite B.
  assert (H : shotsHit (combatPhase e t s) = c_shotsHit (collisionsOf s)).
  { unfold combatPhase, processKills. gs.
    match goal with
    | |- shotsHit (fst (fold_left _ ?l (?s0, ?k))) = _ =>
        transitivity (shotsHit s0); [|gs; reflexivity]
    end.
    apply (processKills_invariant (fun r => shotsHit r = _)); [|reflexivity].
    intros r k a <-. kill_split a; reflexivity. }
  rewrite H.
  pose proof (filter_negb_length
                (fun b => idIn (b_id b) (bulletsToRemove (collisionsOf s)))
                (bullets s)) as F.
  set (c := collisionsOf s) in *. clearbody c. lia.
Qed.

(** X30.  With the distinct ids the game's states have, every hit of a
    frame spends exactly one bullet: through the collision phase the hits
    counted grow by the number of bullets that leave the screen. *)
Theorem every_hit_spends_a_bullet (load : nat -> Z)
        (trace : list (Env * Action)) (e : Env) :
  let s := afterAdvance e (stateAfter load trace) in
  let s' := afterCombat e (stateAfter load trace) in
  shotsHit s' - shotsHit s
  = Z.of_nat (List.length (bullets s)) - Z.of_nat (List.length (bullets s')).
Proof.
  cbv zeta. unfold afterCombat.
  assert (N : NoDup (map b_id (bullets (afterAdvance e (stateAfter load trace))))).
  { destruct (run_idsFresh load trace) as (_ & N & _).
    fold (stateAfter load trace) in N. unfold afterAdvance.
    rewrite advancePhase_bullets. unfold updateBullets.
    apply (proj1 (thinned_filter b_id _ _)).
    rewrite map_map.
    replace (map (fun x => b_id (moveBullet x)) (bullets (stateAfter load trace)))
      with (map b_id (bullets (stateAfter load trace)))
      by (apply map_ext; reflexivity).
    exact N. }
  pose proof (combatPhase_spends e (clock e 0%nat) _ N) as S.
  set (s := afterAdvance e (stateAfter load trace)) in *. clearbody s. lia.
Qed.
